(** * libansr: the ANSI byte-stream renderer of [src/ansr.c]

    A shallow embedding of [ansr.c] / [ansr.h] and the properties of the
    byte-stream interpreter: the escape-sequence state machine of
    [ansr_write], the parameter accumulator, the SGR interpreter
    [_ansr_sgr] and the auto-growing grid written by [_ansr_add_char].

    Modelling conventions.
    - C [unsigned] values are [Z] with the wrap-around modulo 2^32 written
      out ([u32]); [size_t] values wrap modulo 2^64 ([u64]).
    - A [char] is kept as its bit pattern, a [Z] in 0..255.  Reading a
      [char] in an arithmetic context promotes it to [int]; whether that
      sign-extends is implementation-defined and is a field of [Platform].
    - [assert] is enabled (no NDEBUG): a failed assertion aborts the
      process.  The state in which the process aborted is kept.
    - An access outside an allocated array is undefined behaviour; the
      model stops there and keeps the state reached just before.
    - [calloc]/[realloc] may fail.  The k-th allocation request of a run
      succeeds iff [alloc_ok k]; the renderer state counts the requests
      made so far in the ghost field [allocs].
    - The input buffer is a list of bytes, each a [Z] in 0..255; no
      [switch] of the code has a [case] above 0x7E, so the sign of a
      [char] holding an input byte plays no part. *)

From Stdlib Require Import ZArith Lia List Bool.
From stdpp Require Import base numbers list.
Import ListNotations.

#[local] Open Scope Z_scope.

(** ** Platform parameters *)

Class Platform := {
  char_is_signed : bool;
  alloc_ok : nat -> bool
}.

(** gcc on x86-64 Linux with a heap that never runs out. *)
Definition gcc_x86_64 : Platform :=
  {| char_is_signed := true; alloc_ok := fun _ => true |}.

(** Values of <errno.h> on Linux. *)
Definition ENOMEM : Z := 12.
Definition EOVERFLOW : Z := 75.

Definition ANSR_MIN_ALLOC_PARAMS : Z := 2.
Definition ANSR_MIN_ALLOC_ROWS : Z := 64.
Definition ANSR_MIN_ALLOC_COLS : Z := 80.

(** [#define MAX(a, b) ((a) > (b) ? (a) : (b))] and its sibling. *)
Definition MAX (a b : Z) : Z := if a >? b then a else b.
Definition MIN (a b : Z) : Z := if a <? b then a else b.

Definition u32 (z : Z) : Z := z mod 2 ^ 32.
Definition u64 (z : Z) : Z := z mod 2 ^ 64.

(** Integer promotion of a stored [char]. *)
Definition char_to_int `{Platform} (b : Z) : Z :=
  if char_is_signed && (128 <=? b) then b - 256 else b.

(** Conversion of an [unsigned] to [char]: the low eight bits. *)
Definition to_char (z : Z) : Z := z mod 256.

(** [l[i]] for an unsigned index: [None] outside the array. *)
Definition nth_Z {A : Type} (l : list A) (i : Z) : option A :=
  if (0 <=? i) && (i <? Z.of_nat (length l)) then l !! Z.to_nat i else None.

(** ** Data model ([ansr.h]) *)

Record ansr_conf_t := {
  screen_width : Z;
  screen_lines : Z
}.

Inductive ansr_color_t :=
| ANSR_COLOR_BLACK
| ANSR_COLOR_RED
| ANSR_COLOR_GREEN
| ANSR_COLOR_YELLOW
| ANSR_COLOR_BLUE
| ANSR_COLOR_MAGENTA
| ANSR_COLOR_CYAN
| ANSR_COLOR_WHITE.

(** An [int] stored into an [ansr_color_t]; the code only stores 0..7. *)
Definition color_of_int (z : Z) : ansr_color_t :=
  match z with
  | 0 => ANSR_COLOR_BLACK
  | 1 => ANSR_COLOR_RED
  | 2 => ANSR_COLOR_GREEN
  | 3 => ANSR_COLOR_YELLOW
  | 4 => ANSR_COLOR_BLUE
  | 5 => ANSR_COLOR_MAGENTA
  | 6 => ANSR_COLOR_CYAN
  | _ => ANSR_COLOR_WHITE
  end.

(** The one-bit fields of [ansr_disp_state_t.attrs], in declaration order. *)
Inductive attr :=
| bold | faint | italic | underline | slow_blink | rapid_blink | invert
| conceal | strikeout | double_underline | proportional | framed
| encircled | overlined | ideogram_underline | ideogram_double_underline
| ideogram_overline | ideogram_double_overline | ideogram_stress
| superscript | subscript.

Definition attr_bit (f : attr) : Z :=
  match f with
  | bold => 0 | faint => 1 | italic => 2 | underline => 3
  | slow_blink => 4 | rapid_blink => 5 | invert => 6 | conceal => 7
  | strikeout => 8 | double_underline => 9 | proportional => 10
  | framed => 11 | encircled => 12 | overlined => 13
  | ideogram_underline => 14 | ideogram_double_underline => 15
  | ideogram_overline => 16 | ideogram_double_overline => 17
  | ideogram_stress => 18 | superscript => 19 | subscript => 20
  end.

(** [colors.fg], [colors.bg] and the word holding the bit-fields. *)
Record ansr_disp_state_t := {
  fg : ansr_color_t;
  bg : ansr_color_t;
  attrs : Z
}.

Definition has_attr (d : ansr_disp_state_t) (f : attr) : bool :=
  Z.testbit (attrs d) (attr_bit f).

(** [d.attrs.f = 1] and [d.attrs.f = 0]. *)
Definition attr_on (f : attr) (d : ansr_disp_state_t) : ansr_disp_state_t :=
  {| fg := fg d; bg := bg d; attrs := Z.setbit (attrs d) (attr_bit f) |}.
Definition attr_off (f : attr) (d : ansr_disp_state_t) : ansr_disp_state_t :=
  {| fg := fg d; bg := bg d; attrs := Z.clearbit (attrs d) (attr_bit f) |}.
Definition set_fg (c : ansr_color_t) (d : ansr_disp_state_t) : ansr_disp_state_t :=
  {| fg := c; bg := bg d; attrs := attrs d |}.
Definition set_bg (c : ansr_color_t) (d : ansr_disp_state_t) : ansr_disp_state_t :=
  {| fg := fg d; bg := c; attrs := attrs d |}.

Record ansr_char_t := {
  code : Z;
  ch_disp_state : ansr_disp_state_t
}.

Record ansr_row_t := {
  width : Z;
  allocated_width : Z;
  cols : list ansr_char_t
}.

(** [rows] is the array of row pointers; [None] is a NULL pointer. *)
Record ansr_t := {
  pub_conf : ansr_conf_t;
  height : Z;
  allocated_height : Z;
  rows : list (option ansr_row_t)
}.

Inductive ansr_state_t :=
| ANSR_STATE_INPUT
| ANSR_STATE_EOF
| ANSR_STATE_ESCAPE
| ANSR_STATE_CSI.

(** [params] is the parameter buffer, [n_params_allocated] bytes long.
    [allocs] is ghost: the number of allocation requests made so far. *)
Record _ansr_t := {
  public : ansr_t;
  state : ansr_state_t;
  disp_state : ansr_disp_state_t;
  cursor_x : Z;
  cursor_y : Z;
  n_params_allocated : Z;
  n_params : Z;
  accumulator : Z;
  params : list Z;
  conf : ansr_conf_t;
  allocs : nat
}.

(** What memset(0) leaves behind. *)
Definition zero_disp_state : ansr_disp_state_t :=
  {| fg := ANSR_COLOR_BLACK; bg := ANSR_COLOR_BLACK; attrs := 0 |}.
Definition zero_char : ansr_char_t :=
  {| code := 0; ch_disp_state := zero_disp_state |}.
Definition zero_conf : ansr_conf_t :=
  {| screen_width := 0; screen_lines := 0 |}.

(** *** Field updates *)

Definition set_height (v : Z) (p : ansr_t) : ansr_t :=
  {| pub_conf := pub_conf p; height := v;
     allocated_height := allocated_height p; rows := rows p |}.
Definition set_allocated_height (v : Z) (p : ansr_t) : ansr_t :=
  {| pub_conf := pub_conf p; height := height p;
     allocated_height := v; rows := rows p |}.
Definition set_rows (v : list (option ansr_row_t)) (p : ansr_t) : ansr_t :=
  {| pub_conf := pub_conf p; height := height p;
     allocated_height := allocated_height p; rows := v |}.

Definition set_public (v : ansr_t) (a : _ansr_t) : _ansr_t :=
  {| public := v; state := state a; disp_state := disp_state a;
     cursor_x := cursor_x a; cursor_y := cursor_y a;
     n_params_allocated := n_params_allocated a; n_params := n_params a;
     accumulator := accumulator a; params := params a; conf := conf a;
     allocs := allocs a |}.
Definition set_state (v : ansr_state_t) (a : _ansr_t) : _ansr_t :=
  {| public := public a; state := v; disp_state := disp_state a;
     cursor_x := cursor_x a; cursor_y := cursor_y a;
     n_params_allocated := n_params_allocated a; n_params := n_params a;
     accumulator := accumulator a; params := params a; conf := conf a;
     allocs := allocs a |}.
Definition set_disp_state (v : ansr_disp_state_t) (a : _ansr_t) : _ansr_t :=
  {| public := public a; state := state a; disp_state := v;
     cursor_x := cursor_x a; cursor_y := cursor_y a;
     n_params_allocated := n_params_allocated a; n_params := n_params a;
     accumulator := accumulator a; params := params a; conf := conf a;
     allocs := allocs a |}.
Definition set_cursor_x (v : Z) (a : _ansr_t) : _ansr_t :=
  {| public := public a; state := state a; disp_state := disp_state a;
     cursor_x := v; cursor_y := cursor_y a;
     n_params_allocated := n_params_allocated a; n_params := n_params a;
     accumulator := accumulator a; params := params a; conf := conf a;
     allocs := allocs a |}.
Definition set_cursor_y (v : Z) (a : _ansr_t) : _ansr_t :=
  {| public := public a; state := state a; disp_state := disp_state a;
     cursor_x := cursor_x a; cursor_y := v;
     n_params_allocated := n_params_allocated a; n_params := n_params a;
     accumulator := accumulator a; params := params a; conf := conf a;
     allocs := allocs a |}.
Definition set_n_params_allocated (v : Z) (a : _ansr_t) : _ansr_t :=
  {| public := public a; state := state a; disp_state := disp_state a;
     cursor_x := cursor_x a; cursor_y := cursor_y a;
     n_params_allocated := v; n_params := n_params a;
     accumulator := accumulator a; params := params a; conf := conf a;
     allocs := allocs a |}.
Definition set_n_params (v : Z) (a : _ansr_t) : _ansr_t :=
  {| public := public a; state := state a; disp_state := disp_state a;
     cursor_x := cursor_x a; cursor_y := cursor_y a;
     n_params_allocated := n_params_allocated a; n_params := v;
     accumulator := accumulator a; params := params a; conf := conf a;
     allocs := allocs a |}.
Definition set_accumulator (v : Z) (a : _ansr_t) : _ansr_t :=
  {| public := public a; state := state a; disp_state := disp_state a;
     cursor_x := cursor_x a; cursor_y := cursor_y a;
     n_params_allocated := n_params_allocated a; n_params := n_params a;
     accumulator := v; params := params a; conf := conf a;
     allocs := allocs a |}.
Definition set_params (v : list Z) (a : _ansr_t) : _ansr_t :=
  {| public := public a; state := state a; disp_state := disp_state a;
     cursor_x := cursor_x a; cursor_y := cursor_y a;
     n_params_allocated := n_params_allocated a; n_params := n_params a;
     accumulator := accumulator a; params := v; conf := conf a;
     allocs := allocs a |}.
Definition set_allocs (v : nat) (a : _ansr_t) : _ansr_t :=
  {| public := public a; state := state a; disp_state := disp_state a;
     cursor_x := cursor_x a; cursor_y := cursor_y a;
     n_params_allocated := n_params_allocated a; n_params := n_params a;
     accumulator := accumulator a; params := params a; conf := conf a;
     allocs := v |}.

(** ** Outcomes of a call *)

Inductive outcome :=
| Ret (rc : Z) (a : _ansr_t)   (* the call returned [rc] *)
| Abort (a : _ansr_t)          (* an assertion failed *)
| Undef (a : _ansr_t).         (* an access fell outside its array *)

(** The renderer state a call leaves behind. *)
Definition final_state (o : outcome) : _ansr_t :=
  match o with Ret _ a | Abort a | Undef a => a end.

(** [assert(!call)]: go on when the call returned 0. *)
Definition assert_zero (o : outcome) : outcome :=
  match o with
  | Ret rc a => if rc =? 0 then Ret 0 a else Abort a
  | _ => o
  end.

(** One allocation request: whether it succeeds, and the state after. *)
Definition request `{Platform} (a : _ansr_t) : bool * _ansr_t :=
  (alloc_ok (allocs a), set_allocs (S (allocs a)) a).

Section Renderer.
Context `{Platform}.

(** ** Parameter accumulator *)

(** [_ansr_params_append]: the buffer doubles (at least
    [ANSR_MIN_ALLOC_PARAMS]) when full; bytes that [realloc] adds are
    indeterminate and never read, they are taken as 0. *)
Definition _ansr_params_append (a : _ansr_t) (p : Z) : outcome :=
  let grown :=
    if u64 (n_params a + 1) >? n_params_allocated a then
      let newsize := MAX ANSR_MIN_ALLOC_PARAMS (u64 (n_params_allocated a * 2)) in
      let '(ok, a1) := request a in
      if ok then
        Ret 0 (set_params (resize (Z.to_nat newsize) 0 (params a1))
                 (set_n_params_allocated newsize a1))
      else Ret (- ENOMEM) a1
    else Ret 0 a in
  match grown with
  | Ret 0 a2 =>
      if (0 <=? n_params a2) && (n_params a2 <? Z.of_nat (length (params a2))) then
        Ret 0 (set_n_params (u64 (n_params a2 + 1))
                 (set_params (<[Z.to_nat (n_params a2) := p]> (params a2)) a2))
      else Undef a2
  | o => o
  end.

Definition _ansr_params_append_accumulator (a : _ansr_t) : outcome :=
  if accumulator a >? 255 then Ret (- EOVERFLOW) a
  else
    match _ansr_params_append a (to_char (accumulator a)) with
    | Ret 0 a1 => Ret 0 (set_accumulator 0 a1)
    | o => o
    end.

(** ** Display state tracker *)

(** The compound literal [{ .colors = { .fg = ANSR_COLOR_WHITE } }]. *)
Definition sgr_baseline : ansr_disp_state_t :=
  {| fg := ANSR_COLOR_WHITE; bg := ANSR_COLOR_BLACK; attrs := 0 |}.

Definition _ansr_sgr_reset (a : _ansr_t) : _ansr_t :=
  set_disp_state sgr_baseline a.

Definition in_range (lo hi p : Z) : bool := (lo <=? p) && (p <=? hi).

(** The [switch (p)] of [_ansr_sgr], on the promoted parameter. *)
Definition sgr_case (p : Z) (a : _ansr_t) : outcome :=
  let d := disp_state a in
  let upd d' := Ret 0 (set_disp_state d' a) in
  if in_range 11 19 p then Abort a
  else if in_range 30 37 p then upd (set_fg (color_of_int (p - 30)) d)
  else if in_range 40 47 p then upd (set_bg (color_of_int (p - 40)) d)
  else if in_range 90 97 p then Abort a
  else if in_range 100 107 p then Abort a
  else
    match p with
    | 0 => Ret 0 (_ansr_sgr_reset a)
    | 1 => upd (attr_on bold d)
    | 2 => upd (attr_on faint d)
    | 3 => upd (attr_on italic d)
    | 4 => upd (attr_on underline d)
    | 5 => upd (attr_on slow_blink d)
    | 6 => upd (attr_on rapid_blink d)
    | 7 => upd (attr_on invert d)
    | 8 => upd (attr_on conceal d)
    | 9 => upd (attr_on strikeout d)
    | 10 => Abort a
    | 20 => Abort a
    | 21 => upd (attr_on double_underline d)
    | 22 => upd (attr_off bold d)
    | 23 => upd (attr_off italic d)
    | 24 => upd (attr_off underline (attr_off double_underline d))
    | 25 => upd (attr_off slow_blink (attr_off rapid_blink d))
    | 26 => upd (attr_off proportional d)
    | 27 => upd (attr_off invert d)
    | 28 => upd (attr_off conceal d)
    | 29 => upd (attr_off strikeout d)
    | 38 => Abort a
    | 39 => Abort a
    | 48 => Abort a
    | 49 => Abort a
    | 50 => upd (attr_off proportional d)
    | 51 => upd (attr_on framed d)
    | 52 => upd (attr_on encircled d)
    | 53 => upd (attr_on overlined d)
    | 54 => upd (attr_off framed (attr_off encircled d))
    | 55 => upd (attr_off overlined d)
    | 58 => Abort a
    | 59 => Abort a
    | 60 => upd (attr_on ideogram_underline d)
    | 61 => upd (attr_on ideogram_double_underline d)
    | 62 => upd (attr_on ideogram_overline d)
    | 63 => upd (attr_on ideogram_double_overline d)
    | 64 => upd (attr_on ideogram_stress d)
    | 65 => upd (attr_off ideogram_underline
                   (attr_off ideogram_double_underline
                      (attr_off ideogram_overline
                         (attr_off ideogram_double_overline
                            (attr_off ideogram_stress d)))))
    | 73 => upd (attr_on superscript d)
    | 74 => upd (attr_on subscript d)
    | 75 => upd (attr_off superscript (attr_off subscript d))
    | _ => Ret 0 a
    end.

(** The [for] loop of [_ansr_sgr]: [n] iterations are left, [i] is the
    loop index. *)
Fixpoint sgr_loop (n : nat) (i : Z) (a : _ansr_t) : outcome :=
  match n with
  | O => Ret 0 a
  | S n' =>
      match nth_Z (params a) i with
      | None => Undef a
      | Some b =>
          match sgr_case (char_to_int b) a with
          | Ret _ a' => sgr_loop n' (i + 1) a'
          | o => o
          end
      end
  end.

Definition _ansr_sgr (a : _ansr_t) : outcome :=
  if n_params a =? 0 then Ret 0 (_ansr_sgr_reset a)
  else sgr_loop (Z.to_nat (n_params a)) 0 a.

(** ** Grid buffer *)

(** The soft wrap at the head of [_ansr_add_char]. *)
Definition soft_wrap (a : _ansr_t) : _ansr_t :=
  if negb (screen_width (conf a) =? 0) && (cursor_x a =? screen_width (conf a))
  then set_cursor_y (u32 (cursor_y a + 1)) (set_cursor_x 0 a)
  else a.

(** The "expand rows" block.  The memset length is computed in [size_t]:
    a new height below the old one makes it run off the array. *)
Definition expand_rows (a : _ansr_t) : outcome :=
  let p := public a in
  if cursor_y a >=? allocated_height p then
    let new_height := MAX ANSR_MIN_ALLOC_ROWS (u32 (allocated_height p * 2)) in
    let '(ok, a1) := request a in
    if ok then
      if new_height <? allocated_height p then Undef a1
      else
        let new :=
          take (Z.to_nat (allocated_height p)) (rows p)
          ++ replicate (Z.to_nat (new_height - allocated_height p)) None in
        Ret 0 (set_public (set_rows new (set_allocated_height new_height p)) a1)
    else Ret (- ENOMEM) a1
  else Ret 0 a.

Definition bump_height (a : _ansr_t) : _ansr_t :=
  if cursor_y a >=? height (public a)
  then set_public (set_height (u32 (cursor_y a + 1)) (public a)) a
  else a.

(** The "expand cols" block; reading [rows[cursor_y]] comes first. *)
Definition expand_cols (a : _ansr_t) : outcome :=
  match nth_Z (rows (public a)) (cursor_y a) with
  | None => Undef a
  | Some r =>
      let full :=
        match r with
        | None => true
        | Some row => cursor_x a >=? allocated_width row
        end in
      if full then
        let old_width := match r with Some row => allocated_width row | None => 0 end in
        let new_width := MAX (u64 (old_width * 2)) ANSR_MIN_ALLOC_COLS in
        let '(ok, a1) := request a in
        if ok then
          let old_cols := match r with Some row => cols row | None => [] end in
          let new :=
            {| width := match r with Some row => width row | None => 0 end;
               allocated_width := u32 new_width;
               cols := take (Z.to_nat old_width) old_cols
                       ++ replicate (Z.to_nat (new_width - old_width)) zero_char |} in
          Ret 0 (set_public
                   (set_rows (<[Z.to_nat (cursor_y a) := Some new]> (rows (public a1)))
                      (public a1)) a1)
        else Ret (- ENOMEM) a1
      else Ret 0 a
  end.

(** The two stores into the cell, [cursor_x++], and the width update. *)
Definition store_char (a : _ansr_t) (c : Z) : outcome :=
  match nth_Z (rows (public a)) (cursor_y a) with
  | Some (Some row) =>
      if (0 <=? cursor_x a) && (cursor_x a <? Z.of_nat (length (cols row))) then
        let cell := {| code := c; ch_disp_state := disp_state a |} in
        let x' := u32 (cursor_x a + 1) in
        let row' :=
          {| width := if width row <? x' then x' else width row;
             allocated_width := allocated_width row;
             cols := <[Z.to_nat (cursor_x a) := cell]> (cols row) |} in
        Ret 0 (set_cursor_x x'
                 (set_public
                    (set_rows (<[Z.to_nat (cursor_y a) := Some row']> (rows (public a)))
                       (public a)) a))
      else Undef a
  | _ => Undef a
  end.

Definition _ansr_add_char (a : _ansr_t) (c : Z) : outcome :=
  match expand_rows (soft_wrap a) with
  | Ret 0 a1 =>
      match expand_cols (bump_height a1) with
      | Ret 0 a2 => store_char a2 c
      | o => o
      end
  | o => o
  end.

(** ** Escape-sequence state machine *)

(** [case ANSR_STATE_INPUT]; the result of [_ansr_add_char] is dropped. *)
Definition input_byte (a : _ansr_t) (c : Z) : outcome :=
  match c with
  | 0x7 => Ret 0 a
  | 0x8 => Ret 0 (if cursor_x a >? 0 then set_cursor_x (cursor_x a - 1) a else a)
  | 0x9 => Abort a
  | 0x0a => Ret 0 (set_cursor_y (u32 (cursor_y a + 1)) a)
  | 0x0c => Abort a
  | 0x0d => Ret 0 (set_cursor_x 0 a)
  | 0x1a => Ret 0 (set_state ANSR_STATE_EOF a)
  | 0x1b => Ret 0 (set_state ANSR_STATE_ESCAPE a)
  | 0x7f => Ret 0 a
  | _ =>
      match _ansr_add_char a c with
      | Ret _ a' => Ret 0 a'
      | o => o
      end
  end.

(** [case ANSR_STATE_ESCAPE]. *)
Definition escape_byte (a : _ansr_t) (c : Z) : outcome :=
  match c with
  | 0x5b => Ret 0 (set_n_params 0 (set_accumulator 0 (set_state ANSR_STATE_CSI a)))
  | _ => Abort a
  end.

(** First [switch] of [case ANSR_STATE_CSI]: parameter bytes and the
    finalisation of the accumulator. *)
Definition csi_param_byte (a : _ansr_t) (c : Z) : outcome :=
  if in_range 0x30 0x39 c then
    Ret 0 (set_accumulator (u32 (u32 (accumulator a * 10) + (c - 0x30))) a)
  else if c =? 0x3a then Abort a
  else if c =? 0x3b then assert_zero (_ansr_params_append_accumulator a)
  else if in_range 0x3c 0x3f c then Abort a
  else if in_range 0x20 0x2f c then Abort a
  else if in_range 0x40 0x6f c || in_range 0x70 0x7e c then
    assert_zero (_ansr_params_append_accumulator a)
  else Abort a.

(** [params[i]] read as an [int]. *)
Definition param (a : _ansr_t) (i : Z) : option Z :=
  char_to_int <$> nth_Z (params a) i.

(** Second [switch]: dispatch on the final byte. *)
Definition csi_final_byte (a : _ansr_t) (c : Z) : outcome :=
  let done_ a' := Ret 0 (set_state ANSR_STATE_INPUT a') in
  match c with
  | 0x41 =>
      if n_params a =? 0 then
        done_ (set_cursor_y (u32 (cursor_y a - MIN (cursor_y a) 1)) a)
      else
        match param a 0 with
        | Some p => done_ (set_cursor_y (u32 (cursor_y a - MIN (cursor_y a) (u32 p))) a)
        | None => Undef a
        end
  | 0x42 =>
      if n_params a =? 0 then done_ (set_cursor_y (u32 (cursor_y a + 1)) a)
      else
        match param a 0 with
        | Some p => done_ (set_cursor_y (u32 (cursor_y a + p)) a)
        | None => Undef a
        end
  | 0x43 =>
      if n_params a =? 0 then done_ (set_cursor_x (u32 (cursor_x a + 1)) a)
      else
        match param a 0 with
        | Some p => done_ (set_cursor_x (u32 (cursor_x a + p)) a)
        | None => Undef a
        end
  | 0x44 | 0x45 | 0x46 => Abort a
  | 0x47 =>
      if n_params a =? 0 then done_ (set_cursor_x 0 a)
      else
        match param a 0 with
        | Some p => done_ (set_cursor_x (u32 (p - 1)) a)
        | None => Undef a
        end
  | 0x48 =>
      let r :=
        if n_params a >=? 1 then (fun p => u32 (p - 1)) <$> param a 0
        else Some 0 in
      let c :=
        if n_params a =? 2 then (fun p => u32 (p - 1)) <$> param a 1
        else Some 0 in
      match r, c with
      | Some r, Some c => done_ (set_cursor_x c (set_cursor_y r a))
      | _, _ => Undef a
      end
  | 0x49 => Abort a
  | 0x4a => done_ a
  | 0x4b => Abort a
  | 0x53 | 0x54 => Abort a
  | 0x66 => Abort a
  | 0x6d =>
      match _ansr_sgr a with
      | Ret _ a' => done_ a'
      | o => o
      end
  | _ => if in_range 0x70 0x7e c then done_ a else Ret 0 a
  end.

(** [case ANSR_STATE_CSI]. *)
Definition csi_byte (a : _ansr_t) (c : Z) : outcome :=
  match csi_param_byte a c with
  | Ret _ a1 => csi_final_byte a1 c
  | o => o
  end.

(** The body of the [for] loop of [ansr_write]. *)
Definition ansr_write_byte (a : _ansr_t) (c : Z) : outcome :=
  match state a with
  | ANSR_STATE_INPUT => input_byte a c
  | ANSR_STATE_EOF => Ret 0 a
  | ANSR_STATE_ESCAPE => escape_byte a c
  | ANSR_STATE_CSI => csi_byte a c
  end.

Fixpoint ansr_write (a : _ansr_t) (input : list Z) : outcome :=
  match input with
  | [] => Ret 0 a
  | c :: rest =>
      match ansr_write_byte a c with
      | Ret _ a' => ansr_write a' rest
      | o => o
      end
  end.

(** ** Construction *)

Definition ansr_conf_defaults : ansr_conf_t :=
  {| screen_width := 80; screen_lines := 24 |}.

(** The instance right after [calloc] and [_ansr->conf = *conf]. *)
Definition blank (c : ansr_conf_t) : _ansr_t :=
  {| public := {| pub_conf := zero_conf; height := 0;
                  allocated_height := 0; rows := [] |};
     state := ANSR_STATE_INPUT;
     disp_state := zero_disp_state;
     cursor_x := 0; cursor_y := 0;
     n_params_allocated := 0; n_params := 0; accumulator := 0;
     params := [];
     conf := c;
     allocs := 1 |}.

Inductive ansr_new_result :=
| New_assert                 (* [assert(!input || input_len > 0)] failed *)
| New_null                   (* NULL returned *)
| New_ansr (o : outcome).    (* the instance, through its first write *)

Definition ansr_new (c : option ansr_conf_t) (input : option (list Z))
  : ansr_new_result :=
  match input with
  | Some [] => New_assert
  | _ =>
      if alloc_ok 0 then
        let a := blank (default ansr_conf_defaults c) in
        match input with
        | None => New_ansr (Ret 0 a)
        | Some bytes =>
            match ansr_write a bytes with
            | Ret rc a' => if rc <? 0 then New_null else New_ansr (Ret 0 a')
            | o => New_ansr o
            end
        end
      else New_null
  end.

(** ** Accessors *)

(** The cell stored at row [r], column [c], when that storage exists. *)
Definition row_at (a : _ansr_t) (r : Z) : option ansr_row_t :=
  match nth_Z (rows (public a)) r with
  | Some (Some row) => Some row
  | _ => None
  end.

Definition cell_at (a : _ansr_t) (r c : Z) : option ansr_char_t :=
  match row_at a r with
  | Some row => nth_Z (cols row) c
  | None => None
  end.

End Renderer.

(** ** Vocabulary of the properties *)

Section Vocabulary.
Context `{Platform}.

(** SGR values for which the [switch] of [_ansr_sgr] has no [case]. *)
Definition sgr_no_case (p : Z) : bool :=
  (p =? 56) || (p =? 57) || in_range 66 72 p || in_range 76 89 p.

(** The parameter buffer is in order: the count fits the allocation, the
    allocation is what [n_params_allocated] says, and doubling it stays
    far from the end of [size_t]. *)
Definition params_wf (a : _ansr_t) : Prop :=
  0 <= n_params a <= n_params_allocated a
  /\ n_params_allocated a = Z.of_nat (length (params a))
  /\ n_params_allocated a < 2 ^ 62.

(** The parameters collected so far, [params[0 .. n_params)]. *)
Definition pending (a : _ansr_t) : list Z :=
  take (Z.to_nat (n_params a)) (params a).

(** The parameter list as the dispatch sees it: a final byte (or ';')
    first appends the accumulator. *)
Definition finalized (a : _ansr_t) : list Z :=
  pending a ++ [to_char (accumulator a)].

Definition only_params_changed (a a1 : _ansr_t) : Prop :=
  public a1 = public a /\ state a1 = state a /\ disp_state a1 = disp_state a
  /\ cursor_x a1 = cursor_x a /\ cursor_y a1 = cursor_y a
  /\ accumulator a1 = accumulator a /\ conf a1 = conf a.

(** The bytes that finalise the accumulator in the CSI state: ';' and the
    final bytes 0x40..0x7E. *)
Definition finaliser (b : Z) : bool := (b =? 0x3b) || in_range 0x40 0x7e b.

(** The bytes that reach the [default] label of the Input state, that
    is, [_ansr_add_char]. *)
Definition is_text (c : Z) : bool :=
  negb ((c =? 0x7) || (c =? 0x8) || (c =? 0x9) || (c =? 0x0a) || (c =? 0x0c)
        || (c =? 0x0d) || (c =? 0x1a) || (c =? 0x1b) || (c =? 0x7f)).

Definition printable (c : Z) : Prop := 0x20 <= c <= 0x7e.

(** The cell that byte [c], met in state [a], is stored into: the cursor
    after the soft wrap, when [_ansr_add_char] gets as far as its store. *)
Definition stored_by (a : _ansr_t) (c : Z) : list (Z * Z) :=
  match state a with
  | ANSR_STATE_INPUT =>
      if is_text c then
        match _ansr_add_char a c with
        | Ret 0 _ => [(cursor_y (soft_wrap a), cursor_x (soft_wrap a))]
        | _ => []
        end
      else []
  | _ => []
  end.

(** The cells written while [input] is processed from state [a], in the
    order of the writes. *)
Fixpoint written (a : _ansr_t) (input : list Z) : list (Z * Z) :=
  match input with
  | [] => []
  | c :: rest =>
      stored_by a c ++
      match ansr_write_byte a c with
      | Ret _ a' => written a' rest
      | _ => []
      end
  end.

(** Row [r] of a grid of width [W] after the text [pre] was written from
    column 0 of row 0 with Display State [d]. *)
Definition row_filled (W : Z) (d : ansr_disp_state_t) (pre : list Z)
    (r : Z) (row : ansr_row_t) : Prop :=
  width row = Z.min W (Z.of_nat (length pre) - r * W)
  /\ allocated_width row = Z.of_nat (length (cols row))
  /\ width row <= allocated_width row
  /\ forall j ch, 0 <= j < width row ->
       pre !! Z.to_nat (r * W + j) = Some ch ->
       nth_Z (cols row) j = Some {| code := ch; ch_disp_state := d |}.

(** The renderer after the text [pre]: the cursor is one past the last
    character (the wrap at column [W] still pending), rows up to the
    cursor hold the text, later rows are not allocated. *)
Definition text_filled (W : Z) (d : ansr_disp_state_t) (pre : list Z)
    (a : _ansr_t) : Prop :=
  let k := Z.of_nat (length pre) in
  state a = ANSR_STATE_INPUT /\ disp_state a = d
  /\ screen_width (conf a) = W
  /\ 0 <= cursor_y a /\ 0 <= cursor_x a <= W
  /\ cursor_y a * W + cursor_x a = k
  /\ (0 < k -> 0 < cursor_x a)
  /\ allocated_height (public a) = Z.of_nat (length (rows (public a)))
  /\ cursor_y a <= allocated_height (public a)
  /\ (0 < k -> cursor_y a < allocated_height (public a))
  /\ height (public a) = (if k =? 0 then 0 else cursor_y a + 1)
  /\ (forall r, 0 <= r -> r * W < k ->
        exists row, nth_Z (rows (public a)) r = Some (Some row)
                    /\ row_filled W d pre r row)
  /\ (forall r, k <= r * W -> r < allocated_height (public a) ->
        nth_Z (rows (public a)) r = Some None).

(** The fields outside the grid and the parameter buffer agree. *)
Definition same_control (a a1 : _ansr_t) : Prop :=
  state a1 = state a /\ disp_state a1 = disp_state a
  /\ cursor_x a1 = cursor_x a /\ cursor_y a1 = cursor_y a
  /\ conf a1 = conf a.

(** As above, cursor apart. *)
Definition same_control_but_cursor (a a1 : _ansr_t) : Prop :=
  state a1 = state a /\ disp_state a1 = disp_state a /\ conf a1 = conf a
  /\ allocs a1 = allocs a.

(** The cells [from], ..., [from + len - 1] of a grid of width [W],
    counted in row-major order. *)
Definition row_major (W : Z) (from len : Z) : list (Z * Z) :=
  (fun i => (i / W, i mod W)) <$> seqZ from len.

(** *** Vocabulary of the further properties *)

(** The parser side of the renderer is the same in [a] and [a']. *)
Definition parser_untouched (a a' : _ansr_t) : Prop :=
  state a' = state a /\ disp_state a' = disp_state a /\ conf a' = conf a
  /\ params a' = params a /\ n_params a' = n_params a
  /\ n_params_allocated a' = n_params_allocated a
  /\ accumulator a' = accumulator a.

(** SGR values whose [case] is [assert(0)]. *)
Definition sgr_fatal (p : Z) : bool :=
  in_range 10 20 p || in_range 38 39 p || in_range 48 49 p
  || in_range 58 59 p || in_range 90 97 p || in_range 100 107 p.

(** SGR values whose [case] only switches attributes on, and those whose
    [case] only switches attributes off. *)
Definition sgr_sets (p : Z) : bool :=
  in_range 1 9 p || (p =? 21) || in_range 51 53 p || in_range 60 64 p
  || in_range 73 74 p.

Definition sgr_clears (p : Z) : bool :=
  in_range 22 29 p || (p =? 50) || in_range 54 55 p || (p =? 65) || (p =? 75).

(** The bytes '0'..'9', and the value the accumulator reaches on a run of
    them when nothing wraps. *)
Definition is_digit (c : Z) : bool := in_range 0x30 0x39 c.

Definition decimal (acc : Z) (ds : list Z) : Z :=
  fold_left (fun v c => v * 10 + (c - 0x30)) ds acc.

(** The bytes that have a [case] in the final-byte [switch]. *)
Definition csi_handled_final (c : Z) : bool :=
  in_range 0x41 0x4b c || (c =? 0x53) || (c =? 0x54) || (c =? 0x66)
  || (c =? 0x6d) || in_range 0x70 0x7e c.

(** The final bytes whose [case] is [assert(0)]. *)
Definition csi_unsupported_final (c : Z) : bool :=
  in_range 0x44 0x46 c || (c =? 0x49) || (c =? 0x4b) || (c =? 0x53)
  || (c =? 0x54) || (c =? 0x66).

(** The bytes the first [switch] of the CSI state accepts: digits, ';'
    and the final bytes. *)
Definition csi_accepted_byte (c : Z) : bool :=
  in_range 0x30 0x39 c || (c =? 0x3b) || in_range 0x40 0x7e c.

(** The renderer right after ESC '[' was read in the Input state. *)
Definition csi_entered (a : _ansr_t) : _ansr_t :=
  set_n_params 0 (set_accumulator 0 (set_state ANSR_STATE_CSI a)).

(** The parameter buffer is as long as [n_params_allocated] says, and
    [k] parameters fit: either they fit already or the one [realloc]
    that is then needed succeeds. *)
Definition params_room (k : Z) (a : _ansr_t) : Prop :=
  n_params_allocated a = Z.of_nat (length (params a))
  /\ n_params_allocated a < 2 ^ 62
  /\ (k <= n_params_allocated a \/ alloc_ok (allocs a) = true).

(** The parameter buffer after at most [k] bytes of input. *)
Definition params_within (k : Z) (a : _ansr_t) : Prop :=
  0 <= n_params a <= k
  /\ n_params a <= n_params_allocated a
  /\ n_params_allocated a = Z.of_nat (length (params a))
  /\ n_params_allocated a <= Z.max 2 (2 * k).

(** The allocation sizes recorded in the grid are the sizes of the
    arrays. *)
Definition grid_ok (a : _ansr_t) : Prop :=
  allocated_height (public a) = Z.of_nat (length (rows (public a)))
  /\ forall r row, nth_Z (rows (public a)) r = Some (Some row) ->
       allocated_width row = Z.of_nat (length (cols row)).

(** The number of cells allocated for row [r]; 0 for a NULL row. *)
Definition row_capacity (a : _ansr_t) (r : Z) : Z :=
  match row_at a r with
  | Some row => allocated_width row
  | None => 0
  end.

(** What a reader of the public structure relies on: the logical sizes
    lie within the allocated ones, which are the sizes of the arrays. *)
Definition grid_consistent (p : ansr_t) : Prop :=
  0 <= height p <= allocated_height p
  /\ allocated_height p = Z.of_nat (length (rows p))
  /\ forall r row, nth_Z (rows p) r = Some (Some row) ->
       0 <= width row <= allocated_width row
       /\ allocated_width row = Z.of_nat (length (cols row)).

(** The part of it that concerns the arrays alone: the recorded
    allocation sizes are the sizes of the arrays, and each row's width
    lies within its allocation. *)
Definition sizes_exact (p : ansr_t) : Prop :=
  allocated_height p = Z.of_nat (length (rows p))
  /\ forall r row, nth_Z (rows p) r = Some (Some row) ->
       0 <= width row <= allocated_width row
       /\ allocated_width row = Z.of_nat (length (cols row)).

(** What holds of the renderer at an access outside an array: the sizes
    are exact, and the height exceeds the allocated height only as the
    cursor row plus one, with the cursor row beyond the row array. *)
Definition stopped_sound (a : _ansr_t) : Prop :=
  sizes_exact (public a)
  /\ 0 <= height (public a)
  /\ (height (public a) <= allocated_height (public a)
      \/ (height (public a) = cursor_y a + 1
          /\ allocated_height (public a) <= cursor_y a)).

(** The same with a bound [B] on the allocated widths, which keeps the
    doubling of a row away from the end of [unsigned]. *)
Definition row_sound (B : Z) (row : ansr_row_t) : Prop :=
  allocated_width row = Z.of_nat (length (cols row))
  /\ 0 <= width row <= allocated_width row
  /\ allocated_width row <= B.

Definition grid_sound (B : Z) (p : ansr_t) : Prop :=
  allocated_height p = Z.of_nat (length (rows p))
  /\ 0 <= height p <= allocated_height p
  /\ allocated_height p < 2 ^ 32
  /\ forall r row, nth_Z (rows p) r = Some (Some row) -> row_sound B row.

(** An [unsigned] that is at most [k] steps away from 0, on either side
    of the wrap-around. *)
Definition wrapped_near (k x : Z) : Prop :=
  0 <= x < 2 ^ 32 /\ (x <= k \/ 2 ^ 32 - k <= x).

Definition is_byte (b : Z) : Prop := 0 <= b <= 255.

(** What holds of a renderer that has consumed [n] bytes since it was
    created: the cursor column moved by at most 256 per byte, and rows
    are no wider than twice the columns the cursor could reach. *)
Definition run_inv (n : Z) (a : _ansr_t) : Prop :=
  grid_sound (Z.max 80 (512 * n)) (public a)
  /\ wrapped_near (256 * n) (cursor_x a)
  /\ 0 <= cursor_y a < 2 ^ 32
  /\ Forall is_byte (params a).

End Vocabulary.

(** A heap that grants the first [n] allocation requests of a renderer
    (the [calloc] of [ansr_new] is request 0) and refuses the others. *)
Definition heap_of (n : nat) : Platform :=
  {| char_is_signed := true; alloc_ok := fun k => (k <? n)%nat |}.

(** ** Basic facts *)

Lemma u32_small z : 0 <= z < 2 ^ 32 -> u32 z = z.
Proof. intros Hz. unfold u32. apply Z.mod_small. exact Hz. Qed.

Lemma u64_small z : 0 <= z < 2 ^ 64 -> u64 z = z.
Proof. intros Hz. unfold u64. apply Z.mod_small. exact Hz. Qed.

Lemma nth_Z_lookup {A} (l : list A) (i : Z) :
  0 <= i -> nth_Z l i = l !! Z.to_nat i.
Proof.
  intros Hi. unfold nth_Z.
  destruct (Z.leb_spec 0 i); [|lia].
  destruct (Z.ltb_spec i (Z.of_nat (length l))); simpl; [reflexivity|].
  symmetry. apply lookup_ge_None. lia.
Qed.

Lemma nth_Z_Some {A} (l : list A) (i : Z) (x : A) :
  nth_Z l i = Some x -> 0 <= i < Z.of_nat (length l) /\ l !! Z.to_nat i = Some x.
Proof.
  unfold nth_Z.
  destruct (Z.leb_spec 0 i); simpl; [|discriminate].
  destruct (Z.ltb_spec i (Z.of_nat (length l))); [|discriminate].
  intros Hx. split; [lia | exact Hx].
Qed.

Lemma nth_Z_None {A} (l : list A) (i : Z) :
  nth_Z l i = None -> i < 0 \/ Z.of_nat (length l) <= i.
Proof.
  unfold nth_Z.
  destruct (Z.leb_spec 0 i); simpl; [|left; lia].
  destruct (Z.ltb_spec i (Z.of_nat (length l))); [|right; lia].
  intros Hx. apply lookup_ge_None in Hx. lia.
Qed.

Lemma nth_Z_of_lookup {A} (l : list A) (i : Z) (x : A) :
  0 <= i -> l !! Z.to_nat i = Some x -> nth_Z l i = Some x.
Proof. intros Hi Hx. rewrite nth_Z_lookup by lia. exact Hx. Qed.

(** An array reallocated and zero-filled holds old entries or the filler. *)
Lemma nth_Z_realloc {A} (l : list A) (n m : nat) (z x : A) (i : Z) :
  nth_Z (take n l ++ replicate m z) i = Some x ->
  x = z \/ nth_Z l i = Some x.
Proof.
  intros Hx. apply nth_Z_Some in Hx as [Hi Hx].
  apply lookup_app_Some in Hx as [Hx | [_ Hx]].
  - right. apply lookup_take_Some in Hx as [Hx _].
    apply nth_Z_of_lookup; [lia | exact Hx].
  - left. apply lookup_replicate in Hx as [-> _]. reflexivity.
Qed.

Lemma nth_Z_insert {A} (l : list A) (j i : Z) (v x : A) :
  0 <= j ->
  nth_Z (<[Z.to_nat j := v]> l) i = Some x ->
  (i = j /\ x = v) \/ nth_Z l i = Some x.
Proof.
  intros Hj Hx. apply nth_Z_Some in Hx as [Hi Hx].
  apply list_lookup_insert_Some in Hx as [(Heq & -> & _) | [Hne Hx]].
  - left. split; [lia | reflexivity].
  - right. apply nth_Z_of_lookup; [lia | exact Hx].
Qed.

Lemma nth_Z_app_l {A} (l1 l2 : list A) (i : Z) :
  i < Z.of_nat (length l1) -> nth_Z (l1 ++ l2) i = nth_Z l1 i.
Proof.
  intros Hi. unfold nth_Z. rewrite length_app.
  destruct (Z.leb_spec 0 i); cbn [andb]; [|reflexivity].
  destruct (Z.ltb_spec i (Z.of_nat (length l1))); [|lia].
  destruct (Z.ltb_spec i (Z.of_nat (length l1 + length l2))); [|lia].
  apply lookup_app_l. lia.
Qed.

Lemma nth_Z_app_replicate {A} (l : list A) (n : nat) (z : A) (i : Z) :
  Z.of_nat (length l) <= i < Z.of_nat (length l) + Z.of_nat n ->
  nth_Z (l ++ replicate n z) i = Some z.
Proof.
  intros Hi. apply nth_Z_of_lookup; [lia|].
  rewrite lookup_app_r by lia. apply lookup_replicate_2. lia.
Qed.

Lemma nth_Z_insert_eq {A} (l : list A) (j : Z) (v : A) :
  0 <= j < Z.of_nat (length l) -> nth_Z (<[Z.to_nat j := v]> l) j = Some v.
Proof.
  intros Hj. apply nth_Z_of_lookup; [lia|].
  apply list_lookup_insert_eq. lia.
Qed.

Lemma nth_Z_insert_ne {A} (l : list A) (j i : Z) (v : A) :
  0 <= j -> i <> j -> nth_Z (<[Z.to_nat j := v]> l) i = nth_Z l i.
Proof.
  intros Hj Hne. unfold nth_Z. rewrite length_insert.
  destruct (_ && _) eqn:Hb; [|reflexivity].
  apply list_lookup_insert_ne. lia.
Qed.

(** Case analysis on a byte that a [switch] over literals inspects. *)
Ltac switch_cases c :=
  let p := fresh "p" in
  destruct c as [|p|p];
  repeat first [ reflexivity | assumption | destruct p as [p|p|] ].

(** A first run: two letters on the default 80x24 configuration. *)
Example blank_AB :
  let a := final_state (@ansr_write gcc_x86_64 (blank ansr_conf_defaults) [0x41; 0x42]) in
  (cursor_y a, cursor_x a, height (public a), allocated_height (public a),
   code <$> cell_at a 0 0, code <$> cell_at a 0 1, code <$> cell_at a 0 2,
   @written gcc_x86_64 (blank ansr_conf_defaults) [0x41; 0x42])
  = (0, 2, 1, 64, Some 0x41, Some 0x42, Some 0, [(0, 0); (0, 1)]).
Proof. vm_compute. reflexivity. Qed.

Section Properties.
Context `{Platform}.

Lemma char_to_int_small b : b < 128 -> char_to_int b = b.
Proof.
  intros Hb. unfold char_to_int.
  destruct (Z.leb_spec 128 b); [lia|].
  rewrite andb_false_r. reflexivity.
Qed.

(** A write over [pre ++ rest] is the write over [pre] followed, when it
    returned, by the write over [rest]. *)
Lemma ansr_write_app a pre rest :
  ansr_write a (pre ++ rest) =
  match ansr_write a pre with
  | Ret _ a1 => ansr_write a1 rest
  | o => o
  end.
Proof.
  revert a. induction pre as [|c pre IH]; intros a; simpl; [reflexivity|].
  destruct (ansr_write_byte a c); try reflexivity. apply IH.
Qed.

(** [ansr_write] has a single [return], and it returns 0. *)
Lemma ansr_write_returns_zero a input rc a' :
  ansr_write a input = Ret rc a' -> rc = 0.
Proof.
  revert a. induction input as [|c rest IH]; intros a; simpl.
  - intros [= <- _]. reflexivity.
  - destruct (ansr_write_byte a c); try discriminate. apply IH.
Qed.

(** *** End of stream *)

Lemma eof_absorbs a input :
  state a = ANSR_STATE_EOF -> ansr_write a input = Ret 0 a.
Proof.
  intros He. induction input as [|c rest IH]; simpl; [reflexivity|].
  unfold ansr_write_byte. rewrite He. exact IH.
Qed.

(** C4.  Once byte 0x1A has been consumed in the Input state the parser
    is in the EOF state; whatever is fed afterwards, in the same call or
    in later calls, is discarded: the call returns 0 and the renderer
    (grid, logical sizes, cursor, parser state) stays exactly as the
    marker left it, and no byte takes the parser out of the EOF state. *)
Theorem eof_marker_discards_rest a input later c :
  state a = ANSR_STATE_INPUT ->
  let e := set_state ANSR_STATE_EOF a in
  ansr_write a (0x1a :: input) = Ret 0 e
  /\ ansr_write e later = Ret 0 e
  /\ ansr_write_byte e c = Ret 0 e
  /\ state e = ANSR_STATE_EOF
  /\ public e = public a
  /\ cursor_x e = cursor_x a /\ cursor_y e = cursor_y a.
Proof.
  intros Hs e.
  assert (He : state e = ANSR_STATE_EOF) by reflexivity.
  repeat split.
  - simpl. unfold ansr_write_byte. rewrite Hs. simpl.
    apply eof_absorbs. exact He.
  - apply eof_absorbs. exact He.
Qed.

(** *** Select Graphic Rendition *)

(** C5.  SGR over an empty parameter list and SGR over the one-element
    list [0] leave the same Display State whatever it was before: the
    baseline, foreground white on background black with every attribute
    bit cleared. *)
Theorem sgr_empty_and_sgr_zero_reset a :
  n_params a = 0 \/ (n_params a = 1 /\ nth_Z (params a) 0 = Some 0) ->
  _ansr_sgr a =
    Ret 0 (set_disp_state
             {| fg := ANSR_COLOR_WHITE; bg := ANSR_COLOR_BLACK; attrs := 0 |} a)
  /\ forall f, has_attr (disp_state (final_state (_ansr_sgr a))) f = false.
Proof.
  intros Hp.
  assert (Hr : _ansr_sgr a = Ret 0 (set_disp_state sgr_baseline a)).
  { unfold _ansr_sgr. destruct Hp as [H0 | [H1 Hz]].
    - rewrite H0. reflexivity.
    - rewrite H1. simpl. rewrite Hz, char_to_int_small by lia. reflexivity. }
  split; [exact Hr|].
  intros f. rewrite Hr. destruct f; reflexivity.
Qed.

Lemma sgr_no_case_values p :
  sgr_no_case p = true ->
  In p [56; 57; 66; 67; 68; 69; 70; 71; 72; 76; 77; 78; 79; 80; 81; 82; 83;
        84; 85; 86; 87; 88; 89].
Proof.
  unfold sgr_no_case, in_range. intros Hp.
  assert (Hc : p = 56 \/ p = 57 \/ 66 <= p <= 72 \/ 76 <= p <= 89) by lia.
  simpl.
  assert (p = 56 \/ p = 57 \/ p = 66 \/ p = 67 \/ p = 68 \/ p = 69 \/ p = 70
          \/ p = 71 \/ p = 72 \/ p = 76 \/ p = 77 \/ p = 78 \/ p = 79
          \/ p = 80 \/ p = 81 \/ p = 82 \/ p = 83 \/ p = 84 \/ p = 85
          \/ p = 86 \/ p = 87 \/ p = 88 \/ p = 89) as Hv by lia.
  repeat (destruct Hv as [Hv | Hv]; [left; symmetry; exact Hv | right]).
  left. symmetry. exact Hv.
Qed.

Lemma sgr_case_no_case p a : sgr_no_case p = true -> sgr_case p a = Ret 0 a.
Proof.
  intros Hp. apply sgr_no_case_values in Hp. simpl in Hp.
  repeat (destruct Hp as [<- | Hp]; [reflexivity|]).
  destruct Hp.
Qed.

(** C10.  A parameter value in {56, 57, 66..72, 76..89} meets no [case]
    of the [switch] in [_ansr_sgr] and there is no [default]: the
    iteration for it changes nothing (Display State included), raises
    nothing, and the loop goes on with the next parameter. *)
Theorem sgr_unassigned_value_ignored p a n i :
  sgr_no_case p = true ->
  nth_Z (params a) i = Some p ->
  sgr_case p a = Ret 0 a
  /\ sgr_loop (S n) i a = sgr_loop n (i + 1) a
  /\ (n_params a = 1 -> i = 0 -> _ansr_sgr a = Ret 0 a).
Proof.
  intros Hp Hi.
  assert (Hc : sgr_case (char_to_int p) a = Ret 0 a).
  { rewrite char_to_int_small; [apply sgr_case_no_case; exact Hp|].
    unfold sgr_no_case, in_range in Hp. lia. }
  split; [apply sgr_case_no_case; exact Hp|].
  split.
  - simpl. rewrite Hi, Hc. reflexivity.
  - intros Hn ->. unfold _ansr_sgr. rewrite Hn. simpl.
    rewrite Hi, Hc. reflexivity.
Qed.

(** *** Finalising the accumulator *)

Lemma MAX_spec a b : MAX a b = Z.max a b.
Proof. unfold MAX. destruct (Z.gtb_spec a b); lia. Qed.

Lemma params_append_spec a p :
  params_wf a ->
  n_params a < n_params_allocated a \/ alloc_ok (allocs a) = true ->
  exists a1,
    _ansr_params_append a p = Ret 0 a1
    /\ n_params a1 = n_params a + 1
    /\ pending a1 = pending a ++ [p]
    /\ n_params a1 <= n_params_allocated a1
    /\ n_params_allocated a1 = Z.of_nat (length (params a1))
    /\ only_params_changed a a1.
Proof.
  intros (Hn & Hlen & Hbig) Hroom.
  unfold _ansr_params_append.
  rewrite (u64_small (n_params a + 1)) by lia.
  destruct (Z.gtb_spec (n_params a + 1) (n_params_allocated a)) as [Hfull | Hfree].
  - destruct Hroom as [Hlt | Hok]; [lia|].
    unfold request. rewrite Hok.
    rewrite (u64_small (n_params_allocated a * 2)) by lia.
    rewrite MAX_spec. unfold ANSR_MIN_ALLOC_PARAMS.
    set (newsize := Z.max 2 (n_params_allocated a * 2)).
    cbn [n_params params set_params set_n_params_allocated set_allocs set_n_params].
    rewrite length_resize.
    destruct (Z.leb_spec 0 (n_params a)); [|lia].
    destruct (Z.ltb_spec (n_params a) (Z.of_nat (Z.to_nat newsize))); [|lia].
    cbn [andb]. eexists. split; [reflexivity|].
    unfold pending, only_params_changed. cbn.
    rewrite length_insert, length_resize.
    rewrite !(u64_small (n_params a + 1)) by lia.
    repeat split; try lia.
    replace (Z.to_nat (n_params a + 1)) with (S (Z.to_nat (n_params a))) by lia.
    erewrite take_S_r.
    2:{ apply list_lookup_insert_eq. rewrite length_resize. lia. }
    rewrite take_insert_ge by lia.
    rewrite take_resize_le by lia.
    rewrite resize_le by lia. reflexivity.
  - destruct (Z.leb_spec 0 (n_params a)); [|lia].
    destruct (Z.ltb_spec (n_params a) (Z.of_nat (length (params a)))); [|lia].
    cbn [andb]. eexists. split; [reflexivity|].
    unfold pending, only_params_changed. cbn.
    rewrite length_insert.
    rewrite !(u64_small (n_params a + 1)) by lia.
    repeat split; try lia.
    replace (Z.to_nat (n_params a + 1)) with (S (Z.to_nat (n_params a))) by lia.
    erewrite take_S_r.
    2:{ apply list_lookup_insert_eq. lia. }
    rewrite take_insert_ge by lia. reflexivity.
Qed.

Lemma nth_Z_pending a i :
  0 <= i < n_params a -> n_params a <= Z.of_nat (length (params a)) ->
  nth_Z (params a) i = pending a !! Z.to_nat i.
Proof.
  intros Hi Hn. rewrite nth_Z_lookup by lia.
  unfold pending. rewrite lookup_take_lt by lia. reflexivity.
Qed.

Lemma finalise_spec a :
  params_wf a ->
  accumulator a <= 255 ->
  n_params a < n_params_allocated a \/ alloc_ok (allocs a) = true ->
  exists a1,
    _ansr_params_append_accumulator a = Ret 0 a1
    /\ n_params a1 = Z.of_nat (length (finalized a))
    /\ pending a1 = finalized a
    /\ n_params a1 <= Z.of_nat (length (params a1))
    /\ accumulator a1 = 0
    /\ public a1 = public a /\ state a1 = state a
    /\ disp_state a1 = disp_state a
    /\ cursor_x a1 = cursor_x a /\ cursor_y a1 = cursor_y a
    /\ conf a1 = conf a.
Proof.
  intros Hwf Hacc Hroom.
  destruct (params_append_spec a (to_char (accumulator a)) Hwf Hroom)
    as (a1 & Happ & Hn & Hpend & Hle & Hlen & Hpub & Hst & Hd & Hx & Hy & _ & Hc).
  unfold _ansr_params_append_accumulator.
  destruct (Z.gtb_spec (accumulator a) 255); [lia|].
  rewrite Happ. eexists. split; [reflexivity|].
  unfold finalized. rewrite length_app. cbn.
  unfold pending in *. cbn. rewrite length_take.
  destruct Hwf as (Hwf1 & Hwf2 & _).
  repeat split; try assumption; try lia.
Qed.

Lemma param_pending a i :
  0 <= i < n_params a -> n_params a <= Z.of_nat (length (params a)) ->
  param a i = char_to_int <$> pending a !! Z.to_nat i.
Proof. intros Hi Hn. unfold param. rewrite nth_Z_pending by lia. reflexivity. Qed.

Lemma cup_sets_cursor a p0 rest :
  state a = ANSR_STATE_CSI ->
  params_wf a ->
  accumulator a <= 255 ->
  n_params a < n_params_allocated a \/ alloc_ok (allocs a) = true ->
  finalized a = p0 :: rest ->
  exists a',
    ansr_write_byte a 0x48 = Ret 0 a'
    /\ state a' = ANSR_STATE_INPUT
    /\ cursor_y a' = u32 (char_to_int p0 - 1)
    /\ cursor_x a' = match rest with
                     | [p1] => u32 (char_to_int p1 - 1)
                     | _ => 0
                     end
    /\ public a' = public a /\ disp_state a' = disp_state a.
Proof.
  intros Hs Hwf Hacc Hroom Hfin.
  destruct (finalise_spec a Hwf Hacc Hroom)
    as (a1 & Happ & Hn & Hpend & Hle & _ & Hpub & _ & Hd & _ & _ & _).
  unfold ansr_write_byte, csi_byte. rewrite Hs.
  change (csi_param_byte a 0x48)
    with (assert_zero (_ansr_params_append_accumulator a)).
  rewrite Happ. cbn [assert_zero Z.eqb].
  rewrite Hfin in Hn, Hpend. cbn [length] in Hn.
  unfold csi_final_byte.
  destruct (Z.geb_spec (n_params a1) 1) as [_|]; [|lia].
  rewrite (param_pending a1 0) by lia. rewrite Hpend. cbn [lookup list_lookup Z.to_nat fmap option_fmap option_map].
  destruct (Z.eqb_spec (n_params a1) 2) as [H2 | H2].
  - rewrite (param_pending a1 1) by lia. rewrite Hpend.
    destruct rest as [|p1 [|p2 rest]]; cbn [length] in Hn; try lia.
    eexists. split; [reflexivity|]. cbn. auto.
  - eexists. split; [reflexivity|]. cbn.
    repeat split; try assumption.
    destruct rest as [|p1 [|p2 rest]]; cbn [length] in Hn; try reflexivity. lia.
Qed.

Lemma cha_sets_column a p0 rest :
  state a = ANSR_STATE_CSI ->
  params_wf a ->
  accumulator a <= 255 ->
  n_params a < n_params_allocated a \/ alloc_ok (allocs a) = true ->
  finalized a = p0 :: rest ->
  exists a',
    ansr_write_byte a 0x47 = Ret 0 a'
    /\ state a' = ANSR_STATE_INPUT
    /\ cursor_x a' = u32 (char_to_int p0 - 1)
    /\ cursor_y a' = cursor_y a
    /\ public a' = public a /\ disp_state a' = disp_state a.
Proof.
  intros Hs Hwf Hacc Hroom Hfin.
  destruct (finalise_spec a Hwf Hacc Hroom)
    as (a1 & Happ & Hn & Hpend & Hle & _ & Hpub & _ & Hd & _ & Hy & _).
  unfold ansr_write_byte, csi_byte. rewrite Hs.
  change (csi_param_byte a 0x47)
    with (assert_zero (_ansr_params_append_accumulator a)).
  rewrite Happ. cbn [assert_zero Z.eqb].
  rewrite Hfin in Hn, Hpend. cbn [length] in Hn.
  unfold csi_final_byte.
  destruct (Z.eqb_spec (n_params a1) 0) as [|_]; [lia|].
  rewrite (param_pending a1 0) by lia. rewrite Hpend. cbn [lookup list_lookup Z.to_nat fmap option_fmap option_map].
  eexists. split; [reflexivity|]. cbn. auto.
Qed.
(** C9.  When the first finalised parameter is 0, Cursor Position sets
    the cursor row to the unsigned wrap-around of 0 - 1, 2^32 - 1, and
    Cursor Horizontal Absolute does the same to the column; neither is
    clamped to 0. *)
Theorem cup_cha_parameter_zero_wraps a rest :
  state a = ANSR_STATE_CSI ->
  params_wf a ->
  accumulator a <= 255 ->
  n_params a < n_params_allocated a \/ alloc_ok (allocs a) = true ->
  finalized a = 0 :: rest ->
  (exists a', ansr_write_byte a 0x48 = Ret 0 a'
              /\ cursor_y a' = 2 ^ 32 - 1 /\ state a' = ANSR_STATE_INPUT)
  /\ (exists a', ansr_write_byte a 0x47 = Ret 0 a'
               /\ cursor_x a' = 2 ^ 32 - 1 /\ state a' = ANSR_STATE_INPUT).
Proof.
  intros Hs Hwf Hacc Hroom Hfin.
  assert (Hw : u32 (char_to_int 0 - 1) = 2 ^ 32 - 1).
  { rewrite char_to_int_small by lia. reflexivity. }
  split.
  - destruct (cup_sets_cursor a 0 rest Hs Hwf Hacc Hroom Hfin)
      as (a' & Hr & Hst & Hy & _).
    exists a'. rewrite Hy, Hw. auto.
  - destruct (cha_sets_column a 0 rest Hs Hwf Hacc Hroom Hfin)
      as (a' & Hr & Hst & Hx & _).
    exists a'. rewrite Hx, Hw. auto.
Qed.

(** *** Parameter overflow *)

Lemma csi_param_byte_finaliser a b :
  finaliser b = true ->
  csi_param_byte a b = assert_zero (_ansr_params_append_accumulator a).
Proof.
  unfold finaliser, csi_param_byte, in_range. intros Hb.
  destruct (Z.eqb_spec b 0x3b) as [Heq | Hne].
  { rewrite Heq. reflexivity. }
  cbn [orb] in Hb.
  destruct (Z.leb_spec 0x40 b); [|discriminate Hb].
  destruct (Z.leb_spec b 0x7e); [|discriminate Hb].
  destruct (Z.eqb_spec b 0x3a); [lia|].
  repeat match goal with
         | |- context [(?x <=? ?y)] => destruct (Z.leb_spec x y)
         end; cbn [andb orb]; try reflexivity; lia.
Qed.

(** C1.  The overflow is detected, and asserted instead of reported.
    When a ';' or a final byte arrives in the CSI state while the
    accumulator is above 255, [_ansr_params_append_accumulator] answers
    -EOVERFLOW without touching the renderer; the call sits inside
    [assert(!...)], so the write stops at that assertion, with the
    renderer as it was just before the byte, and does not return.  No
    input makes [ansr_write] return anything but 0, against its comment
    "returns negative value on error". *)
Theorem params_overflow_is_asserted_not_returned a pre b post a1 :
  ansr_write a pre = Ret 0 a1 ->
  state a1 = ANSR_STATE_CSI ->
  accumulator a1 > 255 ->
  finaliser b = true ->
  _ansr_params_append_accumulator a1 = Ret (- EOVERFLOW) a1
  /\ - EOVERFLOW < 0
  /\ ansr_write a (pre ++ b :: post) = Abort a1
  /\ forall input, match ansr_write a input with
                   | Ret rc _ => rc = 0
                   | _ => True
                   end.
Proof.
  intros Hpre Hs Hacc Hb.
  assert (Ho : _ansr_params_append_accumulator a1 = Ret (- EOVERFLOW) a1).
  { unfold _ansr_params_append_accumulator.
    destruct (Z.gtb_spec (accumulator a1) 255); [reflexivity | lia]. }
  split; [exact Ho|]. split; [reflexivity|]. split.
  - rewrite ansr_write_app, Hpre. cbn [ansr_write].
    unfold ansr_write_byte, csi_byte. rewrite Hs.
    rewrite csi_param_byte_finaliser by exact Hb.
    rewrite Ho. reflexivity.
  - intros input.
    destruct (ansr_write a input) as [rc a'| |] eqn:Hw; [|exact I..].
    exact (ansr_write_returns_zero a input rc a' Hw).
Qed.

(** *** The grid under a write *)

Lemma cell_at_public a a' r k :
  public a' = public a -> cell_at a' r k = cell_at a r k.
Proof. intros Hp. unfold cell_at, row_at. rewrite Hp. reflexivity. Qed.

Lemma soft_wrap_public a : public (soft_wrap a) = public a.
Proof. unfold soft_wrap. destruct (_ && _); reflexivity. Qed.

Lemma expand_rows_frame a r k v :
  cell_at (final_state (expand_rows a)) r k = Some v -> cell_at a r k = Some v.
Proof.
  unfold expand_rows, request.
  destruct (cursor_y a >=? _); [|auto].
  destruct (alloc_ok _); [|auto].
  destruct (_ <? _); [auto|].
  unfold cell_at, row_at. cbn.
  destruct (nth_Z (take _ _ ++ _) r) as [[row|]|] eqn:Hr; try discriminate.
  apply nth_Z_realloc in Hr as [Hr | Hr]; [discriminate|].
  rewrite Hr. auto.
Qed.

Lemma expand_rows_cursor a :
  cursor_x (final_state (expand_rows a)) = cursor_x a
  /\ cursor_y (final_state (expand_rows a)) = cursor_y a.
Proof.
  unfold expand_rows, request.
  destruct (cursor_y a >=? _); [|auto].
  destruct (alloc_ok _); [|auto].
  destruct (_ <? _); auto.
Qed.

Lemma bump_height_rows a : rows (public (bump_height a)) = rows (public a).
Proof. unfold bump_height. destruct (_ >=? _); reflexivity. Qed.

Lemma bump_height_cursor a :
  cursor_x (bump_height a) = cursor_x a /\ cursor_y (bump_height a) = cursor_y a.
Proof. unfold bump_height. destruct (_ >=? _); auto. Qed.

Lemma expand_cols_frame a r k v :
  cell_at (final_state (expand_cols a)) r k = Some v ->
  v = zero_char \/ cell_at a r k = Some v.
Proof.
  unfold expand_cols, request.
  destruct (nth_Z (rows (public a)) (cursor_y a)) as [ro|] eqn:Hy; [|auto].
  apply nth_Z_Some in Hy as [Hy Hro].
  destruct (match ro with Some row => _ | None => true end); [|auto].
  destruct (alloc_ok _); [|auto].
  unfold cell_at, row_at. cbn.
  match goal with
  | |- context [nth_Z (<[?i := ?x]> ?l) r] =>
      destruct (nth_Z (<[i := x]> l) r) as [[row|]|] eqn:Hr; try discriminate
  end.
  apply nth_Z_insert in Hr; [|lia]. destruct Hr as [[-> [= ->]] | Hr].
  - cbn. intros Hv. apply nth_Z_realloc in Hv as [-> | Hv]; [auto|].
    right. rewrite (nth_Z_of_lookup _ _ _ (proj1 Hy) Hro).
    destruct ro as [row|]; [exact Hv|].
    unfold nth_Z in Hv. cbn in Hv.
    destruct (_ && _); [|discriminate]. discriminate.
  - rewrite Hr. auto.
Qed.

Lemma expand_cols_cursor a :
  cursor_x (final_state (expand_cols a)) = cursor_x a
  /\ cursor_y (final_state (expand_cols a)) = cursor_y a.
Proof.
  unfold expand_cols, request.
  destruct (nth_Z _ _); [|auto].
  destruct (match o with Some row => _ | None => true end); [|auto].
  destruct (alloc_ok _); auto.
Qed.

Lemma store_char_frame a c r k v :
  cell_at (final_state (store_char a c)) r k = Some v ->
  cell_at a r k = Some v
  \/ ((exists a', store_char a c = Ret 0 a') /\ r = cursor_y a /\ k = cursor_x a).
Proof.
  unfold store_char.
  destruct (nth_Z (rows (public a)) (cursor_y a)) as [[row|]|] eqn:Hy; auto.
  destruct ((0 <=? cursor_x a) && _) eqn:Hx; [|auto].
  apply nth_Z_Some in Hy as [Hy Hro].
  unfold cell_at, row_at. cbn.
  match goal with
  | |- context [nth_Z (<[?i := ?x]> ?l) r] =>
      destruct (nth_Z (<[i := x]> l) r) as [[row'|]|] eqn:Hr; try discriminate
  end.
  apply nth_Z_insert in Hr; [|lia]. destruct Hr as [[-> [= ->]] | Hr].
  - cbn. intros Hv. apply nth_Z_insert in Hv; [|lia]. destruct Hv as [[-> _] | Hv].
    + right. split; [eexists; reflexivity | auto].
    + left. rewrite (nth_Z_of_lookup _ _ _ (proj1 Hy) Hro). exact Hv.
  - rewrite Hr. auto.
Qed.

Lemma add_char_frame a c r k v :
  cell_at (final_state (_ansr_add_char a c)) r k = Some v ->
  v = zero_char
  \/ cell_at a r k = Some v
  \/ ((exists a', _ansr_add_char a c = Ret 0 a')
      /\ r = cursor_y (soft_wrap a) /\ k = cursor_x (soft_wrap a)).
Proof.
  unfold _ansr_add_char.
  pose proof (expand_rows_frame (soft_wrap a) r k v) as Hrows.
  pose proof (expand_rows_cursor (soft_wrap a)) as [Hx1 Hy1].
  rewrite (cell_at_public _ _ _ _ (soft_wrap_public a)) in Hrows.
  destruct (expand_rows (soft_wrap a)) as [rc a1| |]; cbn in *; auto.
  destruct (Z.eqb_spec rc 0) as [-> | Hrc].
  2:{ destruct rc; try lia; cbn; auto. }
  pose proof (expand_cols_frame (bump_height a1) r k v) as Hcols.
  pose proof (expand_cols_cursor (bump_height a1)) as [Hx2 Hy2].
  pose proof (bump_height_cursor a1) as [Hx3 Hy3].
  assert (Hb : cell_at (bump_height a1) r k = cell_at a1 r k).
  { unfold cell_at, row_at. rewrite bump_height_rows. reflexivity. }
  rewrite Hb in Hcols.
  destruct (expand_cols (bump_height a1)) as [rc a2| |]; cbn in *.
  2,3: intros Hv; destruct (Hcols Hv); auto.
  destruct (Z.eqb_spec rc 0) as [-> | Hrc].
  2:{ destruct rc; try lia; cbn; intros Hv; destruct (Hcols Hv); auto. }
  intros Hv. apply store_char_frame in Hv as [Hv | (Hr & -> & ->)].
  - destruct (Hcols Hv); auto.
  - right. right. split; [exact Hr|]. split; congruence.
Qed.


Lemma input_byte_text a c :
  is_text c = true ->
  input_byte a c =
  match _ansr_add_char a c with
  | Ret _ a' => Ret 0 a'
  | o => o
  end.
Proof.
  intros Hc. unfold input_byte.
  destruct c as [|p|p]; try reflexivity.
  repeat first
    [ reflexivity
    | exfalso; clear -Hc; vm_compute in Hc; discriminate Hc
    | destruct p as [p|p|] ].
Qed.

Lemma input_byte_control a c :
  is_text c = false -> public (final_state (input_byte a c)) = public a.
Proof.
  unfold is_text. intros Hc.
  assert (Hv : c = 0x7 \/ c = 0x8 \/ c = 0x9 \/ c = 0x0a \/ c = 0x0c
               \/ c = 0x0d \/ c = 0x1a \/ c = 0x1b \/ c = 0x7f) by lia.
  repeat (destruct Hv as [-> | Hv]; [try reflexivity|]); subst; try reflexivity.
  cbn. destruct (_ >? _); reflexivity.
Qed.

Lemma escape_byte_public a c : public (final_state (escape_byte a c)) = public a.
Proof. unfold escape_byte. switch_cases c. Qed.

Lemma params_append_public a p :
  public (final_state (_ansr_params_append a p)) = public a.
Proof.
  unfold _ansr_params_append, request.
  destruct (_ >? _); [destruct (alloc_ok _)|]; cbn;
    try destruct (_ && _); reflexivity.
Qed.

Lemma params_append_accumulator_public a :
  public (final_state (_ansr_params_append_accumulator a)) = public a.
Proof.
  unfold _ansr_params_append_accumulator.
  destruct (_ >? _); [reflexivity|].
  pose proof (params_append_public a (to_char (accumulator a))) as Hp.
  destruct (_ansr_params_append a _) as [rc a1| |]; cbn in *; try exact Hp.
  destruct rc; exact Hp.
Qed.

Lemma assert_zero_state o : final_state (assert_zero o) = final_state o.
Proof. destruct o as [rc a| |]; cbn; try reflexivity. destruct (rc =? 0); reflexivity. Qed.

Lemma sgr_case_public p a : public (final_state (sgr_case p a)) = public a.
Proof.
  unfold sgr_case.
  repeat (destruct (in_range _ _ p); [reflexivity|]).
  switch_cases p.
Qed.

Lemma sgr_loop_public n : forall i a,
  public (final_state (sgr_loop n i a)) = public a.
Proof.
  induction n as [|n IH]; intros i a; cbn; [reflexivity|].
  destruct (nth_Z (params a) i) as [b|]; [|reflexivity].
  pose proof (sgr_case_public (char_to_int b) a) as Hc.
  destruct (sgr_case (char_to_int b) a) as [rc a1| |]; cbn in *; try exact Hc.
  rewrite IH. exact Hc.
Qed.

Lemma sgr_public a : public (final_state (_ansr_sgr a)) = public a.
Proof.
  unfold _ansr_sgr. destruct (_ =? _); [reflexivity|]. apply sgr_loop_public.
Qed.

Lemma csi_param_byte_public a c :
  public (final_state (csi_param_byte a c)) = public a.
Proof.
  unfold csi_param_byte.
  repeat match goal with
         | |- context [if ?b then _ else _] => destruct b
         end;
    rewrite ?assert_zero_state;
    first [reflexivity | apply params_append_accumulator_public].
Qed.

Lemma csi_final_byte_public a c :
  public (final_state (csi_final_byte a c)) = public a.
Proof.
  pose proof (sgr_public a) as Hsgr.
  unfold csi_final_byte.
  destruct c as [|p|p]; try reflexivity;
  repeat first
    [ reflexivity
    | match goal with
      | |- context [if ?b then _ else _] => destruct b
      | |- context [param ?a ?i] => destruct (param a i)
      | |- context [match _ansr_sgr a with _ => _ end] =>
          destruct (_ansr_sgr a); cbn in Hsgr |- *; exact Hsgr
      end
    | destruct p as [p|p|] ].
Qed.

Lemma csi_byte_public a c : public (final_state (csi_byte a c)) = public a.
Proof.
  unfold csi_byte.
  pose proof (csi_param_byte_public a c) as Hp.
  destruct (csi_param_byte a c) as [rc a1| |]; cbn in *; try exact Hp.
  rewrite csi_final_byte_public. exact Hp.
Qed.

(** One byte: every cell afterwards was there before, is blank, or is the
    cell the byte was stored into. *)
Lemma write_byte_frame a c r k v :
  cell_at (final_state (ansr_write_byte a c)) r k = Some v ->
  cell_at a r k = Some v \/ v = zero_char \/ In (r, k) (stored_by a c).
Proof.
  unfold ansr_write_byte, stored_by.
  destruct (state a).
  - destruct (is_text c) eqn:Hc.
    + rewrite input_byte_text by exact Hc.
      pose proof (add_char_frame a c r k v) as Hf.
      destruct (_ansr_add_char a c) as [rc a1| |]; cbn in *;
        intros Hv; destruct (Hf Hv) as [-> | [Hold | ([a' Ha'] & -> & ->)]];
        auto; try discriminate.
      injection Ha' as -> _. right. right. left. reflexivity.
    + rewrite (cell_at_public _ _ _ _ (input_byte_control a c Hc)). auto.
  - cbn. auto.
  - rewrite (cell_at_public _ _ _ _ (escape_byte_public a c)). auto.
  - rewrite (cell_at_public _ _ _ _ (csi_byte_public a c)). auto.
Qed.

Lemma write_frame input : forall a r k v,
  cell_at (final_state (ansr_write a input)) r k = Some v ->
  cell_at a r k = Some v \/ v = zero_char \/ In (r, k) (written a input).
Proof.
  induction input as [|c rest IH]; intros a r k v; cbn; [auto|].
  pose proof (write_byte_frame a c r k v) as Hb.
  destruct (ansr_write_byte a c) as [rc a1| |]; cbn in *.
  - intros Hv. destruct (IH _ _ _ _ Hv) as [Hv1 | [-> | Hin]]; auto.
    + destruct (Hb Hv1) as [? | [? | ?]]; auto.
      right. right. apply in_or_app. auto.
    + right. right. apply in_or_app. auto.
  - intros Hv. destruct (Hb Hv) as [? | [? | ?]]; auto.
    right. right. apply in_or_app. auto.
  - intros Hv. destruct (Hb Hv) as [? | [? | ?]]; auto.
    right. right. apply in_or_app. auto.
Qed.

(** C8, as the code has it.  A cell of the grid that no byte of the input
    was stored into holds what memset(0) left there: the character code 0
    and the all-zero Display State, whose foreground is
    [ANSR_COLOR_BLACK] (enumerator 0), background black, no attribute.
    This is not the SGR baseline, whose foreground is white. *)
Theorem unwritten_cells_are_zero conf0 input r k v :
  cell_at (final_state (ansr_write (blank conf0) input)) r k = Some v ->
  ~ In (r, k) (written (blank conf0) input) ->
  v = zero_char
  /\ code v = 0
  /\ ch_disp_state v =
       {| fg := ANSR_COLOR_BLACK; bg := ANSR_COLOR_BLACK; attrs := 0 |}.
Proof.
  intros Hv Hw.
  assert (Hz : v = zero_char).
  { destruct (write_frame _ _ _ _ _ Hv) as [Hb | [Hz | Hin]].
    - unfold cell_at, row_at, nth_Z in Hb. cbn in Hb.
      destruct (_ && _); discriminate.
    - exact Hz.
    - contradiction. }
  rewrite Hz. repeat split; reflexivity.
Qed.

(** *** Plain text on a new renderer *)

Lemma expand_rows_ok a :
  alloc_ok (allocs a) = true ->
  allocated_height (public a) = Z.of_nat (length (rows (public a))) ->
  0 <= cursor_y a <= allocated_height (public a) ->
  cursor_y a < 2 ^ 31 ->
  exists a1,
    expand_rows a = Ret 0 a1
    /\ same_control a a1
    /\ height (public a1) = height (public a)
    /\ allocated_height (public a1) = Z.of_nat (length (rows (public a1)))
    /\ cursor_y a < allocated_height (public a1)
    /\ (forall r, r < allocated_height (public a) ->
          nth_Z (rows (public a1)) r = nth_Z (rows (public a)) r)
    /\ (forall r, allocated_height (public a) <= r < allocated_height (public a1) ->
          nth_Z (rows (public a1)) r = Some None).
Proof.
  intros Hok Hlen Hy Hbig. unfold expand_rows, request. rewrite Hok.
  destruct (Z.geb_spec (cursor_y a) (allocated_height (public a))) as [Hge | Hlt].
  - assert (Hah : allocated_height (public a) = cursor_y a) by lia.
    rewrite MAX_spec. unfold ANSR_MIN_ALLOC_ROWS.
    rewrite (u32_small (allocated_height (public a) * 2)) by lia.
    set (nh := Z.max 64 (allocated_height (public a) * 2)).
    destruct (Z.ltb_spec nh (allocated_height (public a))); [lia|].
    eexists. split; [reflexivity|]. unfold same_control. cbn.
    rewrite take_ge by lia.
    rewrite length_app, length_replicate.
    repeat split; try lia.
    + intros r Hr. apply nth_Z_app_l. lia.
    + intros r Hr. apply nth_Z_app_replicate. lia.
  - exists a. unfold same_control. repeat split; lia.
Qed.

Lemma expand_cols_ok a ro :
  alloc_ok (allocs a) = true ->
  nth_Z (rows (public a)) (cursor_y a) = Some ro ->
  0 <= cursor_x a < 2 ^ 31 ->
  (forall row, ro = Some row ->
     allocated_width row = Z.of_nat (length (cols row))
     /\ cursor_x a <= allocated_width row) ->
  (ro = None -> cursor_x a < ANSR_MIN_ALLOC_COLS) ->
  exists a2 row',
    expand_cols a = Ret 0 a2
    /\ same_control a a2
    /\ height (public a2) = height (public a)
    /\ allocated_height (public a2) = allocated_height (public a)
    /\ rows (public a2) = <[Z.to_nat (cursor_y a) := Some row']> (rows (public a))
    /\ width row' = match ro with Some row => width row | None => 0 end
    /\ allocated_width row' = Z.of_nat (length (cols row'))
    /\ cursor_x a < allocated_width row'
    /\ (forall row j, ro = Some row -> j < allocated_width row ->
          nth_Z (cols row') j = nth_Z (cols row) j).
Proof.
  intros Hok Hro Hx Hrow Hnew. unfold expand_cols, request. rewrite Hro, Hok.
  apply nth_Z_Some in Hro as [Hy Hlk].
  destruct ro as [row|].
  - destruct (Hrow row eq_refl) as [Haw Hle].
    destruct (Z.geb_spec (cursor_x a) (allocated_width row)) as [Hge | Hlt].
    + rewrite MAX_spec. unfold ANSR_MIN_ALLOC_COLS.
      rewrite (u64_small (allocated_width row * 2)) by lia.
      set (nw := Z.max (allocated_width row * 2) 80).
      rewrite (u32_small nw) by lia.
      eexists. eexists. split; [reflexivity|]. unfold same_control. cbn.
      rewrite take_ge by lia.
      repeat split; cbn; rewrite ?length_app, ?length_replicate; try lia.
      intros row0 j [= <-] Hj. apply nth_Z_app_l. lia.
    + exists a, row. unfold same_control.
      rewrite list_insert_id by exact Hlk.
      repeat split; try lia. intros row0 j [= <-] _. reflexivity.
  - rewrite MAX_spec. unfold ANSR_MIN_ALLOC_COLS.
    eexists. eexists. split; [reflexivity|]. unfold same_control. cbn.
    change (u64 (0 * 2) `max` 80) with 80. change (u32 80) with 80.
    specialize (Hnew eq_refl). unfold ANSR_MIN_ALLOC_COLS in Hnew.
    repeat split; cbn; rewrite ?length_replicate; try lia. intros row0 j [=].
Qed.

Lemma store_char_ok a row c :
  nth_Z (rows (public a)) (cursor_y a) = Some (Some row) ->
  0 <= cursor_x a < Z.of_nat (length (cols row)) ->
  cursor_x a + 1 < 2 ^ 32 ->
  store_char a c =
  Ret 0 (set_cursor_x (cursor_x a + 1)
           (set_public
              (set_rows
                 (<[Z.to_nat (cursor_y a) :=
                      Some {| width := Z.max (width row) (cursor_x a + 1);
                              allocated_width := allocated_width row;
                              cols := <[Z.to_nat (cursor_x a) :=
                                          {| code := c;
                                             ch_disp_state := disp_state a |}]>
                                        (cols row) |}]>
                    (rows (public a)))
                 (public a)) a)).
Proof.
  intros Hro Hx Hbig. unfold store_char. rewrite Hro.
  destruct (Z.leb_spec 0 (cursor_x a)); [|lia].
  destruct (Z.ltb_spec (cursor_x a) (Z.of_nat (length (cols row)))); [|lia].
  cbn [andb]. rewrite (u32_small (cursor_x a + 1)) by lia.
  destruct (Z.ltb_spec (width row) (cursor_x a + 1)).
  - rewrite Z.max_r by lia. reflexivity.
  - rewrite Z.max_l by lia. reflexivity.
Qed.

Lemma bump_height_facts a :
  cursor_y a < 2 ^ 31 -> 0 <= cursor_y a ->
  rows (public (bump_height a)) = rows (public a)
  /\ allocated_height (public (bump_height a)) = allocated_height (public a)
  /\ same_control a (bump_height a)
  /\ allocs (bump_height a) = allocs a
  /\ height (public (bump_height a)) = Z.max (height (public a)) (cursor_y a + 1).
Proof.
  intros Hbig Hy. unfold bump_height, same_control.
  destruct (Z.geb_spec (cursor_y a) (height (public a))); cbn.
  - rewrite u32_small by lia. repeat split; lia.
  - repeat split; lia.
Qed.

Lemma soft_wrap_text W d pre a :
  0 < W ->
  Z.of_nat (length pre) + 1 < 2 ^ 31 ->
  text_filled W d pre a ->
  public (soft_wrap a) = public a
  /\ same_control_but_cursor a (soft_wrap a)
  /\ 0 <= cursor_y (soft_wrap a)
  /\ 0 <= cursor_x (soft_wrap a) < W
  /\ cursor_y (soft_wrap a) * W + cursor_x (soft_wrap a) = Z.of_nat (length pre)
  /\ cursor_y (soft_wrap a) <= allocated_height (public a)
  /\ Z.max (height (public a)) (cursor_y (soft_wrap a) + 1)
      = cursor_y (soft_wrap a) + 1.
Proof.
  intros HW Hbig (Hst & Hd & Hsw & Hy0 & Hx0 & Hk & Hxpos & Hah & Hyle & Hylt & Hh & _).
  unfold soft_wrap, same_control_but_cursor. rewrite Hsw.
  destruct (Z.eqb_spec W 0); [lia|]. cbn [negb andb].
  destruct (Z.eqb_spec (Z.of_nat (length pre)) 0) as [Hz | Hz];
    destruct (Z.eqb_spec (cursor_x a) W) as [Hxw | Hxw]; cbn;
    rewrite ?u32_small by nia; repeat split; try lia; try nia.
Qed.

Lemma add_char_text W d pre a c :
  0 < W ->
  (forall n, alloc_ok n = true) ->
  Z.of_nat (length pre) + 1 < 2 ^ 31 ->
  text_filled W d pre a ->
  exists a',
    _ansr_add_char a c = Ret 0 a'
    /\ text_filled W d (pre ++ [c]) a'
    /\ 0 <= cursor_x (soft_wrap a) < W
    /\ cursor_y (soft_wrap a) * W + cursor_x (soft_wrap a)
       = Z.of_nat (length pre).
Proof.
  intros HW Halloc Hbig Hf.
  destruct (soft_wrap_text W d pre a HW Hbig Hf)
    as (Hp0 & (Hst0 & Hd0 & Hc0 & _) & Hy0 & Hx0 & Hk0 & Hyle0 & Hh0).
  destruct Hf as (Hst & Hd & Hsw & _ & _ & _ & _ & Hah & _ & _ & _ & Hrows & Hnone).
  remember (Z.of_nat (length pre)) as k eqn:Hkdef.
  unfold _ansr_add_char.
  remember (soft_wrap a) as a0 eqn:Ha0.
  remember (cursor_y a0) as y eqn:Hydef. remember (cursor_x a0) as x eqn:Hxdef.
  assert (Hyk : y <= k) by nia.
  (* the row array *)
  destruct (expand_rows_ok a0) as (a1 & -> & Hctl1 & Hh1 & Hah1 & Hy1 & Hold1 & Hnew1);
    [apply Halloc | rewrite Hp0; exact Hah | rewrite Hp0; lia | lia |].
  rewrite Hp0 in Hh1, Hold1, Hnew1. rewrite <- Hydef in Hy1.
  destruct Hctl1 as (Hst1 & Hd1 & Hx1 & Hyy1 & Hc1).
  destruct (bump_height_facts a1) as (Hr1' & Hah1' & Hctl1' & _ & Hh1');
    [rewrite Hyy1; lia | rewrite Hyy1; lia |].
  destruct Hctl1' as (Hst1' & Hd1' & Hx1' & Hyy1' & Hc1').
  remember (bump_height a1) as b eqn:Hb.
  assert (Hyb : cursor_y b = y) by congruence.
  assert (Hxb : cursor_x b = x) by congruence.
  (* the row under the cursor *)
  assert (Hro : (0 < x /\ exists row, nth_Z (rows (public b)) y = Some (Some row)
                                      /\ row_filled W d pre y row)
                \/ (x = 0 /\ nth_Z (rows (public b)) y = Some None)).
  { rewrite Hr1'. destruct (Z.eq_dec x 0) as [Hx | Hx].
    - right. split; [exact Hx|].
      destruct (Z.lt_ge_cases y (allocated_height (public a))) as [Hlt | Hge].
      + rewrite Hold1 by lia. apply Hnone; lia.
      + apply Hnew1. lia.
    - left. split; [lia|].
      destruct (Hrows y) as (row & Hrow & Hfill); [lia | lia |].
      exists row. split; [|exact Hfill].
      rewrite Hold1; [exact Hrow|].
      apply nth_Z_Some in Hrow. lia. }
  assert (Hcols : exists ro,
             nth_Z (rows (public b)) (cursor_y b) = Some ro
             /\ (forall row, ro = Some row ->
                   allocated_width row = Z.of_nat (length (cols row))
                   /\ cursor_x b <= allocated_width row)
             /\ (ro = None -> cursor_x b < ANSR_MIN_ALLOC_COLS)
             /\ match ro with Some row => width row | None => 0 end = x
             /\ (forall row, ro = Some row -> row_filled W d pre y row)).
  { rewrite Hyb, Hxb.
    destruct Hro as [(Hxpos & row & Hrow & Hfill) | (Hx & Hrow)].
    - exists (Some row). split; [exact Hrow|].
      pose proof Hfill as (Hw & Haw & Hle & _).
      assert (Hwx : width row = x) by lia.
      split; [intros ? [= <-]; lia|].
      split; [discriminate|]. split; [exact Hwx|].
      intros ? [= <-]. exact Hfill.
    - exists None. split; [exact Hrow|].
      split; [discriminate|]. unfold ANSR_MIN_ALLOC_COLS.
      split; [lia|]. split; [lia | discriminate]. }
  destruct Hcols as (ro & Hrob & Haw & Hnew & Hwx & Hfill).
  destruct (expand_cols_ok b ro) as
    (a2 & row' & -> & Hctl2 & Hh2 & Hah2 & Hr2 & Hw2 & Haw2 & Hx2 & Hkeep);
    [apply Halloc | exact Hrob | rewrite Hxb; lia | exact Haw | exact Hnew |].
  destruct Hctl2 as (Hst2 & Hd2 & Hxx2 & Hyy2 & Hc2).
  rewrite Hyb in Hr2. rewrite Hxb in Hx2.
  assert (Hya2 : cursor_y a2 = y) by congruence.
  assert (Hxa2 : cursor_x a2 = x) by congruence.
  assert (Hylen : 0 <= y < Z.of_nat (length (rows (public b)))).
  { rewrite Hr1'. lia. }
  rewrite (store_char_ok a2 row').
  2:{ rewrite Hya2, Hr2. apply nth_Z_insert_eq. exact Hylen. }
  2:{ rewrite Hxa2. lia. }
  2:{ rewrite Hxa2. lia. }
  eexists. split; [reflexivity|].
  split; [|split; [exact Hx0 | exact Hk0]].
  (* the invariant after the store *)
  unfold text_filled. cbn.
  rewrite Hya2, Hxa2, Hr2, list_insert_insert_eq, length_insert, Hr1'.
  rewrite length_app. cbn [length]. rewrite Nat2Z.inj_add, <- Hkdef.
  change (Z.of_nat 1) with 1.
  destruct (Z.eqb_spec (k + 1) 0) as [|_]; [lia|].
  repeat split; try congruence; try lia.
  - (* rows holding text *)
    intros r Hr0 Hr.
    destruct (Z.eq_dec r y) as [-> | Hne].
    + eexists. split; [apply nth_Z_insert_eq; rewrite <- Hr1'; exact Hylen|].
      unfold row_filled. cbn. rewrite length_insert, length_app. cbn [length].
      rewrite Nat2Z.inj_add, <- Hkdef. change (Z.of_nat 1) with 1.
      repeat split; try lia.
      intros j ch Hj Hch.
      destruct (Z.eq_dec j x) as [-> | Hjx].
      * replace (Z.to_nat (y * W + x)) with (length pre + 0)%nat in Hch by lia.
        rewrite lookup_app_r in Hch by lia.
        replace (length pre + 0 - length pre)%nat with 0%nat in Hch by lia.
        injection Hch as <-.
        rewrite nth_Z_insert_eq by lia.
        rewrite Hd2, Hd1', Hd1, Hd0, Hd. reflexivity.
      * rewrite nth_Z_insert_ne by lia.
        rewrite lookup_app_l in Hch by lia.
        destruct ro as [row|]; [|lia].
        destruct (Hfill row eq_refl) as (Hw & Hawr & Hle & Hcont).
        rewrite (Hkeep row j eq_refl) by lia.
        apply Hcont; [lia | exact Hch].
    + assert (Hry : r < y) by nia.
      destruct (Hrows r) as (row & Hrow & Hw & Hawr & Hle & Hcont); [lia | nia |].
      exists row. split.
      * rewrite nth_Z_insert_ne by lia.
        rewrite Hold1; [exact Hrow|]. apply nth_Z_Some in Hrow. lia.
      * unfold row_filled. rewrite length_app. cbn [length].
        rewrite Nat2Z.inj_add, <- Hkdef. change (Z.of_nat 1) with 1.
        repeat split; try lia; try nia.
        intros j ch Hj Hch. apply Hcont; [exact Hj|].
        rewrite lookup_app_l in Hch; [exact Hch|]. nia.
  - (* rows not reached yet *)
    intros r Hr Hra.
    assert (Hry : y < r) by nia.
    rewrite nth_Z_insert_ne by lia.
    destruct (Z.lt_ge_cases r (allocated_height (public a))) as [Hlt | Hge].
    + rewrite Hold1 by lia. apply Hnone; lia.
    + apply Hnew1. lia.
Qed.

Lemma printable_is_text c : printable c -> is_text c = true.
Proof. unfold printable, is_text. intros Hc. lia. Qed.

Lemma write_text W d input : forall pre a,
  0 < W ->
  (forall n, alloc_ok n = true) ->
  Forall (fun c => is_text c = true) input ->
  Z.of_nat (length pre) + Z.of_nat (length input) < 2 ^ 31 ->
  text_filled W d pre a ->
  exists a',
    ansr_write a input = Ret 0 a'
    /\ text_filled W d (pre ++ input) a'
    /\ written a input
       = row_major W (Z.of_nat (length pre)) (Z.of_nat (length input)).
Proof.
  induction input as [|c rest IH]; intros pre a HW Halloc Htext Hbig Hf.
  - exists a. rewrite app_nil_r. auto.
  - apply Forall_cons in Htext as [Hc Hrest]. cbn [length] in Hbig.
    destruct (add_char_text W d pre a c HW Halloc ltac:(lia) Hf)
      as (a1 & Hadd & Hf1 & Hx & Hk).
    assert (Hst : state a = ANSR_STATE_INPUT) by apply Hf.
    assert (Hbyte : ansr_write_byte a c = Ret 0 a1).
    { unfold ansr_write_byte. rewrite Hst, input_byte_text, Hadd by exact Hc.
      reflexivity. }
    destruct (IH (pre ++ [c]) a1 HW Halloc Hrest) as (a' & Hw & Hf' & Hwr);
      [rewrite length_app; cbn [length]; lia | exact Hf1 |].
    exists a'. cbn [ansr_write written]. rewrite Hbyte.
    split; [exact Hw|]. split; [rewrite <- app_assoc in Hf'; exact Hf'|].
    rewrite Hwr. unfold stored_by. rewrite Hst, Hc, Hadd.
    unfold row_major. cbn [length].
    rewrite (seqZ_cons (Z.of_nat (length pre))) by lia.
    rewrite length_app. cbn [length fmap list_fmap app].
    f_equal.
    + f_equal.
      * apply Z.div_unique with (r := cursor_x (soft_wrap a)); lia.
      * apply Z.mod_unique with (q := cursor_y (soft_wrap a)); lia.
    + f_equal. f_equal; lia.
Qed.

Lemma blank_text_filled c :
  0 < screen_width c ->
  text_filled (screen_width c) zero_disp_state [] (blank c).
Proof.
  intros HW. unfold text_filled. cbn.
  repeat split; try lia; intros r; nia.
Qed.

(** C3, as the code has it.  Printable bytes only, N of them (fewer than
    2^31), on a new renderer of screen width W > 0, with no allocation
    failing: exactly N cells are written, in row-major order (the i-th
    byte goes to row i / W, column i mod W), each with the Display State
    of the new renderer.  The wrap at column W is taken only when the
    next character arrives: the cursor ends at row N / W, column N mod W
    unless N is a positive multiple of W, and then at row N / W - 1,
    column W; for N > 0 that is row (N - 1) / W, column
    (N - 1) mod W + 1. *)
Theorem text_fills_grid_row_major (c : ansr_conf_t) (input : list Z) :
  let W := screen_width c in
  let N := Z.of_nat (length input) in
  0 < W ->
  N < 2 ^ 31 ->
  (forall n, alloc_ok n = true) ->
  Forall printable input ->
  exists a',
    ansr_write (blank c) input = Ret 0 a'
    /\ (N = 0 \/ N mod W <> 0 -> cursor_y a' = N / W /\ cursor_x a' = N mod W)
    /\ (0 < N -> N mod W = 0 -> cursor_y a' = N / W - 1 /\ cursor_x a' = W)
    /\ (0 < N -> cursor_y a' = (N - 1) / W /\ cursor_x a' = (N - 1) mod W + 1)
    /\ written (blank c) input = row_major W 0 N
    /\ length (written (blank c) input) = length input
    /\ (forall i ch, input !! i = Some ch ->
          cell_at a' (Z.of_nat i / W) (Z.of_nat i mod W)
          = Some {| code := ch; ch_disp_state := disp_state (blank c) |}).
Proof.
  intros W N HW HN Halloc Hpr.
  destruct (write_text W zero_disp_state input [] (blank c) HW Halloc)
    as (a' & Hw & Hf & Hwr).
  { eapply Forall_impl; [exact Hpr | apply printable_is_text]. }
  { cbn [length]. fold N. lia. }
  { apply blank_text_filled. exact HW. }
  cbn [app length] in Hf, Hwr. change (Z.of_nat 0) with 0 in Hwr. fold N in Hwr.
  destruct Hf as (_ & _ & _ & Hy & Hx & Hk & Hxpos & _ & _ & _ & _ & Hrows & _).
  fold N in Hk, Hxpos.
  exists a'. split; [exact Hw|].
  split; [|split; [|split; [|split; [|split]]]].
  - intros HN0.
    assert (Hlt : cursor_x a' < W).
    { destruct (Z.eq_dec (cursor_x a') W) as [Heq | Hne]; [|lia].
      exfalso. rewrite Heq in Hk.
      assert (Hm : N mod W = 0).
      { rewrite <- Hk. replace (cursor_y a' * W + W) with ((cursor_y a' + 1) * W) by lia.
        apply Z_mod_mult. }
      destruct HN0 as [HN0 | HN0]; [nia | contradiction]. }
    split.
    + apply Z.div_unique with (r := cursor_x a'); lia.
    + apply Z.mod_unique with (q := cursor_y a'); lia.
  - intros Hpos Hm.
    pose proof (Z_div_exact_full_2 N W ltac:(lia) Hm) as Hq.
    specialize (Hxpos Hpos).
    remember (N / W) as q eqn:Hqdef.
    assert (Hd1 : 0 < q - cursor_y a') by nia.
    assert (Hd2 : q - cursor_y a' < 2) by nia.
    split; nia.
  - intros Hpos. specialize (Hxpos Hpos). split.
    + apply Z.div_unique with (r := cursor_x a' - 1); lia.
    + assert (Hm : cursor_x a' - 1 = (N - 1) mod W).
      { apply Z.mod_unique with (q := cursor_y a'); lia. }
      lia.
  - exact Hwr.
  - rewrite Hwr. unfold row_major. rewrite length_fmap, length_seqZ. unfold N. lia.
  - intros i ch Hi.
    assert (HiN : Z.of_nat i < N).
    { apply lookup_lt_Some in Hi. unfold N. lia. }
    pose proof (Z.div_mod (Z.of_nat i) W ltac:(lia)) as Hdm.
    pose proof (Z.mod_pos_bound (Z.of_nat i) W HW) as Hmod.
    assert (Hdiv : 0 <= Z.of_nat i / W) by (apply Z.div_pos; lia).
    destruct (Hrows (Z.of_nat i / W)) as (row & Hrow & Hwd & _ & _ & Hcont);
      [lia | fold N; nia |].
    unfold cell_at, row_at. rewrite Hrow.
    apply Hcont.
    + fold N in Hwd. rewrite Hwd. nia.
    + replace (Z.of_nat i / W * W + Z.of_nat i mod W) with (Z.of_nat i) by lia.
      rewrite Nat2Z.id. exact Hi.
Qed.
End Properties.

(** C4 at a concrete renderer: "A", SUB, then two more bytes. *)
Lemma eof_marker_discards_rest_witness :
  state (blank ansr_conf_defaults) = ANSR_STATE_INPUT
  /\ @ansr_write gcc_x86_64 (blank ansr_conf_defaults) [0x1a; 0x41; 0x1b]
     = Ret 0 (set_state ANSR_STATE_EOF (blank ansr_conf_defaults)).
Proof.
  split; [reflexivity|].
  apply (@eof_marker_discards_rest gcc_x86_64 (blank ansr_conf_defaults)
           [0x41; 0x1b] [] 0).
  reflexivity.
Defined.

(** C1 at ESC "[999m" on a fresh renderer: the write stops at the
    assertion, nothing is returned, and the grid is the one it started
    with. *)
Lemma params_overflow_is_asserted_not_returned_witness :
  let a := blank ansr_conf_defaults in
  exists a1,
    @ansr_write gcc_x86_64 a [0x1b; 0x5b; 0x39; 0x39; 0x39] = Ret 0 a1
    /\ accumulator a1 = 999
    /\ @_ansr_params_append_accumulator gcc_x86_64 a1 = Ret (- EOVERFLOW) a1
    /\ @ansr_write gcc_x86_64 a ([0x1b; 0x5b; 0x39; 0x39; 0x39] ++ [0x6d])
       = Abort a1
    /\ public a1 = public a.
Proof.
  intros a. eexists. split; [vm_compute; reflexivity|].
  split; [reflexivity|].
  destruct (@params_overflow_is_asserted_not_returned gcc_x86_64 a
              [0x1b; 0x5b; 0x39; 0x39; 0x39] 0x6d []
              (set_accumulator 999 (set_n_params 0 (set_accumulator 0
                 (set_state ANSR_STATE_CSI (set_state ANSR_STATE_ESCAPE a))))))
    as (Ho & _ & Hab & _).
  - vm_compute. reflexivity.
  - reflexivity.
  - vm_compute. reflexivity.
  - reflexivity.
  - split; [exact Ho|]. split; [exact Hab | reflexivity].
Defined.

(** ** Runs on gcc/x86-64 with the default configuration *)

Lemma sgr_empty_and_sgr_zero_reset_witness :
  let a := final_state
             (@ansr_write gcc_x86_64 (blank ansr_conf_defaults)
                [0x1b; 0x5b; 0x30; 0x3b]) in
  n_params a = 1 /\ nth_Z (params a) 0 = Some 0
  /\ disp_state (final_state (@_ansr_sgr gcc_x86_64 a)) = sgr_baseline.
Proof.
  split; [reflexivity|]. split; [reflexivity|].
  refine (f_equal (fun o => disp_state (final_state o))
            (proj1 (@sgr_empty_and_sgr_zero_reset gcc_x86_64 _ _))).
  right. split; reflexivity.
Defined.

Lemma sgr_unassigned_value_ignored_witness :
  let a := set_n_params 1 (set_params [56] (blank ansr_conf_defaults)) in
  sgr_no_case 56 = true
  /\ nth_Z (params a) 0 = Some 56
  /\ @_ansr_sgr gcc_x86_64 a = Ret 0 a.
Proof.
  split; [reflexivity|]. split; [reflexivity|].
  apply (@sgr_unassigned_value_ignored gcc_x86_64 56 _ 0%nat 0);
    reflexivity.
Defined.

Lemma cup_cha_parameter_zero_wraps_witness :
  let a := final_state
             (@ansr_write gcc_x86_64 (blank ansr_conf_defaults)
                [0x1b; 0x5b; 0x30]) in
  @finalized a = [0]
  /\ exists a', @ansr_write_byte gcc_x86_64 a 0x48 = Ret 0 a'
                /\ cursor_y a' = 2 ^ 32 - 1 /\ state a' = ANSR_STATE_INPUT.
Proof.
  split; [reflexivity|].
  apply (@cup_cha_parameter_zero_wraps gcc_x86_64 _ []).
  - reflexivity.
  - vm_compute. repeat split; discriminate.
  - vm_compute. discriminate.
  - right. reflexivity.
  - reflexivity.
Defined.

Lemma unwritten_cells_are_zero_witness :
  let input := [0x1b; 0x5b; 0x31; 0x43; 0x41] in
  let a := final_state (@ansr_write gcc_x86_64 (blank ansr_conf_defaults) input) in
  exists v,
    cell_at a 0 0 = Some v
    /\ ~ In (0, 0) (@written gcc_x86_64 (blank ansr_conf_defaults) input)
    /\ v = zero_char.
Proof.
  assert (Hw : ~ In (0, 0)
                 (@written gcc_x86_64 (blank ansr_conf_defaults)
                    [0x1b; 0x5b; 0x31; 0x43; 0x41])).
  { vm_compute. intros [E | []]. discriminate E. }
  eexists. split; [vm_compute; reflexivity|]. split; [exact Hw|].
  refine (proj1 (@unwritten_cells_are_zero gcc_x86_64 ansr_conf_defaults
                   [0x1b; 0x5b; 0x31; 0x43; 0x41] 0 0 _ _ Hw)).
  vm_compute. reflexivity.
Defined.

(** C8 as stated fails on ESC [ 1 C "A": the cell in row 0, column 0 lies
    below the row's logical width 2 and was never written; it holds the
    code 0, but its Display State has foreground black, not the white of
    the baseline. *)
Lemma unwritten_cell_not_baseline_counterexample :
  let input := [0x1b; 0x5b; 0x31; 0x43; 0x41] in
  let a := final_state (@ansr_write gcc_x86_64 (blank ansr_conf_defaults) input) in
  exists row v,
    row_at a 0 = Some row /\ width row = 2
    /\ cell_at a 0 0 = Some v
    /\ ~ In (0, 0) (@written gcc_x86_64 (blank ansr_conf_defaults) input)
    /\ code v = 0
    /\ fg (ch_disp_state v) = ANSR_COLOR_BLACK
    /\ ch_disp_state v <> sgr_baseline.
Proof.
  eexists. eexists.
  split; [vm_compute; reflexivity|]. split; [reflexivity|].
  split; [vm_compute; reflexivity|].
  split. { vm_compute. intros [E | []]. discriminate E. }
  split; [reflexivity|]. split; [reflexivity|]. discriminate.
Qed.

(** C7.  ESC [ H, with no parameter, does not put the cursor in row 0:
    the final byte first appends the accumulator, so the dispatch sees
    the one-element list [0], takes [params[0] - 1] and leaves the cursor
    in row 2^32 - 1 (column 0).  ESC [ 5 ; 10 H does reach row 4,
    column 9; ESC [ 1 ; 2 ; 3 H, with a second parameter present, leaves
    column 0 because the column is read only when there are exactly two
    parameters. *)
Theorem cup_without_parameter_wraps_row :
  let run := fun input =>
    final_state (@ansr_write gcc_x86_64 (blank ansr_conf_defaults) input) in
  (cursor_y (run [0x1b; 0x5b; 0x48]), cursor_x (run [0x1b; 0x5b; 0x48]))
    = (4294967295, 0)
  /\ (cursor_y (run [0x1b; 0x5b; 0x35; 0x3b; 0x31; 0x30; 0x48]),
      cursor_x (run [0x1b; 0x5b; 0x35; 0x3b; 0x31; 0x30; 0x48])) = (4, 9)
  /\ (cursor_y (run [0x1b; 0x5b; 0x31; 0x3b; 0x32; 0x3b; 0x33; 0x48]),
      cursor_x (run [0x1b; 0x5b; 0x31; 0x3b; 0x32; 0x3b; 0x33; 0x48])) = (0, 0)
  /\ @ansr_write gcc_x86_64 (blank ansr_conf_defaults) [0x1b; 0x5b; 0x48]
     = Ret 0 (run [0x1b; 0x5b; 0x48]).
Proof. vm_compute. repeat split; reflexivity. Qed.

(** C2.  Sixty-four line feeds put the cursor in row 64 of a renderer
    that has allocated nothing; writing "A" there grows the row array to
    MAX(64, 0 * 2) = 64 entries, not to 65, and the next statement reads
    [rows[64]], one past the end.  Likewise ESC [ 8 2 G moves to column
    81, the new row gets MAX(0 * 2, 80) = 80 cells and the store goes to
    [cols[81]]. *)
Theorem add_char_grows_too_little :
  let a := final_state
             (@ansr_write gcc_x86_64 (blank ansr_conf_defaults)
                (replicate 64 0x0a)) in
  let b := final_state
             (@ansr_write gcc_x86_64 (blank ansr_conf_defaults)
                [0x1b; 0x5b; 0x38; 0x32; 0x47]) in
  (cursor_y a = 64 /\ allocated_height (public a) = 0
   /\ exists a', @_ansr_add_char gcc_x86_64 a 0x41 = Undef a'
                 /\ allocated_height (public a') = 64
                 /\ length (rows (public a')) = 64%nat)
  /\ (cursor_x b = 81 /\ row_at b 0 = None
      /\ exists b' row, @_ansr_add_char gcc_x86_64 b 0x41 = Undef b'
                        /\ row_at b' 0 = Some row
                        /\ allocated_width row = 80
                        /\ length (cols row) = 80%nat).
Proof.
  split.
  - split; [reflexivity|]. split; [reflexivity|].
    eexists. split; [vm_compute; reflexivity|]. split; reflexivity.
  - split; [reflexivity|]. split; [reflexivity|].
    eexists. eexists. split; [vm_compute; reflexivity|].
    split; [vm_compute; reflexivity|]. split; reflexivity.
Qed.

(** C6.  After sixty-four line feeds and "A" on a new renderer the
    logical height is 65 while the allocated height is 64: the write
    raised [height] to [cursor_y + 1] although the row array had only
    been grown to 64 entries (and then read past its end). *)
Theorem height_exceeds_allocated_height :
  let o := @ansr_write gcc_x86_64 (blank ansr_conf_defaults)
             (replicate 64 0x0a ++ [0x41]) in
  height (public (final_state o)) = 65
  /\ allocated_height (public (final_state o)) = 64
  /\ allocated_height (public (final_state o)) < height (public (final_state o))
  /\ o = Undef (final_state o).
Proof. vm_compute. repeat split; reflexivity. Qed.

(** C3 as stated fails when N is a positive multiple of W: after eighty
    letters on the default 80-column renderer the cursor is still in
    row 0, at column 80, not at row 80 / 80 = 1, column 0. *)
Lemma cursor_after_full_line_counterexample :
  let input := replicate 80 0x41 in
  let a := final_state (@ansr_write gcc_x86_64 (blank ansr_conf_defaults) input) in
  Forall printable input
  /\ (cursor_y a, cursor_x a) = (0, 80)
  /\ ~ (cursor_y a = Z.of_nat (length input) / 80
        /\ cursor_x a = Z.of_nat (length input) mod 80).
Proof.
  split; [apply Forall_replicate; unfold printable; lia|].
  split; [vm_compute; reflexivity|].
  intros [Hrow _]. vm_compute in Hrow. discriminate Hrow.
Qed.

Lemma text_fills_grid_row_major_witness :
  let c := {| screen_width := 2; screen_lines := 24 |} in
  exists a',
    @ansr_write gcc_x86_64 (blank c) [0x41; 0x42; 0x43] = Ret 0 a'
    /\ cursor_y a' = 1 /\ cursor_x a' = 1
    /\ @written gcc_x86_64 (blank c) [0x41; 0x42; 0x43]
       = [(0, 0); (0, 1); (1, 0)].
Proof.
  intros c.
  destruct (@text_fills_grid_row_major gcc_x86_64 c [0x41; 0x42; 0x43])
    as (a' & Hw & Hc & _ & _ & Hwr & _).
  - simpl. lia.
  - simpl. lia.
  - reflexivity.
  - repeat constructor; unfold printable; lia.
  - exists a'. split; [exact Hw|].
    destruct Hc as [Hy Hx]; [right; vm_compute; discriminate|].
    split; [exact Hy|]. split; [exact Hx|]. exact Hwr.
Defined.

(** * Further properties *)

Section Coverage.
Context `{Platform}.

(** ** Construction, streaming, and what touches the display state *)

Lemma ansr_eta a :
  a = {| public := public a; state := state a; disp_state := disp_state a;
         cursor_x := cursor_x a; cursor_y := cursor_y a;
         n_params_allocated := n_params_allocated a; n_params := n_params a;
         accumulator := accumulator a; params := params a; conf := conf a;
         allocs := allocs a |}.
Proof. destruct a. reflexivity. Qed.

(** X1.  [ansr_new] returns NULL exactly when its [calloc] fails (and the
    entry assertion held): the branch that frees the instance after a
    negative [ansr_write] is never taken, because [ansr_write] has no
    negative return. *)
Theorem new_null_only_when_calloc_fails c input :
  ansr_new c input = New_null <-> (input <> Some [] /\ alloc_ok 0 = false).
Proof.
  unfold ansr_new. split.
  - destruct input as [[|b bytes]|]; [discriminate| |];
      destruct (alloc_ok 0) eqn:Hok; try discriminate.
    + destruct (ansr_write _ _) as [rc a'| |] eqn:Hw; try discriminate.
      apply ansr_write_returns_zero in Hw. subst rc. discriminate.
    + intros _. split; [discriminate | reflexivity].
    + intros _. split; [discriminate | reflexivity].
  - intros [Hin Hok]. rewrite Hok.
    destruct input as [[|b bytes]|]; [contradiction | reflexivity | reflexivity].
Qed.

Lemma ansr_write_resume a pre rest a1 :
  ansr_write a pre = Ret 0 a1 ->
  ansr_write a (pre ++ rest) = ansr_write a1 rest.
Proof. intros Hp. rewrite ansr_write_app, Hp. reflexivity. Qed.

(** X2.  Feeding can be split at any byte: when the write of [pre]
    returned, writing [pre ++ rest] in one call is the same as writing
    [rest] to the renderer the first call left, outcome and state alike,
    also in the middle of an escape sequence. *)
Theorem write_split_across_calls a pre rest a1 :
  ansr_write a pre = Ret 0 a1 ->
  ansr_write a (pre ++ rest) = ansr_write a1 rest.
Proof. apply ansr_write_resume. Qed.

Lemma parser_untouched_refl a : parser_untouched a a.
Proof. unfold parser_untouched. auto 10. Qed.

Lemma parser_untouched_trans a b c :
  parser_untouched a b -> parser_untouched b c -> parser_untouched a c.
Proof. unfold parser_untouched. intuition congruence. Qed.

Lemma soft_wrap_parser a : parser_untouched a (soft_wrap a).
Proof. unfold soft_wrap. destruct (_ && _); unfold parser_untouched; cbn; auto 10. Qed.

Lemma expand_rows_parser a : parser_untouched a (final_state (expand_rows a)).
Proof.
  unfold expand_rows, request.
  destruct (_ >=? _); [|apply parser_untouched_refl].
  destruct (alloc_ok _); [destruct (_ <? _)|]; unfold parser_untouched; cbn; auto 10.
Qed.

Lemma bump_height_parser a : parser_untouched a (bump_height a).
Proof. unfold bump_height. destruct (_ >=? _); unfold parser_untouched; cbn; auto 10. Qed.

Lemma expand_cols_parser a : parser_untouched a (final_state (expand_cols a)).
Proof.
  unfold expand_cols, request.
  destruct (nth_Z _ _) as [r|]; [|apply parser_untouched_refl].
  destruct (match r with Some row => _ | None => true end);
    [|apply parser_untouched_refl].
  destruct (alloc_ok _); unfold parser_untouched; cbn; auto 10.
Qed.

Lemma store_char_parser a c : parser_untouched a (final_state (store_char a c)).
Proof.
  unfold store_char.
  destruct (nth_Z _ _) as [[row|]|]; try apply parser_untouched_refl.
  destruct (_ && _); [|apply parser_untouched_refl].
  unfold parser_untouched; cbn; auto 10.
Qed.

Lemma add_char_parser a c : parser_untouched a (final_state (_ansr_add_char a c)).
Proof.
  unfold _ansr_add_char.
  pose proof (expand_rows_parser (soft_wrap a)) as H1.
  pose proof (parser_untouched_trans _ _ _ (soft_wrap_parser a) H1) as H2.
  destruct (expand_rows (soft_wrap a)) as [rc a1| |]; cbn in *; try exact H2.
  destruct (Z.eqb_spec rc 0) as [-> | Hrc]; [|destruct rc; try lia; exact H2].
  pose proof (expand_cols_parser (bump_height a1)) as H3.
  pose proof (parser_untouched_trans _ _ _ H2
                (parser_untouched_trans _ _ _ (bump_height_parser a1) H3)) as H4.
  destruct (expand_cols (bump_height a1)) as [rc a2| |]; cbn in *; try exact H4.
  destruct (Z.eqb_spec rc 0) as [-> | Hrc]; [|destruct rc; try lia; exact H4].
  exact (parser_untouched_trans _ _ _ H4 (store_char_parser a2 c)).
Qed.

Lemma params_append_disp a p :
  disp_state (final_state (_ansr_params_append a p)) = disp_state a.
Proof.
  unfold _ansr_params_append, request.
  destruct (_ >? _); [destruct (alloc_ok _)|]; cbn;
    try destruct (_ && _); reflexivity.
Qed.

Lemma params_append_accumulator_disp a :
  disp_state (final_state (_ansr_params_append_accumulator a)) = disp_state a.
Proof.
  unfold _ansr_params_append_accumulator.
  destruct (_ >? _); [reflexivity|].
  pose proof (params_append_disp a (to_char (accumulator a))) as Hp.
  destruct (_ansr_params_append a _) as [rc a1| |]; cbn in *; try exact Hp.
  destruct rc; exact Hp.
Qed.

Lemma csi_param_byte_disp a c :
  disp_state (final_state (csi_param_byte a c)) = disp_state a.
Proof.
  unfold csi_param_byte.
  repeat match goal with
         | |- context [if ?b then _ else _] => destruct b
         end;
    rewrite ?assert_zero_state;
    first [reflexivity | apply params_append_accumulator_disp].
Qed.

Lemma csi_final_byte_disp a c :
  c <> 0x6d -> disp_state (final_state (csi_final_byte a c)) = disp_state a.
Proof.
  intros Hc. unfold csi_final_byte.
  destruct c as [|p|p]; try reflexivity;
  repeat first
    [ reflexivity
    | exfalso; apply Hc; reflexivity
    | match goal with
      | |- context [if ?b then _ else _] => destruct b
      | |- context [param ?a ?i] => destruct (param a i)
      end
    | destruct p as [p|p|] ].
Qed.

Lemma write_byte_disp_state a c :
  (state a = ANSR_STATE_CSI -> c <> 0x6d) ->
  disp_state (final_state (ansr_write_byte a c)) = disp_state a.
Proof.
  intros Hc. unfold ansr_write_byte.
  destruct (state a) eqn:Hs.
  - destruct (is_text c) eqn:Ht.
    + rewrite input_byte_text by exact Ht.
      pose proof (add_char_parser a c) as (_ & Hd & _).
      destruct (_ansr_add_char a c); exact Hd.
    + unfold is_text in Ht.
      assert (Hv : c = 0x7 \/ c = 0x8 \/ c = 0x9 \/ c = 0x0a \/ c = 0x0c
                   \/ c = 0x0d \/ c = 0x1a \/ c = 0x1b \/ c = 0x7f) by lia.
      repeat (destruct Hv as [-> | Hv]; [try reflexivity|]); subst; try reflexivity.
      cbn. destruct (_ >? _); reflexivity.
  - reflexivity.
  - unfold escape_byte. switch_cases c.
  - unfold csi_byte.
    pose proof (csi_param_byte_disp a c) as Hp.
    destruct (csi_param_byte a c) as [rc a1| |]; cbn in *; try exact Hp.
    rewrite csi_final_byte_disp by (apply Hc; reflexivity). exact Hp.
Qed.

(** X3.  One byte changes the current display state only when it is the
    final byte 'm' of a control sequence: every other byte, in every
    parser state and whatever its outcome, leaves it as it was. *)
Theorem display_state_changes_only_on_sgr a c :
  (state a = ANSR_STATE_CSI -> c <> 0x6d) ->
  disp_state (final_state (ansr_write_byte a c)) = disp_state a.
Proof. apply write_byte_disp_state. Qed.

Lemma sgr_case_shape p a :
  exists d', final_state (sgr_case p a) = set_disp_state d' a.
Proof.
  destruct a. unfold sgr_case.
  repeat (destruct (in_range _ _ p); [eexists; reflexivity|]).
  destruct p as [|q|q]; [eexists; reflexivity| |eexists; reflexivity].
  repeat first [ solve [eexists; reflexivity] | destruct q as [q|q|] ].
Qed.

Lemma sgr_loop_shape n : forall i a,
  exists d', final_state (sgr_loop n i a) = set_disp_state d' a.
Proof.
  induction n as [|n IH]; intros i a; cbn.
  - exists (disp_state a). apply ansr_eta.
  - destruct (nth_Z (params a) i) as [b|]; [|exists (disp_state a); apply ansr_eta].
    destruct (sgr_case_shape (char_to_int b) a) as [d1 Hd1].
    destruct (sgr_case (char_to_int b) a) as [rc a1| |]; cbn in Hd1; subst.
    + destruct (IH (i + 1) (set_disp_state d1 a)) as [d2 Hd2].
      exists d2. rewrite Hd2. reflexivity.
    + eexists. reflexivity.
    + eexists. reflexivity.
Qed.

Lemma sgr_loop_returns_zero n : forall i a rc a',
  sgr_loop n i a = Ret rc a' -> rc = 0.
Proof.
  induction n as [|n IH]; intros i a rc a'; cbn.
  - intros [= <- _]. reflexivity.
  - destruct (nth_Z _ _); [|discriminate].
    destruct (sgr_case _ a); try discriminate. apply IH.
Qed.

Lemma sgr_shape a :
  exists d', final_state (_ansr_sgr a) = set_disp_state d' a.
Proof.
  unfold _ansr_sgr. destruct (_ =? _); [eexists; reflexivity|].
  apply sgr_loop_shape.
Qed.

(** X4.  [_ansr_sgr] touches nothing but the display state, whatever the
    parameters and also when it stops at an assertion: grid, cursor,
    parser state and parameter buffer are the ones it was called with. *)
Theorem sgr_changes_only_display_state a :
  exists d',
    final_state (_ansr_sgr a) = set_disp_state d' a
    /\ public (final_state (_ansr_sgr a)) = public a
    /\ cursor_x (final_state (_ansr_sgr a)) = cursor_x a
    /\ cursor_y (final_state (_ansr_sgr a)) = cursor_y a
    /\ state (final_state (_ansr_sgr a)) = state a
    /\ params (final_state (_ansr_sgr a)) = params a
    /\ n_params (final_state (_ansr_sgr a)) = n_params a.
Proof.
  pose proof (sgr_shape a) as Hs.
  destruct Hs as [d' Hd']. exists d'. rewrite Hd'.
  repeat split.
Qed.

(** ** The SGR parameter table *)

Lemma attr_bit_nonneg f : 0 <= attr_bit f.
Proof. destruct f; cbn; lia. Qed.

Lemma has_attr_on g d f :
  has_attr (attr_on g d) f = (attr_bit g =? attr_bit f) || has_attr d f.
Proof. unfold has_attr, attr_on. cbn. apply Z.setbit_eqb, attr_bit_nonneg. Qed.

Lemma has_attr_off g d f :
  has_attr (attr_off g d) f = has_attr d f && negb (attr_bit g =? attr_bit f).
Proof. unfold has_attr, attr_off. cbn. apply Z.clearbit_eqb. Qed.

Lemma has_attr_set_fg c d f : has_attr (set_fg c d) f = has_attr d f.
Proof. reflexivity. Qed.
Lemma has_attr_set_bg c d f : has_attr (set_bg c d) f = has_attr d f.
Proof. reflexivity. Qed.

(** Every value in 0..107, one by one. *)
Lemma sgr_range_cases (P : Z -> Prop) :
  (forall n, (n <= 107)%nat -> P (Z.of_nat n)) ->
  forall p, 0 <= p <= 107 -> P p.
Proof.
  intros HP p Hp. replace p with (Z.of_nat (Z.to_nat p)) by lia.
  apply HP. lia.
Qed.

Lemma sgr_case_outside p a : p < 0 \/ 107 < p -> sgr_case p a = Ret 0 a.
Proof.
  intros Hp. unfold sgr_case, in_range.
  repeat match goal with
         | |- context [(?x <=? p) && (p <=? ?y)] =>
             destruct (Z.leb_spec x p); destruct (Z.leb_spec p y); try lia; cbn [andb]
         end;
  (destruct p as [|q|q]; [lia| |reflexivity]);
  repeat first [ reflexivity | lia | destruct q as [q|q|] ].
Qed.

Ltac each_sgr_value n tac :=
  do 108 (destruct n as [|n]; [tac|]); lia.

Lemma sgr_case_outcome p a :
  (sgr_fatal p = true -> sgr_case p a = Abort a)
  /\ (sgr_fatal p = false ->
      exists d', sgr_case p a = Ret 0 (set_disp_state d' a)).
Proof.
  destruct (Z.lt_ge_cases p 0) as [Hneg | Hpos];
    [|destruct (Z.lt_ge_cases 107 p) as [Hbig | Hsmall]].
  - rewrite sgr_case_outside by lia. split.
    + unfold sgr_fatal, in_range. lia.
    + intros _. exists (disp_state a). f_equal. apply ansr_eta.
  - rewrite sgr_case_outside by lia. split.
    + unfold sgr_fatal, in_range. lia.
    + intros _. exists (disp_state a). f_equal. apply ansr_eta.
  - revert p Hpos Hsmall.
    assert (Hall : forall p, 0 <= p <= 107 ->
              (sgr_fatal p = true -> sgr_case p a = Abort a)
              /\ (sgr_fatal p = false ->
                  exists d', sgr_case p a = Ret 0 (set_disp_state d' a))).
    { apply sgr_range_cases. intros n Hn. destruct a.
      each_sgr_value n ltac:(split; intros Hf;
        first [ discriminate Hf | reflexivity | eexists; reflexivity ]). }
    intros p ? ?. apply Hall. lia.
Qed.

(** X5.  The SGR values 10-20, 38, 39, 48, 49, 58, 59, 90-97 and 100-107
    end in [assert(0)]; every other value, negative and above 107
    included, returns and changes at most the display state. *)
Theorem sgr_fatal_parameters p a :
  (sgr_fatal p = true -> sgr_case p a = Abort a)
  /\ (sgr_fatal p = false ->
      exists d', sgr_case p a = Ret 0 (set_disp_state d' a)).
Proof. apply sgr_case_outcome. Qed.

Lemma fg_attr_on g d : fg (attr_on g d) = fg d. Proof. reflexivity. Qed.
Lemma fg_attr_off g d : fg (attr_off g d) = fg d. Proof. reflexivity. Qed.
Lemma bg_attr_on g d : bg (attr_on g d) = bg d. Proof. reflexivity. Qed.
Lemma bg_attr_off g d : bg (attr_off g d) = bg d. Proof. reflexivity. Qed.
Lemma fg_set_bg c d : fg (set_bg c d) = fg d. Proof. reflexivity. Qed.
Lemma bg_set_fg c d : bg (set_fg c d) = bg d. Proof. reflexivity. Qed.
Lemma attrs_set_fg c d : attrs (set_fg c d) = attrs d. Proof. reflexivity. Qed.
Lemma attrs_set_bg c d : attrs (set_bg c d) = attrs d. Proof. reflexivity. Qed.

#[local] Opaque has_attr attr_on attr_off set_fg set_bg.

(** Evaluate the [switch] at the literal parameter of the goal. *)
Ltac eval_sgr_case a :=
  match goal with
  | |- context [sgr_case ?p a] =>
      let d' := fresh "d'" in
      let Hd := fresh "Hd" in
      remember (disp_state (final_state (sgr_case p a))) as d' eqn:Hd;
      cbv [Z.of_nat Pos.of_succ_nat Pos.succ] in Hd; unfold sgr_case in Hd;
      cbn in Hd; subst d'
  end.

(** X6.  One SGR value other than 0 changes the foreground only when it
    is 30-37 and the background only when it is 40-47, and those colour
    values leave the attribute bits alone. *)
Theorem sgr_colours_and_attributes_apart p a :
  let d := disp_state a in
  let d' := disp_state (final_state (sgr_case p a)) in
  (p <> 0 -> in_range 30 37 p = false -> fg d' = fg d)
  /\ (p <> 0 -> in_range 40 47 p = false -> bg d' = bg d)
  /\ (in_range 30 37 p || in_range 40 47 p = true -> attrs d' = attrs d).
Proof.
  destruct (Z.lt_ge_cases p 0) as [Hneg | Hpos];
    [|destruct (Z.lt_ge_cases 107 p) as [Hbig | Hsmall]].
  - rewrite sgr_case_outside by lia. cbn. auto.
  - rewrite sgr_case_outside by lia. cbn. auto.
  - revert p Hpos Hsmall.
    assert (Hall : forall p, 0 <= p <= 107 ->
      (p <> 0 -> in_range 30 37 p = false ->
         fg (disp_state (final_state (sgr_case p a))) = fg (disp_state a))
      /\ (p <> 0 -> in_range 40 47 p = false ->
         bg (disp_state (final_state (sgr_case p a))) = bg (disp_state a))
      /\ (in_range 30 37 p || in_range 40 47 p = true ->
         attrs (disp_state (final_state (sgr_case p a))) = attrs (disp_state a))).
    { apply sgr_range_cases. intros n Hn.
      each_sgr_value n ltac:(simpl Z.of_nat; unfold sgr_case; cbn;
        rewrite ?fg_attr_on, ?fg_attr_off, ?bg_attr_on, ?bg_attr_off,
          ?fg_set_bg, ?bg_set_fg, ?attrs_set_fg, ?attrs_set_bg;
        repeat split; intros; first [reflexivity | discriminate | lia]). }
    intros p ? ?. apply Hall. lia.
Qed.

(** X7.  The attribute-setting SGR values (1-9, 21, 51-53, 60-64, 73, 74)
    never switch an attribute off, and the attribute-clearing ones
    (22-29, 50, 54, 55, 65, 75) never switch one on. *)
Theorem sgr_set_adds_clear_removes p a f :
  let d := disp_state a in
  let d' := disp_state (final_state (sgr_case p a)) in
  (sgr_sets p = true -> has_attr d f = true -> has_attr d' f = true)
  /\ (sgr_clears p = true -> has_attr d' f = true -> has_attr d f = true).
Proof.
  destruct (Z.lt_ge_cases p 0) as [Hneg | Hpos];
    [|destruct (Z.lt_ge_cases 107 p) as [Hbig | Hsmall]].
  - rewrite sgr_case_outside by lia. cbn. auto.
  - rewrite sgr_case_outside by lia. cbn. auto.
  - revert p Hpos Hsmall.
    assert (Hall : forall p, 0 <= p <= 107 ->
      (sgr_sets p = true -> has_attr (disp_state a) f = true ->
         has_attr (disp_state (final_state (sgr_case p a))) f = true)
      /\ (sgr_clears p = true ->
          has_attr (disp_state (final_state (sgr_case p a))) f = true ->
          has_attr (disp_state a) f = true)).
    { apply sgr_range_cases. intros n Hn.
      each_sgr_value n ltac:(eval_sgr_case a; split; intros Hs Hf;
        first
          [ discriminate Hs
          | rewrite has_attr_on, Hf; apply orb_true_r
          | repeat (rewrite has_attr_off in Hf; apply andb_prop in Hf as [Hf _]);
            exact Hf ]). }
    intros p ? ?. apply Hall. lia.
Qed.

Lemma sgr_case_proportional_faint p a :
  let d := disp_state a in
  let d' := disp_state (final_state (sgr_case p a)) in
  (has_attr d proportional = false -> has_attr d' proportional = false)
  /\ (p <> 0 -> has_attr d faint = true -> has_attr d' faint = true).
Proof.
  destruct (Z.lt_ge_cases p 0) as [Hneg | Hpos];
    [|destruct (Z.lt_ge_cases 107 p) as [Hbig | Hsmall]].
  - rewrite sgr_case_outside by lia. cbn. auto.
  - rewrite sgr_case_outside by lia. cbn. auto.
  - revert p Hpos Hsmall.
    assert (Hall : forall p, 0 <= p <= 107 ->
      (has_attr (disp_state a) proportional = false ->
       has_attr (disp_state (final_state (sgr_case p a))) proportional = false)
      /\ (p <> 0 -> has_attr (disp_state a) faint = true ->
          has_attr (disp_state (final_state (sgr_case p a))) faint = true)).
    { apply sgr_range_cases. intros n Hn.
      each_sgr_value n ltac:(eval_sgr_case a; split; [intros Hf | intros Hp Hf];
        rewrite ?has_attr_on, ?has_attr_off, ?has_attr_set_fg, ?has_attr_set_bg,
          ?Hf;
        first [ reflexivity | lia | exact Hf ]). }
    intros p ? ?. apply Hall. lia.
Qed.
#[local] Transparent has_attr attr_on attr_off set_fg set_bg.

(** X8.  No SGR value sets the proportional-spacing attribute (26 clears
    it, as 50 does), and no value but 0 clears faint (22 clears bold
    only). *)
Theorem sgr_never_sets_proportional_nor_clears_faint p a :
  let d := disp_state a in
  let d' := disp_state (final_state (sgr_case p a)) in
  (has_attr d proportional = false -> has_attr d' proportional = false)
  /\ (p <> 0 -> has_attr d faint = true -> has_attr d' faint = true).
Proof. apply sgr_case_proportional_faint. Qed.

(** ** Cells and the display state *)

Lemma store_char_origin a c r k v :
  cell_at (final_state (store_char a c)) r k = Some v ->
  cell_at a r k = Some v \/ v = {| code := c; ch_disp_state := disp_state a |}.
Proof.
  unfold store_char.
  destruct (nth_Z (rows (public a)) (cursor_y a)) as [[row|]|] eqn:Hy; auto.
  destruct ((0 <=? cursor_x a) && _) eqn:Hx; [|auto].
  apply nth_Z_Some in Hy as [Hy Hro].
  unfold cell_at, row_at. cbn.
  match goal with
  | |- context [nth_Z (<[?i := ?x]> ?l) r] =>
      destruct (nth_Z (<[i := x]> l) r) as [[row'|]|] eqn:Hr; try discriminate
  end.
  apply nth_Z_insert in Hr; [|lia]. destruct Hr as [[-> [= ->]] | Hr].
  - cbn. intros Hv. apply nth_Z_insert in Hv; [|lia]. destruct Hv as [[_ ->] | Hv].
    + right. reflexivity.
    + left. rewrite (nth_Z_of_lookup _ _ _ (proj1 Hy) Hro). exact Hv.
  - rewrite Hr. auto.
Qed.

Lemma add_char_origin a c r k v :
  cell_at (final_state (_ansr_add_char a c)) r k = Some v ->
  cell_at a r k = Some v \/ v = zero_char
  \/ v = {| code := c; ch_disp_state := disp_state a |}.
Proof.
  unfold _ansr_add_char.
  pose proof (expand_rows_frame (soft_wrap a) r k v) as Hrows.
  pose proof (expand_rows_parser (soft_wrap a)) as (_ & Hd1 & _).
  pose proof (soft_wrap_parser a) as (_ & Hd0 & _).
  rewrite (cell_at_public _ _ _ _ (soft_wrap_public a)) in Hrows.
  destruct (expand_rows (soft_wrap a)) as [rc a1| |]; cbn in *; auto.
  destruct (Z.eqb_spec rc 0) as [-> | Hrc].
  2:{ destruct rc; try lia; cbn; auto. }
  pose proof (expand_cols_frame (bump_height a1) r k v) as Hcols.
  pose proof (expand_cols_parser (bump_height a1)) as (_ & Hd2 & _).
  pose proof (bump_height_parser a1) as (_ & Hd3 & _).
  assert (Hb : cell_at (bump_height a1) r k = cell_at a1 r k).
  { unfold cell_at, row_at. rewrite bump_height_rows. reflexivity. }
  rewrite Hb in Hcols.
  destruct (expand_cols (bump_height a1)) as [rc a2| |]; cbn in *.
  2,3: intros Hv; destruct (Hcols Hv); auto.
  destruct (Z.eqb_spec rc 0) as [-> | Hrc].
  2:{ destruct rc; try lia; cbn; intros Hv; destruct (Hcols Hv); auto. }
  intros Hv. apply store_char_origin in Hv as [Hv | ->].
  - destruct (Hcols Hv); auto.
  - right. right. f_equal. congruence.
Qed.

Lemma write_byte_origin a c r k v :
  cell_at (final_state (ansr_write_byte a c)) r k = Some v ->
  cell_at a r k = Some v \/ v = zero_char \/ ch_disp_state v = disp_state a.
Proof.
  unfold ansr_write_byte.
  destruct (state a).
  - destruct (is_text c) eqn:Hc.
    + rewrite input_byte_text by exact Hc.
      pose proof (add_char_origin a c r k v) as Hf.
      destruct (_ansr_add_char a c) as [rc a1| |]; cbn in *;
        intros Hv; destruct (Hf Hv) as [? | [? | ->]]; auto.
    + rewrite (cell_at_public _ _ _ _ (input_byte_control a c Hc)). auto.
  - cbn. auto.
  - rewrite (cell_at_public _ _ _ _ (escape_byte_public a c)). auto.
  - rewrite (cell_at_public _ _ _ _ (csi_byte_public a c)). auto.
Qed.

Lemma write_origin input : forall a r k v,
  cell_at (final_state (ansr_write a input)) r k = Some v ->
  cell_at a r k = Some v \/ v = zero_char
  \/ exists n, ch_disp_state v
               = disp_state (final_state (ansr_write a (take n input))).
Proof.
  induction input as [|c rest IH]; intros a r k v; cbn [ansr_write]; [cbn; auto|].
  pose proof (write_byte_origin a c r k v) as Hb.
  assert (Hhere : cell_at (final_state (ansr_write_byte a c)) r k = Some v ->
                  cell_at a r k = Some v \/ v = zero_char
                  \/ exists n, ch_disp_state v
                       = disp_state (final_state (ansr_write a (take n (c :: rest))))).
  { intros Hv. destruct (Hb Hv) as [? | [? | Hd]]; auto.
    right. right. exists 0%nat. exact Hd. }
  destruct (ansr_write_byte a c) as [rc a1| |] eqn:Hbyte; cbn [final_state] in *;
    [|exact Hhere|exact Hhere].
  intros Hv. destruct (IH _ _ _ _ Hv) as [Hv1 | [-> | [n Hn]]]; auto.
  right. right. exists (S n). cbn [take ansr_write]. rewrite Hbyte. exact Hn.
Qed.


Lemma sgr_loop_proportional n : forall i a,
  has_attr (disp_state a) proportional = false ->
  has_attr (disp_state (final_state (sgr_loop n i a))) proportional = false.
Proof.
  induction n as [|n IH]; intros i a Ha; cbn; [exact Ha|].
  destruct (nth_Z (params a) i) as [b|]; [|exact Ha].
  pose proof (proj1 (sgr_case_proportional_faint
                       (char_to_int b) a) Ha) as Hc.
  destruct (sgr_case (char_to_int b) a) as [rc a1| |]; cbn in *; try exact Hc.
  apply IH. exact Hc.
Qed.

Lemma sgr_proportional a :
  has_attr (disp_state a) proportional = false ->
  has_attr (disp_state (final_state (_ansr_sgr a))) proportional = false.
Proof.
  intros Ha. unfold _ansr_sgr. destruct (_ =? _); [reflexivity|].
  apply sgr_loop_proportional. exact Ha.
Qed.

Lemma write_byte_proportional a c :
  has_attr (disp_state a) proportional = false ->
  has_attr (disp_state (final_state (ansr_write_byte a c))) proportional = false.
Proof.
  intros Ha.
  destruct (state a) eqn:Hs;
    try (rewrite write_byte_disp_state; [exact Ha | congruence]).
  destruct (Z.eq_dec c 0x6d) as [-> | Hc];
    [|rewrite write_byte_disp_state; [exact Ha | auto]].
  unfold ansr_write_byte, csi_byte. rewrite Hs.
  pose proof (csi_param_byte_disp a 0x6d) as Hp.
  destruct (csi_param_byte a 0x6d) as [rc a1| |]; cbn [final_state] in *;
    try (rewrite Hp; exact Ha).
  rewrite <- Hp in Ha. apply sgr_proportional in Ha.
  change (csi_final_byte a1 109)
    with (match _ansr_sgr a1 with
          | Ret _ a' => Ret 0 (set_state ANSR_STATE_INPUT a')
          | o => o
          end).
  destruct (_ansr_sgr a1); exact Ha.
Qed.

Lemma write_proportional input : forall a,
  has_attr (disp_state a) proportional = false ->
  has_attr (disp_state (final_state (ansr_write a input))) proportional = false.
Proof.
  induction input as [|c rest IH]; intros a Ha; cbn; [exact Ha|].
  pose proof (write_byte_proportional a c Ha) as Hb.
  destruct (ansr_write_byte a c); cbn in *; try exact Hb. apply IH. exact Hb.
Qed.

(** X10.  Whatever is fed to a fresh renderer, the proportional-spacing
    attribute is off in the current display state and in every cell. *)
Theorem proportional_is_never_set conf0 input :
  let a' := final_state (ansr_write (blank conf0) input) in
  has_attr (disp_state a') proportional = false
  /\ forall r k v, cell_at a' r k = Some v ->
       has_attr (ch_disp_state v) proportional = false.
Proof.
  split; [apply write_proportional; reflexivity|].
  intros r k v Hv.
  destruct (write_origin _ _ _ _ _ Hv) as [Hb | [-> | [n ->]]].
  - unfold cell_at, row_at, nth_Z in Hb. cbn in Hb.
    destruct (_ && _); discriminate.
  - reflexivity.
  - apply write_proportional. reflexivity.
Qed.

(** ** Parameter bytes and cursor movement *)

Lemma u32_decimal ds : forall x y,
  u32 x = u32 y -> u32 (decimal x ds) = u32 (decimal y ds).
Proof.
  induction ds as [|c ds IH]; intros x y Hxy; cbn; [exact Hxy|].
  apply IH. unfold u32 in *.
  rewrite (Z.add_mod (x * 10)), (Z.add_mod (y * 10)) by lia.
  rewrite (Z.mul_mod x), (Z.mul_mod y) by lia.
  rewrite Hxy. reflexivity.
Qed.

Lemma u32_u32 x : u32 (u32 x) = u32 x.
Proof. unfold u32. apply Z.mod_mod. lia. Qed.

Lemma csi_digit_byte a c :
  state a = ANSR_STATE_CSI -> is_digit c = true ->
  ansr_write_byte a c
  = Ret 0 (set_accumulator (u32 (accumulator a * 10 + (c - 0x30))) a).
Proof.
  intros Hs Hc. unfold ansr_write_byte, csi_byte, csi_param_byte. rewrite Hs.
  unfold is_digit in Hc. rewrite Hc. cbn [final_state].
  assert (Hu : u32 (u32 (accumulator a * 10) + (c - 48))
               = u32 (accumulator a * 10 + (c - 48))).
  { unfold u32. rewrite Z.add_mod_idemp_l by lia. reflexivity. }
  rewrite Hu.
  unfold in_range in Hc.
  assert (Hv : c = 48 \/ c = 49 \/ c = 50 \/ c = 51 \/ c = 52 \/ c = 53
               \/ c = 54 \/ c = 55 \/ c = 56 \/ c = 57) by lia.
  repeat (destruct Hv as [-> | Hv]; [reflexivity|]). subst c. reflexivity.
Qed.

Lemma digits_accumulate_aux a ds :
  state a = ANSR_STATE_CSI ->
  0 <= accumulator a < 2 ^ 32 ->
  Forall (fun c => is_digit c = true) ds ->
  ansr_write a ds
  = Ret 0 (set_accumulator (decimal (accumulator a) ds mod 2 ^ 32) a).
Proof.
  revert a. induction ds as [|c ds IH]; intros a Hs Hacc Hds.
  - cbn. rewrite Z.mod_small by exact Hacc. f_equal. destruct a; reflexivity.
  - apply Forall_cons in Hds as [Hc Hds].
    cbn [ansr_write]. rewrite csi_digit_byte by assumption.
    rewrite IH; [|exact Hs| |exact Hds].
    + pose proof (u32_decimal ds (u32 (accumulator a * 10 + (c - 48)))
                    (accumulator a * 10 + (c - 48)) (u32_u32 _)) as Hu.
      change (accumulator (set_accumulator (u32 (accumulator a * 10 + (c - 48))) a))
        with (u32 (accumulator a * 10 + (c - 48))).
      change (decimal (accumulator a) (c :: ds))
        with (decimal (accumulator a * 10 + (c - 48)) ds).
      unfold u32 at 1 3 in Hu. rewrite Hu. reflexivity.
    + cbn. unfold u32. apply Z.mod_pos_bound. lia.
Qed.

(** X11.  In the CSI state a run of digits only moves the accumulator, to
    the decimal value of the digits appended to its old value, reduced
    modulo 2^32: nothing checks the size of a parameter while it is
    being read. *)
Theorem digits_accumulate_modulo_2_32 a ds :
  state a = ANSR_STATE_CSI ->
  0 <= accumulator a < 2 ^ 32 ->
  Forall (fun c => is_digit c = true) ds ->
  ansr_write a ds
  = Ret 0 (set_accumulator (decimal (accumulator a) ds mod 2 ^ 32) a).
Proof. apply digits_accumulate_aux. Qed.

Lemma MIN_min a b : MIN a b = Z.min a b.
Proof. unfold MIN. destruct (Z.ltb_spec a b); lia. Qed.

Lemma csi_moves a p0 rest :
  state a = ANSR_STATE_CSI ->
  params_wf a ->
  accumulator a <= 255 ->
  n_params a < n_params_allocated a \/ alloc_ok (allocs a) = true ->
  finalized a = p0 :: rest ->
  0 <= cursor_y a < 2 ^ 32 ->
  (exists a', ansr_write_byte a 0x41 = Ret 0 a'
     /\ state a' = ANSR_STATE_INPUT
     /\ cursor_y a' = cursor_y a - Z.min (cursor_y a) (u32 (char_to_int p0))
     /\ cursor_x a' = cursor_x a /\ public a' = public a)
  /\ (exists a', ansr_write_byte a 0x42 = Ret 0 a'
     /\ state a' = ANSR_STATE_INPUT
     /\ cursor_y a' = u32 (cursor_y a + char_to_int p0)
     /\ cursor_x a' = cursor_x a /\ public a' = public a)
  /\ (exists a', ansr_write_byte a 0x43 = Ret 0 a'
     /\ state a' = ANSR_STATE_INPUT
     /\ cursor_x a' = u32 (cursor_x a + char_to_int p0)
     /\ cursor_y a' = cursor_y a /\ public a' = public a).
Proof.
  intros Hs Hwf Hacc Hroom Hfin Hy.
  destruct (finalise_spec a Hwf Hacc Hroom)
    as (a1 & Happ & Hn & Hpend & Hle & _ & Hpub & _ & Hd & Hx1 & Hy1 & _).
  rewrite Hfin in Hn, Hpend. cbn [length] in Hn.
  assert (Hp : param a1 0 = Some (char_to_int p0)).
  { rewrite (param_pending a1 0) by lia. rewrite Hpend. reflexivity. }
  assert (Hnz : (n_params a1 =? 0) = false) by lia.
  unfold ansr_write_byte, csi_byte. rewrite Hs.
  change (csi_param_byte a 0x41)
    with (assert_zero (_ansr_params_append_accumulator a)).
  change (csi_param_byte a 0x42)
    with (assert_zero (_ansr_params_append_accumulator a)).
  change (csi_param_byte a 0x43)
    with (assert_zero (_ansr_params_append_accumulator a)).
  rewrite Happ. cbn [assert_zero Z.eqb].
  unfold csi_final_byte. rewrite Hnz, Hp.
  repeat split; eexists; (split; [reflexivity|]); cbn;
    rewrite ?MIN_min, ?Hx1, ?Hy1; repeat split; try assumption.
  apply u32_small. pose proof (Z.mod_pos_bound (char_to_int p0) (2 ^ 32)).
  unfold u32. lia.
Qed.

(** X12.  In the CSI state, with first parameter [p0] once the accumulator
    is appended: 'A' moves the cursor up by [p0] rows, stopping at row 0,
    'B' moves it down and 'C' right by [p0] (as promoted from [char],
    modulo 2^32); the other coordinate and the grid are unchanged and the
    parser is back in the Input state. *)
Theorem cursor_moves_by_first_parameter a p0 rest :
  state a = ANSR_STATE_CSI ->
  params_wf a ->
  accumulator a <= 255 ->
  n_params a < n_params_allocated a \/ alloc_ok (allocs a) = true ->
  finalized a = p0 :: rest ->
  0 <= cursor_y a < 2 ^ 32 ->
  (exists a', ansr_write_byte a 0x41 = Ret 0 a'
     /\ state a' = ANSR_STATE_INPUT
     /\ cursor_y a' = cursor_y a - Z.min (cursor_y a) (u32 (char_to_int p0))
     /\ cursor_x a' = cursor_x a /\ public a' = public a)
  /\ (exists a', ansr_write_byte a 0x42 = Ret 0 a'
     /\ state a' = ANSR_STATE_INPUT
     /\ cursor_y a' = u32 (cursor_y a + char_to_int p0)
     /\ cursor_x a' = cursor_x a /\ public a' = public a)
  /\ (exists a', ansr_write_byte a 0x43 = Ret 0 a'
     /\ state a' = ANSR_STATE_INPUT
     /\ cursor_x a' = u32 (cursor_x a + char_to_int p0)
     /\ cursor_y a' = cursor_y a /\ public a' = public a).
Proof. apply csi_moves. Qed.

(** X13.  ESC '[' directly followed by 'A', 'B' or 'C' does not move the
    cursor: the final byte appends the empty accumulator as parameter 0
    before the dispatch, so the default of 1 is never used. *)
Theorem cursor_move_without_parameter_stays a c :
  state a = ANSR_STATE_CSI ->
  params_wf a ->
  n_params a = 0 -> accumulator a = 0 ->
  n_params a < n_params_allocated a \/ alloc_ok (allocs a) = true ->
  0 <= cursor_y a < 2 ^ 32 -> 0 <= cursor_x a < 2 ^ 32 ->
  c = 0x41 \/ c = 0x42 \/ c = 0x43 ->
  exists a', ansr_write_byte a c = Ret 0 a'
    /\ state a' = ANSR_STATE_INPUT
    /\ cursor_y a' = cursor_y a /\ cursor_x a' = cursor_x a
    /\ public a' = public a.
Proof.
  intros Hs Hwf Hn Hacc Hroom Hy Hx Hc.
  assert (Hfin : finalized a = [0]).
  { unfold finalized, pending. rewrite Hn, Hacc. reflexivity. }
  destruct (csi_moves a 0 [] Hs Hwf ltac:(lia) Hroom Hfin Hy)
    as ((a1 & H1 & Hs1 & Hy1 & Hx1 & Hp1) & (a2 & H2 & Hs2 & Hy2 & Hx2 & Hp2)
        & (a3 & H3 & Hs3 & Hx3 & Hy3 & Hp3)).
  rewrite char_to_int_small in * by lia.
  change (u32 0) with 0 in Hy1.
  rewrite Z.add_0_r, u32_small in Hy2, Hx3 by lia.
  destruct Hc as [-> | [-> | ->]]; eexists; (split; [eassumption|]);
    repeat split; try assumption; lia.
Qed.

Lemma csi_final_byte_unhandled a c :
  in_range 0x40 0x6f c = true -> csi_handled_final c = false ->
  csi_final_byte a c = Ret 0 a.
Proof.
  unfold in_range, csi_handled_final, in_range. intros Hr Hh.
  assert (Hc : 0x40 <= c <= 0x6f) by lia.
  replace c with (0x40 + Z.of_nat (Z.to_nat (c - 0x40))) in Hh |- * by lia.
  assert (Hn : (Z.to_nat (c - 0x40) <= 47)%nat) by lia.
  clear Hr Hc. generalize dependent (Z.to_nat (c - 0x40)). intros n.
  do 48 (destruct n as [|n];
         [intros Hh _; first [reflexivity | exfalso; vm_compute in Hh; discriminate Hh]|]).
  intros _ Hn. lia.
Qed.

(** X14.  A final byte in 0x40-0x6F without a [case] of its own ('@',
    'L', 'h', ...) is accepted, appends the accumulator as a parameter,
    and leaves the parser in the CSI state: the sequence is not ended. *)
Theorem unhandled_final_byte_stays_in_csi a c :
  state a = ANSR_STATE_CSI ->
  params_wf a ->
  accumulator a <= 255 ->
  n_params a < n_params_allocated a \/ alloc_ok (allocs a) = true ->
  in_range 0x40 0x6f c = true ->
  csi_handled_final c = false ->
  exists a',
    ansr_write_byte a c = Ret 0 a'
    /\ state a' = ANSR_STATE_CSI
    /\ pending a' = finalized a
    /\ accumulator a' = 0
    /\ public a' = public a
    /\ cursor_x a' = cursor_x a /\ cursor_y a' = cursor_y a
    /\ disp_state a' = disp_state a.
Proof.
  intros Hs Hwf Hacc Hroom Hr Hh.
  destruct (finalise_spec a Hwf Hacc Hroom)
    as (a1 & Happ & Hn & Hpend & Hle & Ha0 & Hpub & Hst & Hd & Hx1 & Hy1 & _).
  exists a1. split.
  - unfold ansr_write_byte, csi_byte. rewrite Hs.
    rewrite csi_param_byte_finaliser.
    + rewrite Happ. cbn [assert_zero Z.eqb].
      apply csi_final_byte_unhandled; assumption.
    + unfold finaliser, in_range in *. lia.
  - repeat split; try assumption. congruence.
Qed.

(** ** Storing a character *)

Lemma soft_wrap_allocs a : allocs (soft_wrap a) = allocs a.
Proof. unfold soft_wrap. destruct (_ && _); reflexivity. Qed.

Lemma expand_rows_general a :
  alloc_ok (allocs a) = true ->
  allocated_height (public a) = Z.of_nat (length (rows (public a))) ->
  0 <= cursor_y a < 2 ^ 31 ->
  cursor_y a < Z.max 64 (2 * allocated_height (public a)) ->
  exists a1,
    expand_rows a = Ret 0 a1
    /\ same_control a a1
    /\ height (public a1) = height (public a)
    /\ allocated_height (public a1) = Z.of_nat (length (rows (public a1)))
    /\ cursor_y a < allocated_height (public a1)
    /\ allocated_height (public a) <= allocated_height (public a1)
    /\ (forall r, r < allocated_height (public a) ->
          nth_Z (rows (public a1)) r = nth_Z (rows (public a)) r)
    /\ (forall r, allocated_height (public a) <= r < allocated_height (public a1) ->
          nth_Z (rows (public a1)) r = Some None)
    /\ (allocs a1 = allocs a \/ allocs a1 = S (allocs a)).
Proof.
  intros Hok Hlen Hy Hcap. unfold expand_rows, request. rewrite Hok.
  destruct (Z.geb_spec (cursor_y a) (allocated_height (public a))) as [Hge | Hlt].
  - rewrite MAX_spec. unfold ANSR_MIN_ALLOC_ROWS.
    rewrite (u32_small (allocated_height (public a) * 2)) by lia.
    set (nh := Z.max 64 (allocated_height (public a) * 2)).
    destruct (Z.ltb_spec nh (allocated_height (public a))); [lia|].
    eexists. split; [reflexivity|]. unfold same_control. cbn.
    rewrite take_ge by lia.
    rewrite length_app, length_replicate.
    repeat split; try lia.
    * intros r Hr. apply nth_Z_app_l. lia.
    * intros r Hr. apply nth_Z_app_replicate. lia.
  - exists a. unfold same_control. repeat split; lia.
Qed.

Lemma expand_cols_general a ro :
  alloc_ok (allocs a) = true ->
  nth_Z (rows (public a)) (cursor_y a) = Some ro ->
  0 <= cursor_x a < 2 ^ 31 ->
  (forall row, ro = Some row ->
     allocated_width row = Z.of_nat (length (cols row))) ->
  cursor_x a
    < Z.max (2 * match ro with Some row => allocated_width row | None => 0 end) 80 ->
  exists a2 row',
    expand_cols a = Ret 0 a2
    /\ same_control a a2
    /\ height (public a2) = height (public a)
    /\ allocated_height (public a2) = allocated_height (public a)
    /\ rows (public a2) = <[Z.to_nat (cursor_y a) := Some row']> (rows (public a))
    /\ width row' = match ro with Some row => width row | None => 0 end
    /\ allocated_width row' = Z.of_nat (length (cols row'))
    /\ cursor_x a < allocated_width row'
    /\ match ro with Some row => allocated_width row | None => 0 end
       <= allocated_width row'
    /\ (forall row j, ro = Some row -> j < allocated_width row ->
          nth_Z (cols row') j = nth_Z (cols row) j).
Proof.
  intros Hok Hro Hx Hrow Hcap. unfold expand_cols, request. rewrite Hro, Hok.
  apply nth_Z_Some in Hro as [Hy Hlk].
  destruct ro as [row|].
  - pose proof (Hrow row eq_refl) as Haw.
    destruct (Z.geb_spec (cursor_x a) (allocated_width row)) as [Hge | Hlt].
    + rewrite MAX_spec. unfold ANSR_MIN_ALLOC_COLS.
      rewrite (u64_small (allocated_width row * 2)) by lia.
      set (nw := Z.max (allocated_width row * 2) 80).
      rewrite (u32_small nw) by lia.
      eexists. eexists. split; [reflexivity|]. unfold same_control. cbn.
      rewrite take_ge by lia.
      repeat split; cbn; rewrite ?length_app, ?length_replicate; try lia.
      intros row0 j [= <-] Hj. apply nth_Z_app_l. lia.
    + exists a, row. unfold same_control.
      rewrite list_insert_id by exact Hlk.
      repeat split; try lia. intros row0 j [= <-] _. reflexivity.
  - rewrite MAX_spec. unfold ANSR_MIN_ALLOC_COLS.
    change (u64 (0 * 2) `max` 80) with 80. change (u32 80) with 80.
    eexists. eexists. split; [reflexivity|]. unfold same_control. cbn.
    repeat split; cbn; rewrite ?length_replicate; try lia. intros row0 j [=].
Qed.

(** X15.  When the cursor (after the soft wrap) lies within what one
    doubling of the row array and of the row reaches, and both requests
    are granted, [_ansr_add_char] returns 0, stores the byte with the
    current display state at the cursor, advances the column by one,
    keeps every other cell, never shrinks a capacity, sets the height to
    at least the cursor row plus one, and keeps the recorded allocation
    sizes exact. *)
Theorem add_char_stores_and_preserves a c :
  let y := cursor_y (soft_wrap a) in
  let x := cursor_x (soft_wrap a) in
  alloc_ok (allocs a) = true -> alloc_ok (S (allocs a)) = true ->
  grid_ok a ->
  0 <= y < 2 ^ 31 -> 0 <= x < 2 ^ 31 ->
  y < Z.max 64 (2 * allocated_height (public a)) ->
  x < Z.max (2 * row_capacity a y) 80 ->
  exists a',
    _ansr_add_char a c = Ret 0 a'
    /\ cursor_y a' = y /\ cursor_x a' = x + 1
    /\ cell_at a' y x = Some {| code := c; ch_disp_state := disp_state a |}
    /\ (forall r k v, cell_at a r k = Some v -> (r, k) <> (y, x) ->
          cell_at a' r k = Some v)
    /\ y < allocated_height (public a')
    /\ allocated_height (public a) <= allocated_height (public a')
    /\ x < row_capacity a' y
    /\ row_capacity a y <= row_capacity a' y
    /\ height (public a') = Z.max (height (public a)) (y + 1)
    /\ grid_ok a'.
Proof.
  intros y x Hok1 Hok2 [Hah Hrowsok] Hy Hx Hycap Hxcap.
  pose proof (soft_wrap_public a) as Hp0.
  pose proof (soft_wrap_parser a) as (_ & Hd0 & _).
  pose proof (soft_wrap_allocs a) as Hal0.
  unfold _ansr_add_char.
  remember (soft_wrap a) as a0 eqn:Ha0.
  subst y x. remember (cursor_y a0) as y eqn:Hydef.
  remember (cursor_x a0) as x eqn:Hxdef.
  destruct (expand_rows_general a0)
    as (a1 & -> & Hctl1 & Hh1 & Hah1 & Hy1 & Hmono1 & Hold1 & Hnew1 & Hal1);
    [rewrite Hal0; exact Hok1 | rewrite Hp0; exact Hah | lia | rewrite Hp0; lia |].
  rewrite Hp0 in Hh1, Hold1, Hnew1, Hmono1. rewrite <- Hydef in Hy1.
  destruct Hctl1 as (Hst1 & Hd1 & Hx1 & Hyy1 & Hc1).
  destruct (bump_height_facts a1) as (Hr1' & Hah1' & Hctl1' & Halb & Hh1');
    [rewrite Hyy1; lia | rewrite Hyy1; lia |].
  destruct Hctl1' as (Hst1' & Hd1' & Hx1' & Hyy1' & Hc1').
  remember (bump_height a1) as b eqn:Hb.
  assert (Hyb : cursor_y b = y) by congruence.
  assert (Hxb : cursor_x b = x) by congruence.
  assert (Hylen : 0 <= y < Z.of_nat (length (rows (public b)))).
  { rewrite Hr1'. lia. }
  (* the row pointer under the cursor *)
  destruct (nth_Z (rows (public b)) y) as [ro|] eqn:Hro.
  2:{ apply nth_Z_None in Hro. lia. }
  assert (Hcap : match ro with Some row => allocated_width row | None => 0 end
                 = row_capacity a y).
  { unfold row_capacity, row_at. rewrite Hr1' in Hro.
    destruct (Z.lt_ge_cases y (allocated_height (public a))) as [Hlt | Hge].
    - rewrite Hold1 in Hro by lia. rewrite Hro. destruct ro; reflexivity.
    - rewrite Hnew1 in Hro by lia. injection Hro as <-.
      destruct (nth_Z (rows (public a)) y) as [[row|]|] eqn:Hn; try reflexivity.
      apply nth_Z_Some in Hn. lia. }
  assert (Hroa : forall row, ro = Some row ->
                   nth_Z (rows (public a)) y = Some (Some row)).
  { intros row ->. rewrite Hr1' in Hro.
    destruct (Z.lt_ge_cases y (allocated_height (public a))) as [Hlt | Hge].
    - rewrite Hold1 in Hro by lia. exact Hro.
    - rewrite Hnew1 in Hro by lia. discriminate. }
  destruct (expand_cols_general b ro) as
    (a2 & row' & -> & Hctl2 & Hh2 & Hah2 & Hr2 & Hw2 & Haw2 & Hx2 & Hmono2 & Hkeep).
  { destruct Hal1 as [E | E]; rewrite Halb, E, Hal0; assumption. }
  { rewrite Hyb. exact Hro. }
  { rewrite Hxb. lia. }
  { intros row Hrow. apply (Hrowsok y). apply Hroa. exact Hrow. }
  { rewrite Hxb, Hcap. exact Hxcap. }
  destruct Hctl2 as (Hst2 & Hd2 & Hxx2 & Hyy2 & Hc2).
  rewrite Hyb in Hr2. rewrite Hxb in Hx2.
  assert (Hya2 : cursor_y a2 = y) by congruence.
  assert (Hxa2 : cursor_x a2 = x) by congruence.
  rewrite (store_char_ok a2 row').
  2:{ rewrite Hya2, Hr2. apply nth_Z_insert_eq. exact Hylen. }
  2:{ rewrite Hxa2. lia. }
  2:{ rewrite Hxa2. lia. }
  eexists. split; [reflexivity|].
  assert (Hrow3 : forall rws,
    nth_Z (<[Z.to_nat y := Some rws]> (rows (public b))) y = Some (Some rws)).
  { intros rws. apply nth_Z_insert_eq. exact Hylen. }
  unfold cell_at, row_at, row_capacity, row_at, grid_ok. cbn.
  rewrite Hya2, Hxa2, Hr2, list_insert_insert_eq, length_insert, Hr1'.
  rewrite <- Hr1', Hrow3. cbn.
  rewrite Hr1'.
  split; [reflexivity|]. split; [reflexivity|].
  split. { rewrite nth_Z_insert_eq by lia. congruence. }
  split.
  { intros r k v Hv Hne.
    destruct (nth_Z (rows (public a)) r) as [[row|]|] eqn:Hr; try discriminate.
    assert (Hra : 0 <= r < allocated_height (public a)).
    { apply nth_Z_Some in Hr. lia. }
    destruct (Z.eq_dec r y) as [-> | Hry].
    - rewrite <- Hr1', Hrow3. cbn.
      assert (Hkx : k <> x) by congruence.
      rewrite nth_Z_insert_ne by lia.
      assert (Hro' : ro = Some row).
      { rewrite Hr1', Hold1, Hr in Hro by lia. congruence. }
      rewrite (Hkeep row k Hro'); [exact Hv|].
      apply nth_Z_Some in Hv. rewrite (Hrowsok y row Hr). lia.
    - rewrite nth_Z_insert_ne by lia. rewrite Hold1 by lia. rewrite Hr. exact Hv. }
  split; [lia|]. split; [lia|]. split; [lia|].
  split. { unfold row_capacity, row_at in Hcap. rewrite <- Hcap. lia. }
  split. { rewrite Hh2, Hh1', Hh1, Hyy1. lia. }
  split. { congruence. }
  intros r row Hr.
  apply nth_Z_insert in Hr; [|lia]. destruct Hr as [[-> [= ->]] | Hr].
  - cbn. rewrite length_insert. exact Haw2.
  - pose proof Hr as Hr'. apply nth_Z_Some in Hr' as [Hrr _].
    destruct (Z.lt_ge_cases r (allocated_height (public a))) as [Hlt | Hge].
    + rewrite Hold1 in Hr by lia. apply (Hrowsok r). exact Hr.
    + rewrite Hnew1 in Hr by lia. discriminate.
Qed.

(** X16.  When the cursor row is at or beyond MAX(64, 2 * allocated
    height), [_ansr_add_char] grows the row array to that size only,
    sets the height to the cursor row plus one, which is more than what
    is allocated, and then indexes the array at the cursor row, outside
    of it. *)
Theorem add_char_overruns_row_array a c :
  let y := cursor_y (soft_wrap a) in
  alloc_ok (allocs a) = true ->
  allocated_height (public a) = Z.of_nat (length (rows (public a))) ->
  0 <= y < 2 ^ 31 ->
  Z.max 64 (2 * allocated_height (public a)) <= y ->
  exists a',
    _ansr_add_char a c = Undef a'
    /\ allocated_height (public a') = Z.max 64 (2 * allocated_height (public a))
    /\ Z.of_nat (length (rows (public a'))) = allocated_height (public a')
    /\ cursor_y a' = y
    /\ height (public a') = Z.max (height (public a)) (y + 1)
    /\ allocated_height (public a') < height (public a').
Proof.
  intros y Hok Hah Hy Hfar.
  pose proof (soft_wrap_public a) as Hp0.
  pose proof (soft_wrap_allocs a) as Hal0.
  unfold _ansr_add_char, expand_rows, request.
  subst y. remember (soft_wrap a) as a0 eqn:Ha0.
  rewrite Hal0, Hok, Hp0.
  destruct (Z.geb_spec (cursor_y a0) (allocated_height (public a))); [|lia].
  rewrite MAX_spec. unfold ANSR_MIN_ALLOC_ROWS.
  rewrite (u32_small (allocated_height (public a) * 2)) by lia.
  replace (allocated_height (public a) * 2) with (2 * allocated_height (public a)) by lia.
  set (nh := Z.max 64 (2 * allocated_height (public a))) in *.
  destruct (Z.ltb_spec nh (allocated_height (public a))); [lia|].
  unfold bump_height. cbn [cursor_y set_public public height set_rows
    set_allocated_height set_allocs].
  destruct (Z.geb_spec (cursor_y a0) (height (public a))).
  - unfold expand_cols. cbn [public set_public set_height rows set_rows
      set_allocated_height cursor_y set_allocs].
    destruct (nth_Z _ (cursor_y a0)) eqn:Hn.
    { apply nth_Z_Some in Hn as [Hn _].
      rewrite length_app, length_take, length_replicate in Hn. lia. }
    eexists. split; [reflexivity|]. cbn.
    rewrite length_app, length_take, length_replicate, u32_small by lia.
    repeat split; lia.
  - unfold expand_cols. cbn [public set_public set_height rows set_rows
      set_allocated_height cursor_y set_allocs].
    destruct (nth_Z _ (cursor_y a0)) eqn:Hn.
    { apply nth_Z_Some in Hn as [Hn _].
      rewrite length_app, length_take, length_replicate in Hn. lia. }
    eexists. split; [reflexivity|]. cbn.
    rewrite length_app, length_take, length_replicate.
    repeat split; lia.
Qed.

(** X17.  When the row array has to grow and [realloc] fails,
    [_ansr_add_char] returns -ENOMEM with the grid untouched, and
    [ansr_write] ignores it: the byte is dropped, the call goes on with
    the next byte and reports nothing. *)
Theorem write_drops_char_when_rows_cannot_grow a c :
  state a = ANSR_STATE_INPUT ->
  is_text c = true ->
  alloc_ok (allocs a) = false ->
  allocated_height (public a) <= cursor_y (soft_wrap a) ->
  let a' := set_allocs (S (allocs a)) (soft_wrap a) in
  _ansr_add_char a c = Ret (- ENOMEM) a'
  /\ ansr_write_byte a c = Ret 0 a'
  /\ public a' = public a
  /\ forall rest, ansr_write a (c :: rest) = ansr_write a' rest.
Proof.
  intros Hs Hc Hok Hge a'.
  assert (Hadd : _ansr_add_char a c = Ret (- ENOMEM) a').
  { unfold _ansr_add_char, expand_rows, request.
    rewrite soft_wrap_allocs, Hok, soft_wrap_public.
    destruct (Z.geb_spec (cursor_y (soft_wrap a)) (allocated_height (public a)));
      [|lia].
    reflexivity. }
  assert (Hbyte : ansr_write_byte a c = Ret 0 a').
  { unfold ansr_write_byte. rewrite Hs, input_byte_text, Hadd by exact Hc.
    reflexivity. }
  split; [exact Hadd|]. split; [exact Hbyte|].
  split; [apply soft_wrap_public|].
  intros rest. cbn [ansr_write]. rewrite Hbyte. reflexivity.
Qed.

(** ** The parameter buffer, control bytes and rejected bytes *)

Lemma params_within_same k a a' :
  params a' = params a /\ n_params a' = n_params a
  /\ n_params_allocated a' = n_params_allocated a ->
  params_within k a -> params_within (k + 1) a'.
Proof.
  intros (Hp & Hn & Hna) (H1 & H2 & H3 & H4).
  unfold params_within. rewrite Hp, Hn, Hna. repeat split; lia.
Qed.

Lemma params_within_untouched k a a' :
  parser_untouched a a' -> params_within k a -> params_within (k + 1) a'.
Proof.
  intros (_ & _ & _ & Hp & Hn & Hna & _). apply params_within_same. auto.
Qed.

Lemma params_append_within k a p :
  k + 1 < 2 ^ 61 ->
  params_within k a ->
  params_within (k + 1) (final_state (_ansr_params_append a p)).
Proof.
  intros Hk (H1 & H2 & H3 & H4).
  unfold _ansr_params_append, request.
  rewrite (u64_small (n_params a + 1)) by lia.
  destruct (Z.gtb_spec (n_params a + 1) (n_params_allocated a)) as [Hfull | Hfree].
  - destruct (alloc_ok (allocs a)).
    + rewrite (u64_small (n_params_allocated a * 2)) by lia.
      rewrite MAX_spec. unfold ANSR_MIN_ALLOC_PARAMS.
      cbn [n_params params set_params set_n_params_allocated set_allocs].
      rewrite length_resize.
      destruct (Z.leb_spec 0 (n_params a)); [|lia].
      destruct (Z.ltb_spec (n_params a)
                  (Z.of_nat (Z.to_nat (Z.max 2 (n_params_allocated a * 2)))));
        [|lia].
      cbn. unfold params_within. cbn.
      rewrite length_insert, length_resize, u64_small by lia.
      repeat split; lia.
    + change (- ENOMEM) with (Zneg 12). cbn. unfold params_within. cbn.
      repeat split; lia.
  - destruct (Z.leb_spec 0 (n_params a)); [|lia].
    destruct (Z.ltb_spec (n_params a) (Z.of_nat (length (params a)))); [|lia].
    cbn. unfold params_within. cbn.
    rewrite length_insert, u64_small by lia.
    repeat split; lia.
Qed.

Lemma params_append_accumulator_within k a :
  k + 1 < 2 ^ 61 ->
  params_within k a ->
  params_within (k + 1) (final_state (_ansr_params_append_accumulator a)).
Proof.
  intros Hk Ha. unfold _ansr_params_append_accumulator.
  destruct (_ >? _).
  - apply (params_within_untouched k a a); [apply parser_untouched_refl | exact Ha].
  - pose proof (params_append_within k a (to_char (accumulator a)) Hk Ha) as Hp.
    destruct (_ansr_params_append a _) as [rc a1| |]; cbn in *; try exact Hp.
    destruct rc; exact Hp.
Qed.

Lemma csi_final_byte_params a c :
  params (final_state (csi_final_byte a c)) = params a
  /\ n_params (final_state (csi_final_byte a c)) = n_params a
  /\ n_params_allocated (final_state (csi_final_byte a c)) = n_params_allocated a.
Proof.
  destruct (sgr_shape a) as [d' Hsgr].
  unfold csi_final_byte.
  destruct c as [|p|p]; try (repeat split; reflexivity);
  repeat first
    [ solve [repeat split; reflexivity]
    | match goal with
      | |- context [if ?b then _ else _] => destruct b
      | |- context [param ?a ?i] => destruct (param a i)
      | |- context [match _ansr_sgr a with _ => _ end] =>
          destruct (_ansr_sgr a); cbn in Hsgr |- *; subst;
          repeat split; reflexivity
      end
    | destruct p as [p|p|] ].
Qed.

Lemma write_byte_params_within k a c :
  k + 1 < 2 ^ 61 ->
  params_within k a ->
  params_within (k + 1) (final_state (ansr_write_byte a c)).
Proof.
  intros Hk Ha. unfold ansr_write_byte.
  destruct (state a).
  - destruct (is_text c) eqn:Ht.
    + rewrite input_byte_text by exact Ht.
      pose proof (add_char_parser a c) as Hp.
      apply (params_within_untouched k a); [|exact Ha].
      destruct (_ansr_add_char a c); exact Hp.
    + apply (params_within_same k a); [|exact Ha].
      unfold is_text in Ht.
      assert (Hv : c = 0x7 \/ c = 0x8 \/ c = 0x9 \/ c = 0x0a \/ c = 0x0c
                   \/ c = 0x0d \/ c = 0x1a \/ c = 0x1b \/ c = 0x7f) by lia.
      repeat (destruct Hv as [-> | Hv];
              [unfold input_byte; cbn; try destruct (_ >? _);
               repeat split; reflexivity|]).
      subst. repeat split; reflexivity.
  - apply (params_within_untouched k a a); [apply parser_untouched_refl | exact Ha].
  - destruct Ha as (H1 & H2 & H3 & H4).
    unfold escape_byte, params_within.
    destruct c as [|p|p]; cbn; try (repeat split; lia);
    repeat first [ solve [cbn; repeat split; lia] | destruct p as [p|p|] ].
  - unfold csi_byte.
    assert (Hp : params_within (k + 1) (final_state (csi_param_byte a c))).
    { unfold csi_param_byte.
      repeat match goal with
             | |- context [if ?b then _ else _] => destruct b
             end;
        rewrite ?assert_zero_state;
        first [ apply params_append_accumulator_within; assumption
              | apply (params_within_same k a);
                [repeat split; reflexivity | exact Ha] ]. }
    destruct (csi_param_byte a c) as [rc a1| |]; cbn [final_state] in *;
      try exact Hp.
    destruct (csi_final_byte_params a1 c) as (E1 & E2 & E3).
    unfold params_within. rewrite E1, E2, E3. exact Hp.
Qed.

Lemma write_params_within input : forall k a,
  k + Z.of_nat (length input) < 2 ^ 61 ->
  params_within k a ->
  params_within (k + Z.of_nat (length input)) (final_state (ansr_write a input)).
Proof.
  induction input as [|c rest IH]; intros k a Hk Ha.
  - cbn [ansr_write final_state length].
    replace (k + Z.of_nat 0) with k by lia. exact Ha.
  - cbn [length] in *. cbn [ansr_write].
    pose proof (write_byte_params_within k a c ltac:(lia) Ha) as Hb.
    assert (Hmono : forall a', params_within (k + 1) a' ->
              params_within (k + Z.of_nat (S (length rest))) a').
    { intros a' (H1 & H2 & H3 & H4). unfold params_within. repeat split; lia. }
    destruct (ansr_write_byte a c) as [rc a1| |]; cbn [final_state] in *;
      [|apply Hmono; exact Hb|apply Hmono; exact Hb].
    replace (k + Z.of_nat (S (length rest)))
      with (k + 1 + Z.of_nat (length rest)) by lia.
    apply IH; [lia | exact Hb].
Qed.

(** X18.  Whatever bytes a fresh renderer is fed (fewer than 2^61), and
    however the feed ends, the parameter count stays within the
    parameter buffer, whose recorded size is its real size and at most
    twice the number of bytes fed, and every parameter below the count
    can be read. *)
Theorem params_buffer_never_overrun conf0 input :
  Z.of_nat (length input) < 2 ^ 61 ->
  let a' := final_state (ansr_write (blank conf0) input) in
  0 <= n_params a' <= n_params_allocated a'
  /\ n_params_allocated a' = Z.of_nat (length (params a'))
  /\ n_params_allocated a' <= Z.max 2 (2 * Z.of_nat (length input))
  /\ forall i, 0 <= i < n_params a' -> is_Some (param a' i).
Proof.
  intros Hlen a'.
  destruct (write_params_within input 0 (blank conf0)) as (H1 & H2 & H3 & H4).
  { lia. }
  { unfold params_within. cbn. lia. }
  fold a' in H1, H2, H3, H4. rewrite Z.add_0_l in *.
  repeat split; try lia.
  intros i Hi. unfold param, nth_Z.
  destruct (Z.leb_spec 0 i); [|lia].
  destruct (Z.ltb_spec i (Z.of_nat (length (params a')))); [|lia].
  cbn [andb]. destruct (params a' !! Z.to_nat i) eqn:E; [eexists; reflexivity|].
  apply lookup_ge_None in E. lia.
Qed.

(** X19.  [n] backspaces in the Input state move the cursor [n] columns to
    the left and stop at column 0; nothing else changes. *)
Theorem backspaces_stop_at_column_zero a n :
  state a = ANSR_STATE_INPUT ->
  0 <= cursor_x a ->
  ansr_write a (replicate n 0x8)
  = Ret 0 (set_cursor_x (Z.max 0 (cursor_x a - Z.of_nat n)) a).
Proof.
  revert a. induction n as [|n IH]; intros a Hs Hx.
  - cbn. rewrite Z.sub_0_r, Z.max_r by lia. f_equal. destruct a; reflexivity.
  - cbn [replicate ansr_write]. unfold ansr_write_byte. rewrite Hs.
    cbn [input_byte].
    destruct (Z.gtb_spec (cursor_x a) 0) as [Hpos | Hzero].
    + rewrite IH by (cbn; first [exact Hs | lia]).
      cbn. replace (cursor_x a - 1 - Z.of_nat n)
        with (cursor_x a - Z.of_nat (S n)) by lia.
      destruct a; reflexivity.
    + rewrite IH by assumption.
      f_equal. f_equal. lia.
Qed.

Lemma add_char_never_aborts a c a' : _ansr_add_char a c <> Abort a'.
Proof.
  unfold _ansr_add_char, expand_rows, expand_cols, store_char, request.
  repeat match goal with
         | |- context [if ?b then _ else _] => destruct b
         | |- context [match nth_Z ?l ?i with _ => _ end] =>
             destruct (nth_Z l i) as [[?|]|]
         | |- context [match ?o with Some _ => _ | None => _ end] => destruct o
         end; cbn; try discriminate;
  repeat match goal with
         | |- context [if ?b then _ else _] => destruct b
         | |- context [match nth_Z ?l ?i with _ => _ end] =>
             destruct (nth_Z l i) as [[?|]|]
         | |- context [match ?o with Some _ => _ | None => _ end] => destruct o
         end; cbn; discriminate.
Qed.

(** X20.  In the Input state exactly HT (0x09) and FF (0x0C) end in
    [assert(0)]; in the Escape state every byte but '[' does; in the EOF
    state every byte is accepted and ignored. *)
Theorem fatal_bytes_outside_csi a c :
  (state a = ANSR_STATE_INPUT ->
     ((exists a', ansr_write_byte a c = Abort a') <-> c = 0x9 \/ c = 0x0c))
  /\ (state a = ANSR_STATE_ESCAPE ->
     ((exists a', ansr_write_byte a c = Abort a') <-> c <> 0x5b))
  /\ (state a = ANSR_STATE_EOF -> ansr_write_byte a c = Ret 0 a).
Proof.
  unfold ansr_write_byte.
  split; [|split]; intros Hs; rewrite Hs; [split| split |reflexivity].
  - intros [a' Ha'].
    destruct (is_text c) eqn:Ht.
    + rewrite input_byte_text in Ha' by exact Ht.
      pose proof (add_char_never_aborts a c a') as Hn.
      destruct (_ansr_add_char a c); congruence.
    + unfold is_text in Ht.
      assert (Hv : c = 0x7 \/ c = 0x8 \/ c = 0x9 \/ c = 0x0a \/ c = 0x0c
                   \/ c = 0x0d \/ c = 0x1a \/ c = 0x1b \/ c = 0x7f) by lia.
      clear Ht.
      repeat (destruct Hv as [-> | Hv];
              [first [lia | exfalso; cbn in Ha';
                            repeat match type of Ha' with
                                   | context [if ?b then _ else _] => destruct b
                                   end; discriminate Ha']|]).
      subst. discriminate Ha'.
  - intros [-> | ->]; eexists; reflexivity.
  - intros [a' Ha'] ->. discriminate Ha'.
  - intros Hc. exists a. unfold escape_byte.
    destruct c as [|p|p]; try reflexivity.
    repeat first [ reflexivity | exfalso; apply Hc; reflexivity
                 | destruct p as [p|p|] ].
Qed.

(** X21.  In the CSI state a byte that is neither a digit, ';' nor a
    final byte (0x40-0x7E) ends in [assert(0)] with the renderer
    unchanged, and the final bytes 'D', 'E', 'F', 'I', 'K', 'S', 'T' and
    'f' never return. *)
Theorem csi_rejected_bytes a c :
  state a = ANSR_STATE_CSI ->
  (csi_accepted_byte c = false -> ansr_write_byte a c = Abort a)
  /\ (csi_unsupported_final c = true ->
      forall rc a', ansr_write_byte a c <> Ret rc a').
Proof.
  intros Hs. unfold ansr_write_byte, csi_byte. rewrite Hs. split.
  - unfold csi_accepted_byte, csi_param_byte, in_range. intros Hc.
    repeat match goal with
           | |- context [(?x <=? c) && (c <=? ?y)] =>
               destruct (Z.leb_spec x c); destruct (Z.leb_spec c y);
               try lia; cbn [andb orb]
           | |- context [c =? ?y] => destruct (Z.eqb_spec c y); try lia
           end; reflexivity.
  - unfold csi_unsupported_final, in_range. intros Hc rc a'.
    assert (Hv : c = 0x44 \/ c = 0x45 \/ c = 0x46 \/ c = 0x49 \/ c = 0x4b
                 \/ c = 0x53 \/ c = 0x54 \/ c = 0x66) by lia.
    destruct (csi_param_byte a c) as [rc1 a1| |]; try discriminate.
    repeat (destruct Hv as [-> | Hv]; [discriminate|]). subst. discriminate.
Qed.

(** ** Whole sequences: cursor position *)

Lemma csi_sequence_head a ds :
  state a = ANSR_STATE_INPUT ->
  Forall (fun c => is_digit c = true) ds ->
  ansr_write a ([0x1b; 0x5b] ++ ds)
  = Ret 0 (set_accumulator (decimal 0 ds mod 2 ^ 32) (csi_entered a)).
Proof.
  intros Hs Hds. cbn [app ansr_write].
  unfold ansr_write_byte at 1. rewrite Hs. cbn [input_byte].
  unfold ansr_write_byte at 1. cbn [state set_state escape_byte].
  exact (digits_accumulate_aux (csi_entered a) ds eq_refl
           ltac:(cbn; lia) Hds).
Qed.

Lemma finalise_alloc a :
  params_wf a ->
  accumulator a <= 255 ->
  n_params a < n_params_allocated a \/ alloc_ok (allocs a) = true ->
  let a1 := final_state (_ansr_params_append_accumulator a) in
  n_params_allocated a1 = Z.of_nat (length (params a1))
  /\ (n_params a < n_params_allocated a ->
      n_params_allocated a1 = n_params_allocated a /\ allocs a1 = allocs a)
  /\ (n_params_allocated a <= n_params a ->
      n_params_allocated a1 = Z.max 2 (2 * n_params_allocated a)).
Proof.
  intros (Hn & Hlen & Hbig) Hacc Hroom.
  unfold _ansr_params_append_accumulator.
  destruct (Z.gtb_spec (accumulator a) 255); [lia|].
  unfold _ansr_params_append.
  rewrite (u64_small (n_params a + 1)) by lia.
  destruct (Z.gtb_spec (n_params a + 1) (n_params_allocated a)) as [Hfull | Hfree].
  - destruct Hroom as [Hlt | Hok]; [lia|].
    unfold request. rewrite Hok.
    rewrite (u64_small (n_params_allocated a * 2)) by lia.
    rewrite MAX_spec. unfold ANSR_MIN_ALLOC_PARAMS.
    cbn [n_params params set_params set_n_params_allocated set_allocs set_n_params].
    rewrite length_resize.
    destruct (Z.leb_spec 0 (n_params a)); [|lia].
    destruct (Z.ltb_spec (n_params a)
                (Z.of_nat (Z.to_nat (Z.max 2 (n_params_allocated a * 2))))); [|lia].
    cbn. rewrite length_insert, length_resize. repeat split; lia.
  - destruct (Z.leb_spec 0 (n_params a)); [|lia].
    destruct (Z.ltb_spec (n_params a) (Z.of_nat (length (params a)))); [|lia].
    cbn. rewrite length_insert. repeat split; lia.
Qed.

Lemma to_char_small v : 0 <= v <= 255 -> to_char v = v.
Proof. intros Hv. unfold to_char. apply Z.mod_small. lia. Qed.

Lemma decimal_mod_range ds : 0 <= decimal 0 ds mod 2 ^ 32 < 2 ^ 32.
Proof. apply Z.mod_pos_bound. lia. Qed.

(** After ESC [ digits ';' one parameter is pending. *)
Lemma csi_first_parameter a ds :
  state a = ANSR_STATE_INPUT ->
  params_room 1 a ->
  Forall (fun c => is_digit c = true) ds ->
  decimal 0 ds mod 2 ^ 32 <= 255 ->
  exists a',
    ansr_write a ([0x1b; 0x5b] ++ ds ++ [0x3b]) = Ret 0 a'
    /\ state a' = ANSR_STATE_CSI
    /\ pending a' = [decimal 0 ds mod 2 ^ 32]
    /\ n_params a' = 1
    /\ accumulator a' = 0
    /\ public a' = public a
    /\ cursor_x a' = cursor_x a /\ cursor_y a' = cursor_y a
    /\ disp_state a' = disp_state a
    /\ n_params_allocated a' = Z.of_nat (length (params a'))
    /\ (1 <= n_params_allocated a ->
        n_params_allocated a' = n_params_allocated a /\ allocs a' = allocs a)
    /\ (n_params_allocated a = 0 -> n_params_allocated a' = 2).
Proof.
  intros Hs (Hlen & Hbig & Hroom) Hds Hval.
  rewrite app_assoc.
  rewrite (ansr_write_resume a _ [0x3b] _ (csi_sequence_head a ds Hs Hds)).
  set (a1 := set_accumulator (decimal 0 ds mod 2 ^ 32) (csi_entered a)).
  assert (Hwf : params_wf a1) by (unfold params_wf; cbn; lia).
  assert (Hacc : accumulator a1 <= 255) by exact Hval.
  assert (Hr : n_params a1 < n_params_allocated a1 \/ alloc_ok (allocs a1) = true).
  { cbn. destruct Hroom; [left; lia | right; assumption]. }
  destruct (finalise_spec a1 Hwf Hacc Hr)
    as (a2 & Happ & Hn & Hpend & Hle & Ha0 & Hpub & Hst & Hd & Hx1 & Hy1 & _).
  pose proof (finalise_alloc a1 Hwf Hacc Hr) as (Hl2 & Hkeep & Hgrow).
  rewrite Happ in Hl2, Hkeep, Hgrow. cbn [final_state] in Hl2, Hkeep, Hgrow.
  exists a2. split.
  - cbn [ansr_write]. unfold ansr_write_byte, csi_byte.
    change (state a1) with ANSR_STATE_CSI. cbn iota.
    change (csi_param_byte a1 0x3b)
      with (assert_zero (_ansr_params_append_accumulator a1)).
    rewrite Happ. reflexivity.
  - pose proof (decimal_mod_range ds).
    assert (Hfin : finalized a1 = [decimal 0 ds mod 2 ^ 32]).
    { unfold finalized, pending. cbn. rewrite to_char_small by lia. reflexivity. }
    rewrite Hfin in Hn, Hpend. cbn in Hn.
    repeat split; try assumption; try lia.
    + apply Hkeep. cbn. lia.
    + apply Hkeep. cbn. lia.
    + intros Hzero. rewrite Hgrow by (cbn; lia). cbn. lia.
Qed.

(** X22.  From the Input state, ESC '[', a run of digits of value at most
    255 and ';' leave the parser in the CSI state with exactly that value
    as the one collected parameter and the accumulator cleared; grid,
    cursor and display state are unchanged. *)
Theorem csi_parameter_is_parsed a ds :
  state a = ANSR_STATE_INPUT ->
  params_room 1 a ->
  Forall (fun c => is_digit c = true) ds ->
  decimal 0 ds mod 2 ^ 32 <= 255 ->
  exists a',
    ansr_write a ([0x1b; 0x5b] ++ ds ++ [0x3b]) = Ret 0 a'
    /\ state a' = ANSR_STATE_CSI
    /\ pending a' = [decimal 0 ds mod 2 ^ 32]
    /\ accumulator a' = 0
    /\ public a' = public a
    /\ cursor_x a' = cursor_x a /\ cursor_y a' = cursor_y a
    /\ disp_state a' = disp_state a.
Proof.
  intros Hs Hroom Hds Hval.
  destruct (csi_first_parameter a ds Hs Hroom Hds Hval)
    as (a' & Hw & Hst & Hp & _ & Hacc & Hpub & Hx & Hy & Hd & _).
  exists a'. repeat split; assumption.
Qed.

(** X23.  From the Input state, ESC '[' row ';' column 'H' with both
    values at most 255 returns to the Input state with the cursor at
    (row - 1, column - 1), computed on the values as promoted from [char]
    and reduced modulo 2^32; for values in 1..127 that is the plain
    difference.  Grid and display state are unchanged. *)
Theorem cup_sequence_positions_cursor a rs cs :
  let r := decimal 0 rs mod 2 ^ 32 in
  let c := decimal 0 cs mod 2 ^ 32 in
  state a = ANSR_STATE_INPUT ->
  params_room 2 a ->
  Forall (fun b => is_digit b = true) rs ->
  Forall (fun b => is_digit b = true) cs ->
  r <= 255 -> c <= 255 ->
  exists a',
    ansr_write a ([0x1b; 0x5b] ++ rs ++ [0x3b] ++ cs ++ [0x48]) = Ret 0 a'
    /\ state a' = ANSR_STATE_INPUT
    /\ cursor_y a' = u32 (char_to_int r - 1)
    /\ cursor_x a' = u32 (char_to_int c - 1)
    /\ (1 <= r <= 127 -> cursor_y a' = r - 1)
    /\ (1 <= c <= 127 -> cursor_x a' = c - 1)
    /\ public a' = public a /\ disp_state a' = disp_state a.
Proof.
  intros r c Hs (Hlen & Hbig & Hroom) Hrs Hcs Hr Hc.
  pose proof (decimal_mod_range rs) as Hr0. fold r in Hr0.
  pose proof (decimal_mod_range cs) as Hc0. fold c in Hc0.
  destruct (csi_first_parameter a rs Hs) as
    (a1 & Hw1 & Hst1 & Hp1 & Hn1 & Hacc1 & Hpub1 & Hx1 & Hy1 & Hd1 & Hl1 & Hkeep & Hgrow);
    [unfold params_room; repeat split; try assumption;
       destruct Hroom; [left; lia | right; assumption]
    | exact Hrs | exact Hr |].
  fold r in Hp1.
  replace ([0x1b; 0x5b] ++ rs ++ [0x3b] ++ cs ++ [0x48])
    with (([0x1b; 0x5b] ++ rs ++ [0x3b]) ++ cs ++ [0x48])
    by (rewrite <- !app_assoc; reflexivity).
  rewrite (ansr_write_resume a _ _ a1 Hw1).
  rewrite (ansr_write_resume a1 cs [0x48]
             (set_accumulator c a1)).
  2:{ rewrite (digits_accumulate_aux a1 cs Hst1); [|lia|exact Hcs].
      rewrite Hacc1. reflexivity. }
  assert (Hal : n_params_allocated a1 < 2 ^ 62
                /\ (n_params a1 < n_params_allocated a1
                    \/ alloc_ok (allocs a1) = true)).
  { destruct (Z.eq_dec (n_params_allocated a) 0) as [H0 | Hn0].
    - rewrite (Hgrow H0), Hn1. split; [lia | left; lia].
    - destruct Hkeep as [Hk1 Hk2]; [lia|]. rewrite Hk1, Hk2, Hn1.
      split; [lia|]. destruct Hroom; [left; lia | right; assumption]. }
  destruct Hal as [Hbig1 Hroom1].
  destruct (cup_sets_cursor (set_accumulator c a1) (to_char r) [to_char c])
    as (a' & Hw & Hst & Hy & Hx & Hpub & Hd).
  - exact Hst1.
  - unfold params_wf. cbn. lia.
  - exact Hc.
  - exact Hroom1.
  - unfold finalized, pending in *. cbn. rewrite Hp1.
    rewrite (to_char_small r) by lia. reflexivity.
  - rewrite !to_char_small in * by lia.
    exists a'. cbn [ansr_write]. rewrite Hw.
    split; [destruct a'; reflexivity|].
    split; [exact Hst|]. split; [exact Hy|]. split; [exact Hx|].
    split; [intros Hr1; rewrite Hy, char_to_int_small, u32_small by lia; reflexivity|].
    split; [intros Hc1; rewrite Hx, char_to_int_small, u32_small by lia; reflexivity|].
    split; [rewrite Hpub; exact Hpub1 | rewrite Hd; exact Hd1].
Qed.

(** ** Whole sequences: graphic rendition *)

Lemma sgr_case_disp p a b :
  disp_state a = disp_state b ->
  disp_state (final_state (sgr_case p a))
  = disp_state (final_state (sgr_case p b)).
Proof.
  intros Hd. unfold sgr_case, _ansr_sgr_reset. rewrite Hd.
  repeat (destruct (in_range _ _ p); [first [reflexivity | exact Hd]|]).
  destruct p as [|q|q]; [reflexivity| |exact Hd].
  repeat first [ reflexivity | exact Hd | destruct q as [q|q|] ].
Qed.

Lemma sgr_case_returns p a :
  sgr_fatal p = false -> exists a', sgr_case p a = Ret 0 a'.
Proof.
  intros Hf. destruct (proj2 (sgr_case_outcome p a) Hf) as [d' Hd'].
  eexists. exact Hd'.
Qed.

(** X24.  From the Input state, ESC '[' value 'm' with a value of at most
    127 that is not one of the asserting ones returns to the Input state
    with the display state that the SGR [switch] gives for that value:
    the baseline for 0, the foreground colour value - 30 for 30-37, the
    background colour value - 40 for 40-47.  Grid and cursor are
    unchanged. *)
Theorem sgr_sequence_sets_display_state a ds :
  let v := decimal 0 ds mod 2 ^ 32 in
  state a = ANSR_STATE_INPUT ->
  params_room 1 a ->
  Forall (fun b => is_digit b = true) ds ->
  v <= 127 -> sgr_fatal v = false ->
  exists a',
    ansr_write a ([0x1b; 0x5b] ++ ds ++ [0x6d]) = Ret 0 a'
    /\ state a' = ANSR_STATE_INPUT
    /\ disp_state a' = disp_state (final_state (sgr_case v a))
    /\ (v = 0 -> disp_state a' = sgr_baseline)
    /\ (in_range 30 37 v = true ->
        disp_state a' = set_fg (color_of_int (v - 30)) (disp_state a))
    /\ (in_range 40 47 v = true ->
        disp_state a' = set_bg (color_of_int (v - 40)) (disp_state a))
    /\ public a' = public a
    /\ cursor_x a' = cursor_x a /\ cursor_y a' = cursor_y a.
Proof.
  intros v Hs (Hlen & Hbig & Hroom) Hds Hv Hfat.
  pose proof (decimal_mod_range ds) as Hv0. fold v in Hv0.
  rewrite app_assoc.
  rewrite (ansr_write_resume a _ [0x6d] _ (csi_sequence_head a ds Hs Hds)).
  fold v. set (a1 := set_accumulator v (csi_entered a)).
  assert (Hwf : params_wf a1) by (unfold params_wf; cbn; lia).
  assert (Hacc : accumulator a1 <= 255) by (cbn; lia).
  assert (Hr : n_params a1 < n_params_allocated a1 \/ alloc_ok (allocs a1) = true).
  { cbn. destruct Hroom; [left; lia | right; assumption]. }
  destruct (finalise_spec a1 Hwf Hacc Hr)
    as (a2 & Happ & Hn & Hpend & Hle & Ha0 & Hpub & Hst & Hd & Hx1 & Hy1 & _).
  assert (Hfin : finalized a1 = [v]).
  { unfold finalized, pending. cbn. rewrite to_char_small by lia. reflexivity. }
  rewrite Hfin in Hn, Hpend. change (Z.of_nat (length [v])) with 1 in Hn.
  destruct (sgr_case_returns v a2 Hfat) as [a3 Ha3].
  pose proof (sgr_case_shape v a2) as [d3 Hd3].
  rewrite Ha3 in Hd3. cbn [final_state] in Hd3.
  assert (Hsgr : _ansr_sgr a2 = Ret 0 a3).
  { unfold _ansr_sgr. rewrite Hn. cbn [Z.eqb Z.of_nat Pos.of_succ_nat].
    change (Z.to_nat 1) with 1%nat. cbn [sgr_loop].
    rewrite nth_Z_pending by lia. rewrite Hpend.
    change ([v] !! Z.to_nat 0) with (Some v). cbv iota beta.
    rewrite char_to_int_small by lia. rewrite Ha3. reflexivity. }
  assert (Hdisp : disp_state a3 = disp_state (final_state (sgr_case v a))).
  { replace a3 with (final_state (sgr_case v a2)) by (rewrite Ha3; reflexivity).
    apply sgr_case_disp. exact Hd. }
  exists (set_state ANSR_STATE_INPUT a3). split.
  - cbn [ansr_write]. unfold ansr_write_byte, csi_byte.
    change (state a1) with ANSR_STATE_CSI. cbn iota.
    change (csi_param_byte a1 0x6d)
      with (assert_zero (_ansr_params_append_accumulator a1)).
    rewrite Happ. cbn [assert_zero Z.eqb].
    change (csi_final_byte a2 0x6d)
      with (match _ansr_sgr a2 with
            | Ret _ a' => Ret 0 (set_state ANSR_STATE_INPUT a')
            | o => o
            end).
    rewrite Hsgr. reflexivity.
  - cbn [state disp_state public cursor_x cursor_y set_state].
    split; [reflexivity|]. split; [exact Hdisp|].
    split; [intros ->; rewrite Hdisp; reflexivity|].
    split.
    { intros Hin. rewrite Hdisp. unfold sgr_case.
      replace (in_range 11 19 v) with false by (unfold in_range in *; lia).
      rewrite Hin. reflexivity. }
    split.
    { intros Hin. rewrite Hdisp. unfold sgr_case.
      replace (in_range 11 19 v) with false by (unfold in_range in *; lia).
      replace (in_range 30 37 v) with false by (unfold in_range in *; lia).
      rewrite Hin. reflexivity. }
    rewrite Hd3. cbn. repeat split; assumption.
Qed.

(** ** Consistency of the grid across a feed *)

Lemma row_sound_mono B B' row : B <= B' -> row_sound B row -> row_sound B' row.
Proof. unfold row_sound. lia. Qed.

Lemma grid_sound_mono B B' p : B <= B' -> grid_sound B p -> grid_sound B' p.
Proof.
  intros HB (H1 & H2 & H3 & H4). repeat split; try lia.
  all: destruct (H4 r row) as (? & ? & ?); try assumption; lia.
Qed.

Lemma wrapped_near_mono k k' x : k <= k' -> wrapped_near k x -> wrapped_near k' x.
Proof. unfold wrapped_near. lia. Qed.

Lemma u32_range z : 0 <= u32 z < 2 ^ 32.
Proof. unfold u32. apply Z.mod_pos_bound. lia. Qed.

Lemma wrapped_near_u32_add k x p :
  wrapped_near k x -> -256 <= p <= 256 -> 0 <= k ->
  wrapped_near (k + 256) (u32 (x + p)).
Proof.
  intros [Hx Hk] Hp Hk0. split; [apply u32_range|].
  unfold u32. change (2 ^ 32) with 4294967296 in *.
  destruct (Z.lt_ge_cases (x + p) 0) as [Hneg | Hpos].
  - rewrite <- (Z.mod_unique (x + p) 4294967296 (-1) (x + p + 4294967296)); lia.
  - destruct (Z.lt_ge_cases (x + p) 4294967296) as [Hin | Hover].
    + rewrite Z.mod_small by lia. lia.
    + rewrite <- (Z.mod_unique (x + p) 4294967296 1 (x + p - 4294967296)); lia.
Qed.

Lemma wrapped_near_zero k : 0 <= k -> wrapped_near k 0.
Proof. unfold wrapped_near. lia. Qed.

Lemma wrapped_near_u32_small k p :
  -256 <= p <= 256 -> 0 <= k -> wrapped_near (k + 256) (u32 p).
Proof.
  intros Hp Hk.
  apply (wrapped_near_mono (0 + 256)); [lia|].
  replace p with (0 + p) by lia.
  apply wrapped_near_u32_add; [apply wrapped_near_zero; lia | lia | lia].
Qed.

(** *** The grid buffer keeps the grid sound *)

Lemma soft_wrap_sound k a :
  0 <= k -> wrapped_near k (cursor_x a) ->
  public (soft_wrap a) = public a /\ params (soft_wrap a) = params a
  /\ wrapped_near k (cursor_x (soft_wrap a))
  /\ (0 <= cursor_y a < 2 ^ 32 -> 0 <= cursor_y (soft_wrap a) < 2 ^ 32).
Proof.
  intros Hk Hx. unfold soft_wrap. destruct (_ && _); cbn.
  - split; [reflexivity|]. split; [reflexivity|].
    split; [apply wrapped_near_zero; lia | intros _; apply u32_range].
  - split; [reflexivity|]. split; [reflexivity|]. split; [exact Hx | tauto].
Qed.

Lemma expand_rows_sound B a rc a1 :
  grid_sound B (public a) ->
  expand_rows a = Ret rc a1 ->
  grid_sound B (public a1)
  /\ cursor_x a1 = cursor_x a /\ cursor_y a1 = cursor_y a
  /\ params a1 = params a.
Proof.
  intros (Hlen & Hh & Hah & Hrows). unfold expand_rows, request.
  destruct (cursor_y a >=? _).
  2:{ intros [= <- <-]. unfold grid_sound. auto. }
  destruct (alloc_ok _).
  2:{ intros [= <- <-]. cbn. unfold grid_sound. auto. }
  rewrite MAX_spec. unfold ANSR_MIN_ALLOC_ROWS.
  pose proof (u32_range (allocated_height (public a) * 2)) as Hu.
  destruct (Z.ltb_spec (Z.max 64 (u32 (allocated_height (public a) * 2)))
              (allocated_height (public a))); [discriminate|].
  intros [= <- <-]. cbn. unfold grid_sound. cbn.
  rewrite length_app, length_take, length_replicate.
  repeat split; try lia.
  all: intros; match goal with
       | Hr : nth_Z (take _ _ ++ _) _ = Some (Some _) |- _ =>
           apply nth_Z_realloc in Hr as [Hr | Hr]; [discriminate|];
           destruct (Hrows _ _ Hr) as (? & ? & ?)
       end; lia.
Qed.

Lemma bump_height_sound B a :
  grid_sound B (public a) ->
  0 <= cursor_y a < allocated_height (public a) ->
  grid_sound B (public (bump_height a)).
Proof.
  intros (Hlen & Hh & Hah & Hrows) Hy. unfold bump_height.
  destruct (Z.geb_spec (cursor_y a) (height (public a))); [|unfold grid_sound; auto].
  unfold grid_sound. cbn. rewrite u32_small by lia.
  split; [exact Hlen|]. split; [lia|]. split; [exact Hah | exact Hrows].
Qed.

Lemma expand_cols_row b rc a2 :
  expand_cols b = Ret rc a2 ->
  exists ro, nth_Z (rows (public b)) (cursor_y b) = Some ro.
Proof.
  unfold expand_cols. destruct (nth_Z _ _) as [ro|]; [eauto | discriminate].
Qed.

Lemma expand_cols_sound B b rc a2 :
  grid_sound B (public b) -> 0 <= B -> Z.max 80 (2 * B) < 2 ^ 32 ->
  0 <= cursor_x b -> 0 <= cursor_y b ->
  expand_cols b = Ret rc a2 ->
  grid_sound (Z.max 80 (2 * B)) (public a2)
  /\ (forall r row, nth_Z (rows (public a2)) r = Some (Some row) ->
        allocated_width row <= B
        \/ (r = cursor_y b
            /\ allocated_width row <= Z.max 80 (2 * cursor_x b)))
  /\ (rc <> 0 -> grid_sound B (public a2))
  /\ cursor_x a2 = cursor_x b /\ cursor_y a2 = cursor_y b
  /\ params a2 = params b.
Proof.
  intros Hg HB HB2 Hx Hy.
  pose proof Hg as (Hlen & Hh & Hah & Hrows).
  assert (Hsame : grid_sound (Z.max 80 (2 * B)) (public b)
                  /\ (forall r row, nth_Z (rows (public b)) r = Some (Some row) ->
                        allocated_width row <= B
                        \/ (r = cursor_y b
                            /\ allocated_width row <= Z.max 80 (2 * cursor_x b)))).
  { split; [apply (grid_sound_mono B); [lia | exact Hg]|].
    intros r row Hr. left. destruct (Hrows r row Hr) as (_ & _ & Hle). exact Hle. }
  unfold expand_cols, request.
  destruct (nth_Z (rows (public b)) (cursor_y b)) as [ro|] eqn:Hrow; [|discriminate].
  set (full := match ro with
               | Some row => cursor_x b >=? allocated_width row
               | None => true
               end).
  destruct full eqn:Hfull.
  2:{ intros [= <- <-]. tauto. }
  destruct (alloc_ok _).
  2:{ intros [= <- <-]. cbn. tauto. }
  set (old := match ro with Some row => allocated_width row | None => 0 end).
  set (old_cols := match ro with Some row => cols row | None => [] end).
  set (w0 := match ro with Some row => width row | None => 0 end).
  assert (Hold : old = Z.of_nat (length old_cols) /\ 0 <= w0 <= old /\ old <= B
                 /\ 2 * old <= Z.max 80 (2 * cursor_x b)).
  { subst old old_cols w0 full. destruct ro as [row|]; cbn.
    - destruct (Hrows _ _ Hrow) as (H1 & H2 & H3).
      repeat split; lia.
    - repeat split; lia. }
  destruct Hold as (Hol & Hw0 & HoB & Hox).
  rewrite MAX_spec. unfold ANSR_MIN_ALLOC_COLS.
  rewrite (u64_small (old * 2)) by lia.
  rewrite (u32_small (Z.max (old * 2) 80)) by lia.
  intros [= <- <-]. cbn.
  assert (Hnew : forall r row,
            nth_Z (<[Z.to_nat (cursor_y b) :=
                       Some {| width := w0;
                               allocated_width := Z.max (old * 2) 80;
                               cols := take (Z.to_nat old) old_cols
                                       ++ replicate
                                            (Z.to_nat (Z.max (old * 2) 80 - old))
                                            zero_char |}]>
                     (rows (public b))) r = Some (Some row) ->
            row_sound (Z.max 80 (2 * B)) row
            /\ (allocated_width row <= B
                \/ (r = cursor_y b
                    /\ allocated_width row <= Z.max 80 (2 * cursor_x b)))).
  { intros r row Hr. apply nth_Z_insert in Hr; [|exact Hy].
    destruct Hr as [[-> [= ->]] | Hr].
    - unfold row_sound. cbn.
      rewrite length_app, length_take, length_replicate.
      split; [repeat split; lia | right; split; [reflexivity | lia]].
    - destruct (Hrows _ _ Hr) as (H1 & H2 & H3).
      split; [unfold row_sound; lia | left; lia]. }
  split; [|split; [intros r row Hr; apply (Hnew r row Hr)
                  |split; [intros Hne; contradiction Hne; reflexivity | auto]]].
  unfold grid_sound. cbn. rewrite length_insert.
  split; [exact Hlen|]. split; [exact Hh|]. split; [exact Hah|].
  intros r row Hr. apply (Hnew r row Hr).
Qed.

Lemma store_char_sound B a c rc a3 :
  grid_sound B (public a) -> B < 2 ^ 32 ->
  0 <= cursor_y a ->
  store_char a c = Ret rc a3 ->
  exists row0,
    nth_Z (rows (public a)) (cursor_y a) = Some (Some row0)
    /\ 0 <= cursor_x a < allocated_width row0
    /\ grid_sound B (public a3)
    /\ (forall r row, nth_Z (rows (public a3)) r = Some (Some row) ->
          exists row1, nth_Z (rows (public a)) r = Some (Some row1)
                       /\ allocated_width row = allocated_width row1)
    /\ cursor_x a3 = cursor_x a + 1 /\ cursor_y a3 = cursor_y a
    /\ params a3 = params a.
Proof.
  intros (Hlen & Hh & Hah & Hrows) HB Hy. unfold store_char.
  destruct (nth_Z (rows (public a)) (cursor_y a)) as [[row0|]|] eqn:Hrow;
    try discriminate.
  destruct (Hrows _ _ Hrow) as (Haw & Hw & HawB).
  destruct (Z.leb_spec 0 (cursor_x a)); [|discriminate].
  destruct (Z.ltb_spec (cursor_x a) (Z.of_nat (length (cols row0)))); [|discriminate].
  cbn [andb]. rewrite (u32_small (cursor_x a + 1)) by lia.
  intros [= <- <-]. cbn.
  exists row0. split; [reflexivity|]. split; [lia|].
  assert (Hnew : forall r row,
            nth_Z (<[Z.to_nat (cursor_y a) :=
                       Some {| width := if width row0 <? cursor_x a + 1
                                        then cursor_x a + 1 else width row0;
                               allocated_width := allocated_width row0;
                               cols := <[Z.to_nat (cursor_x a) :=
                                           {| code := c;
                                              ch_disp_state := disp_state a |}]>
                                         (cols row0) |}]>
                     (rows (public a))) r = Some (Some row) ->
            row_sound B row
            /\ exists row1, nth_Z (rows (public a)) r = Some (Some row1)
                            /\ allocated_width row = allocated_width row1).
  { intros r row Hr. apply nth_Z_insert in Hr; [|exact Hy].
    destruct Hr as [[-> [= ->]] | Hr].
    - split; [|exists row0; split; [exact Hrow | reflexivity]].
      unfold row_sound. cbn. rewrite length_insert.
      destruct (Z.ltb_spec (width row0) (cursor_x a + 1)); repeat split; lia.
    - split; [apply (Hrows _ _ Hr) | exists row; split; [exact Hr | reflexivity]]. }
  split; [|split; [intros r row Hr; apply (Hnew r row Hr) | auto]].
  unfold grid_sound. cbn. rewrite length_insert.
  split; [exact Hlen|]. split; [exact Hh|]. split; [exact Hah|].
  intros r row Hr. apply (Hnew r row Hr).
Qed.

Lemma add_char_sound B k a c rc a' :
  grid_sound B (public a) -> wrapped_near k (cursor_x a) ->
  0 <= cursor_y a < 2 ^ 32 -> 0 <= k -> 0 <= B ->
  Z.max 80 (2 * B) + k < 2 ^ 32 ->
  _ansr_add_char a c = Ret rc a' ->
  grid_sound (Z.max B (Z.max 80 (2 * k))) (public a')
  /\ wrapped_near (k + 1) (cursor_x a')
  /\ 0 <= cursor_y a' < 2 ^ 32
  /\ params a' = params a.
Proof.
  intros Hg Hx Hy Hk HB Hbig. unfold _ansr_add_char.
  destruct (soft_wrap_sound k a Hk Hx) as (Hp0 & Hpar0 & Hx0 & Hy0).
  specialize (Hy0 Hy). rewrite <- Hp0 in Hg. rewrite <- Hpar0.
  set (a0 := soft_wrap a) in *. clearbody a0.
  destruct (expand_rows a0) as [rc1 a1| |] eqn:He; try discriminate.
  destruct (expand_rows_sound B a0 rc1 a1 Hg He) as (Hg1 & Hx1 & Hy1 & Hpar1).
  assert (Hkeep : grid_sound (Z.max B (Z.max 80 (2 * k))) (public a1)
                  /\ wrapped_near (k + 1) (cursor_x a1)
                  /\ 0 <= cursor_y a1 < 2 ^ 32 /\ params a1 = params a0).
  { split; [apply (grid_sound_mono B); [lia | exact Hg1]|].
    rewrite Hx1, Hy1.
    split; [apply (wrapped_near_mono k); [lia | exact Hx0] | auto]. }
  destruct (Z.eq_dec rc1 0) as [-> | Hrc1].
  2:{ destruct rc1; try congruence; intros [= <- <-]; exact Hkeep. }
  clear Hkeep.
  destruct (expand_cols (bump_height a1)) as [rc2 a2| |] eqn:Hc; try discriminate.
  destruct (bump_height_cursor a1) as [Hbx Hby].
  destruct (expand_cols_row _ _ _ Hc) as [ro Hro].
  rewrite bump_height_rows, Hby in Hro.
  apply nth_Z_Some in Hro as [Hyr _].
  assert (Hgb : grid_sound B (public (bump_height a1))).
  { apply bump_height_sound; [exact Hg1|].
    destruct Hg1 as (Hl1 & _). lia. }
  destruct Hx0 as [Hx0r Hx0k].
  destruct (expand_cols_sound B (bump_height a1) rc2 a2 Hgb HB)
    as (Hg2 & Hb2 & Hne2 & Hx2 & Hy2 & Hpar2); [lia | lia | lia | exact Hc |].
  rewrite Hbx, Hx1 in Hx2. rewrite Hby, Hy1 in Hy2.
  rewrite Hbx, Hby, Hx1, Hy1 in Hb2.
  assert (Hpb : params (bump_height a1) = params a1).
  { unfold bump_height. destruct (_ >=? _); reflexivity. }
  destruct (Z.eq_dec rc2 0) as [-> | Hrc2].
  2:{ assert (Hres : a2 = a' -> grid_sound (Z.max B (Z.max 80 (2 * k))) (public a')
                     /\ wrapped_near (k + 1) (cursor_x a')
                     /\ 0 <= cursor_y a' < 2 ^ 32 /\ params a' = params a0).
      { intros <-. rewrite Hx2, Hy2, Hpar2, Hpb, Hpar1.
        split; [apply (grid_sound_mono B); [lia | apply Hne2; exact Hrc2]|].
        split; [unfold wrapped_near; lia | auto]. }
      destruct rc2; try congruence; intros [= _ E]; apply Hres; exact E. }
  intros Hst.
  destruct (store_char_sound (Z.max 80 (2 * B)) a2 c rc a' Hg2)
    as (row0 & Hrow0 & Hxin & Hg3 & Hmap & Hx3 & Hy3 & Hpar3);
    [lia | lia | exact Hst |].
  rewrite Hx3, Hy3, Hpar3, Hx2, Hy2, Hpar2, Hpb, Hpar1.
  rewrite Hx2, Hy2 in *.
  destruct (Hg2) as (_ & _ & _ & Hrows2).
  destruct (Hrows2 _ _ Hrow0) as (_ & _ & Haw0).
  assert (Hsmall : cursor_x a0 <= k) by lia.
  split; [|split; [unfold wrapped_near; lia | auto]].
  destruct Hg3 as (G1 & G2 & G3 & G4).
  unfold grid_sound. split; [exact G1|]. split; [exact G2|]. split; [exact G3|].
  intros r row Hr. destruct (G4 r row Hr) as (R1 & R2 & R3).
  destruct (Hmap r row Hr) as (row1 & Hr1 & Haw1).
  unfold row_sound. split; [exact R1|]. split; [exact R2|].
  rewrite Haw1. destruct (Hb2 r row1 Hr1) as [Hle | [_ Hle]]; lia.
Qed.

(** *** The parser keeps the cursor and the parameter bytes in range *)

Lemma params_append_bytes a p :
  is_byte p -> Forall is_byte (params a) ->
  let a1 := final_state (_ansr_params_append a p) in
  Forall is_byte (params a1)
  /\ cursor_x a1 = cursor_x a /\ cursor_y a1 = cursor_y a.
Proof.
  intros Hp Ha. unfold _ansr_params_append, request.
  assert (H0 : is_byte 0) by (unfold is_byte; lia).
  destruct (_ >? _); [destruct (alloc_ok _)|]; cbn;
    try destruct (_ && _); cbn; repeat split;
    first [ assumption
          | apply Forall_insert; [|assumption]; first [assumption | apply Forall_resize; assumption]
          | apply Forall_resize; assumption ].
Qed.

Lemma params_append_accumulator_bytes a :
  Forall is_byte (params a) ->
  let a1 := final_state (_ansr_params_append_accumulator a) in
  Forall is_byte (params a1)
  /\ cursor_x a1 = cursor_x a /\ cursor_y a1 = cursor_y a.
Proof.
  intros Ha. unfold _ansr_params_append_accumulator.
  destruct (_ >? _); [cbn; auto|].
  assert (Hb : is_byte (to_char (accumulator a))).
  { unfold is_byte, to_char.
    pose proof (Z.mod_pos_bound (accumulator a) 256). lia. }
  pose proof (params_append_bytes a _ Hb Ha) as Hp. cbv zeta in Hp.
  destruct (_ansr_params_append a _) as [rc a1| |]; cbn in *; try exact Hp.
  destruct rc; exact Hp.
Qed.

Lemma csi_param_byte_bytes a c :
  Forall is_byte (params a) ->
  let a1 := final_state (csi_param_byte a c) in
  Forall is_byte (params a1)
  /\ cursor_x a1 = cursor_x a /\ cursor_y a1 = cursor_y a.
Proof.
  intros Ha. unfold csi_param_byte.
  repeat match goal with
         | |- context [if ?b then _ else _] => destruct b
         end;
    rewrite ?assert_zero_state;
    first [ apply params_append_accumulator_bytes; exact Ha | cbn; auto ].
Qed.

Lemma param_range a i p :
  Forall is_byte (params a) -> param a i = Some p -> -128 <= p <= 255.
Proof.
  intros Ha. unfold param.
  destruct (nth_Z (params a) i) as [b|] eqn:Hb; [|discriminate].
  apply nth_Z_Some in Hb as [_ Hb].
  pose proof (Forall_lookup_1 _ _ _ _ Ha Hb) as Hr. unfold is_byte in Hr.
  intros [= <-]. unfold char_to_int.
  destruct char_is_signed; destruct (Z.leb_spec 128 b); cbn [andb]; lia.
Qed.

Lemma sgr_ctl a :
  let a1 := final_state (match _ansr_sgr a with
                         | Ret _ a' => Ret 0 (set_state ANSR_STATE_INPUT a')
                         | o => o
                         end) in
  params a1 = params a /\ cursor_x a1 = cursor_x a /\ cursor_y a1 = cursor_y a.
Proof.
  destruct (sgr_shape a) as [d' Hd'].
  destruct (_ansr_sgr a); cbn in *; subst; cbn; auto.
Qed.

Lemma csi_final_byte_other a c :
  c <> 0x41 -> c <> 0x42 -> c <> 0x43 -> c <> 0x47 -> c <> 0x48 -> c <> 0x6d ->
  exists s, final_state (csi_final_byte a c) = set_state s a.
Proof.
  intros H1 H2 H3 H4 H5 H6. destruct a. unfold csi_final_byte.
  destruct c as [|q|q]; [eexists; reflexivity| |eexists; reflexivity].
  repeat first [ solve [eexists; reflexivity] | congruence | destruct q as [q|q|] ].
Qed.

Lemma csi_final_byte_ctl k a c :
  Forall is_byte (params a) ->
  wrapped_near k (cursor_x a) -> 0 <= k ->
  0 <= cursor_y a < 2 ^ 32 ->
  let a1 := final_state (csi_final_byte a c) in
  params a1 = params a
  /\ wrapped_near (k + 256) (cursor_x a1)
  /\ 0 <= cursor_y a1 < 2 ^ 32.
Proof.
  intros Ha Hx Hk Hy.
  assert (Hx' : wrapped_near (k + 256) (cursor_x a))
    by (apply (wrapped_near_mono k); [lia | exact Hx]).
  assert (Hp : forall i p, param a i = Some p -> -256 <= p <= 256 /\ -256 <= p - 1 <= 256).
  { intros i p Hip. pose proof (param_range a i p Ha Hip). lia. }
  assert (Hfin : forall x y,
            (x = cursor_x a \/ x = 0 \/ (exists p, -256 <= p <= 256 /\ x = u32 p)
             \/ (exists p, -256 <= p <= 256 /\ x = u32 (cursor_x a + p))) ->
            (y = cursor_y a \/ y = 0 \/ exists v, y = u32 v) ->
            wrapped_near (k + 256) x /\ 0 <= y < 2 ^ 32).
  { intros x y Hxx Hyy. split.
    - destruct Hxx as [-> | [-> | [(p & Hpr & ->) | (p & Hpr & ->)]]].
      + exact Hx'.
      + apply wrapped_near_zero. lia.
      + apply wrapped_near_u32_small; [lia | exact Hk].
      + apply wrapped_near_u32_add; [exact Hx | lia | exact Hk].
    - destruct Hyy as [-> | [-> | [v ->]]]; [exact Hy | lia | apply u32_range]. }
  cbv zeta.
  destruct (Z.eq_dec c 0x6d) as [-> | H6].
  { change (csi_final_byte a 0x6d)
      with (match _ansr_sgr a with
            | Ret _ a' => Ret 0 (set_state ANSR_STATE_INPUT a')
            | o => o
            end).
    pose proof (sgr_ctl a) as Hs. cbv zeta in Hs. destruct Hs as (E1 & E2 & E3).
    rewrite E1, E2, E3. auto. }
  destruct (Z.eq_dec c 0x41) as [-> | H1];
    [|destruct (Z.eq_dec c 0x42) as [-> | H2];
    [|destruct (Z.eq_dec c 0x43) as [-> | H3];
    [|destruct (Z.eq_dec c 0x47) as [-> | H4];
    [|destruct (Z.eq_dec c 0x48) as [-> | H5]]]]].
  6:{ destruct (csi_final_byte_other a c H1 H2 H3 H4 H5 H6) as [s ->]. cbn. auto. }
  all: unfold csi_final_byte; cbv iota beta zeta;
    repeat match goal with
           | |- context [if ?b then _ else _] => destruct b
           | |- context [param ?a0 ?i] =>
               let E := fresh "E" in
               destruct (param a0 i) eqn:E; [apply Hp in E|]
           end;
    cbn; (split; [reflexivity|]); apply Hfin;
    first [ left; reflexivity
          | right; left; reflexivity
          | right; right; left; eexists; split; [|reflexivity]; lia
          | right; right; right; eexists; split; [|reflexivity]; lia
          | right; right; eexists; reflexivity ].
Qed.

(** *** Every byte keeps the invariant *)

Lemma run_inv_step n a a' :
  run_inv n a -> 0 <= n ->
  public a' = public a -> params a' = params a ->
  wrapped_near (256 * n + 256) (cursor_x a') ->
  0 <= cursor_y a' < 2 ^ 32 ->
  run_inv (n + 1) a'.
Proof.
  intros (Hg & Hx & Hy & Hp) Hn Hpub Hpar Hx' Hy'. unfold run_inv.
  rewrite Hpub, Hpar.
  split; [apply (grid_sound_mono (Z.max 80 (512 * n))); [lia | exact Hg]|].
  split; [apply (wrapped_near_mono (256 * n + 256)); [lia | exact Hx']|].
  split; [exact Hy' | exact Hp].
Qed.

Lemma escape_byte_cases a c :
  escape_byte a c = Abort a
  \/ escape_byte a c
     = Ret 0 (set_n_params 0 (set_accumulator 0 (set_state ANSR_STATE_CSI a))).
Proof.
  unfold escape_byte. destruct c as [|q|q]; auto.
  repeat first [ solve [auto] | destruct q as [q|q|] ].
Qed.

Lemma input_byte_control_ctl a c rc a' :
  is_text c = false ->
  input_byte a c = Ret rc a' ->
  params a' = params a /\ public a' = public a
  /\ (cursor_x a' = cursor_x a \/ cursor_x a' = 0
      \/ (0 < cursor_x a /\ cursor_x a' = cursor_x a - 1))
  /\ (cursor_y a' = cursor_y a \/ cursor_y a' = u32 (cursor_y a + 1)).
Proof.
  unfold is_text. intros Ht.
  assert (Hv : c = 0x7 \/ c = 0x8 \/ c = 0x9 \/ c = 0x0a \/ c = 0x0c
               \/ c = 0x0d \/ c = 0x1a \/ c = 0x1b \/ c = 0x7f) by lia.
  clear Ht.
  destruct Hv as [-> | [-> | [-> | [-> | [-> | [-> | [-> | [-> | ->]]]]]]]];
    cbn; try discriminate; intros [= <- <-];
    try (destruct (Z.gtb_spec (cursor_x a) 0)); cbn; auto 10.
Qed.

Lemma write_byte_inv n a c rc a' :
  run_inv n a -> 0 <= n -> n + 1 <= 2 ^ 21 ->
  ansr_write_byte a c = Ret rc a' ->
  run_inv (n + 1) a'.
Proof.
  intros Hinv Hn Hbig. pose proof Hinv as (Hg & Hx & Hy & Hp).
  assert (Hx' : wrapped_near (256 * n + 256) (cursor_x a))
    by (apply (wrapped_near_mono (256 * n)); [lia | exact Hx]).
  unfold ansr_write_byte. destruct (state a).
  - destruct (is_text c) eqn:Ht.
    + rewrite input_byte_text by exact Ht.
      destruct (_ansr_add_char a c) as [rc0 a0| |] eqn:Hadd; try discriminate.
      intros [= <- <-].
      destruct (add_char_sound (Z.max 80 (512 * n)) (256 * n) a c rc0 a0)
        as (Hg' & Hxa & Hya & Hpa); try assumption; try lia.
      unfold run_inv. rewrite Hpa.
      split; [apply (grid_sound_mono (Z.max (Z.max 80 (512 * n))
                                        (Z.max 80 (2 * (256 * n)))));
              [lia | exact Hg']|].
      split; [apply (wrapped_near_mono (256 * n + 1)); [lia | exact Hxa]|].
      split; [exact Hya | exact Hp].
    + intros Hin.
      destruct (input_byte_control_ctl a c rc a' Ht Hin) as (Hpar & Hpub & Hxc & Hyc).
      apply (run_inv_step n a); try assumption.
      * destruct Hxc as [-> | [-> | [Hpos ->]]];
          [exact Hx' | apply wrapped_near_zero; lia
          | unfold wrapped_near in *; lia].
      * destruct Hyc as [-> | ->]; [exact Hy | apply u32_range].
  - intros [= <- <-]. apply (run_inv_step n a); try assumption; reflexivity.
  - destruct (escape_byte_cases a c) as [-> | ->]; [discriminate|].
    intros [= <- <-]. apply (run_inv_step n a); try assumption; reflexivity.
  - unfold csi_byte.
    pose proof (csi_param_byte_bytes a c Hp) as Hb. cbv zeta in Hb.
    pose proof (csi_param_byte_public a c) as Hpub1.
    destruct (csi_param_byte a c) as [rc1 a1| |]; try discriminate.
    cbn [final_state] in Hb, Hpub1. destruct Hb as (Hp1 & Hx1 & Hy1).
    pose proof (csi_final_byte_ctl (256 * n) a1 c Hp1) as Hf. cbv zeta in Hf.
    pose proof (csi_final_byte_public a1 c) as Hpub2.
    rewrite Hx1, Hy1 in Hf. specialize (Hf Hx ltac:(lia) Hy).
    intros Hfin. rewrite Hfin in Hf, Hpub2. cbn [final_state] in Hf, Hpub2.
    destruct Hf as (Hp2 & Hx2 & Hy2).
    unfold run_inv. rewrite Hpub2, Hpub1, Hp2.
    split; [apply (grid_sound_mono (Z.max 80 (512 * n))); [lia | exact Hg]|].
    split; [apply (wrapped_near_mono (256 * n + 256)); [lia | exact Hx2]|].
    split; [exact Hy2 | exact Hp1].
Qed.

Lemma write_inv input : forall n a rc a',
  run_inv n a -> 0 <= n -> n + Z.of_nat (length input) <= 2 ^ 21 ->
  ansr_write a input = Ret rc a' ->
  run_inv (n + Z.of_nat (length input)) a'.
Proof.
  induction input as [|c rest IH]; intros n a rc a' Hinv Hn Hlen.
  - cbn [ansr_write length]. intros [= _ <-].
    replace (n + Z.of_nat 0) with n by lia. exact Hinv.
  - cbn [ansr_write]. cbn [length] in *.
    destruct (ansr_write_byte a c) as [rc1 a1| |] eqn:Hb; try discriminate.
    intros Hrest.
    replace (n + Z.of_nat (S (length rest)))
      with (n + 1 + Z.of_nat (length rest)) by lia.
    apply (IH (n + 1) a1 rc a'); [|lia|lia|exact Hrest].
    apply (write_byte_inv n a c rc1 a1); [exact Hinv | lia | lia | exact Hb].
Qed.

Lemma blank_run_inv conf0 : run_inv 0 (blank conf0).
Proof.
  unfold run_inv, grid_sound, wrapped_near. cbn.
  split; [|split; [lia | split; [lia | constructor]]].
  split; [reflexivity|]. split; [lia|]. split; [lia|].
  intros r row Hr. apply nth_Z_Some in Hr as [Hr _]. cbn in Hr. lia.
Qed.

(** ** The grid when a feed ends *)

Lemma grid_sound_sizes B p : grid_sound B p -> sizes_exact p.
Proof.
  intros (Hl & _ & _ & Hrows). split; [exact Hl|].
  intros r row Hr. destruct (Hrows r row Hr) as (H1 & H2 & _). auto.
Qed.

Lemma grid_sound_stopped B a : grid_sound B (public a) -> stopped_sound a.
Proof.
  intros Hg. split; [exact (grid_sound_sizes B _ Hg)|].
  destruct Hg as (_ & Hh & _). split; [lia | left; lia].
Qed.

Lemma expand_rows_undef a a1 :
  expand_rows a = Undef a1 -> public a1 = public a.
Proof.
  unfold expand_rows, request.
  destruct (_ >=? _); [|discriminate].
  destruct (alloc_ok _); [|discriminate].
  destruct (_ <? _); [|discriminate].
  intros [= <-]. reflexivity.
Qed.

Lemma expand_cols_undef b a2 :
  expand_cols b = Undef a2 ->
  a2 = b /\ nth_Z (rows (public b)) (cursor_y b) = None.
Proof.
  unfold expand_cols, request.
  destruct (nth_Z _ _) as [ro|]; [|intros [= <-]; auto].
  destruct (match ro with Some row => _ | None => true end); [|discriminate].
  destruct (alloc_ok _); discriminate.
Qed.

Lemma store_char_undef a c a3 : store_char a c = Undef a3 -> a3 = a.
Proof.
  unfold store_char.
  destruct (nth_Z _ _) as [[row|]|]; try (intros [= <-]; reflexivity).
  destruct (_ && _); [discriminate | intros [= <-]; reflexivity].
Qed.

Lemma bump_height_stopped B a :
  grid_sound B (public a) -> 0 <= cursor_y a < 2 ^ 32 ->
  nth_Z (rows (public a)) (cursor_y a) = None ->
  stopped_sound (bump_height a).
Proof.
  intros Hg Hy Hnone.
  pose proof (grid_sound_sizes B _ Hg) as (Hl & Hrows).
  destruct Hg as (_ & Hh & Hah & _).
  apply nth_Z_None in Hnone. destruct Hnone as [Hneg | Hout]; [lia|].
  unfold bump_height, stopped_sound, sizes_exact.
  destruct (Z.geb_spec (cursor_y a) (height (public a))); cbn.
  - split; [split; [exact Hl | exact Hrows]|].
    pose proof (u32_range (cursor_y a + 1)) as Hu.
    split; [lia|].
    destruct (Z.eq_dec (cursor_y a + 1) (2 ^ 32)) as [He | Hne].
    + left. rewrite He. unfold u32. rewrite Z.mod_same by lia. lia.
    + right. rewrite u32_small by lia. lia.
  - split; [split; [exact Hl | exact Hrows]|]. split; [lia | left; lia].
Qed.

Lemma add_char_undef B k a c a' :
  grid_sound B (public a) -> wrapped_near k (cursor_x a) ->
  0 <= cursor_y a < 2 ^ 32 -> 0 <= k -> 0 <= B ->
  Z.max 80 (2 * B) + k < 2 ^ 32 ->
  _ansr_add_char a c = Undef a' ->
  stopped_sound a'.
Proof.
  intros Hg Hx Hy Hk HB Hbig. unfold _ansr_add_char.
  destruct (soft_wrap_sound k a Hk Hx) as (Hp0 & _ & Hx0 & Hy0).
  specialize (Hy0 Hy). rewrite <- Hp0 in Hg.
  set (a0 := soft_wrap a) in *. clearbody a0.
  destruct (expand_rows a0) as [rc1 a1| |] eqn:He; try discriminate.
  2:{ intros [= <-]. apply expand_rows_undef in He.
      apply (grid_sound_stopped B). rewrite He. exact Hg. }
  destruct (expand_rows_sound B a0 rc1 a1 Hg He) as (Hg1 & Hx1 & Hy1 & _).
  destruct (Z.eq_dec rc1 0) as [-> | Hrc1];
    [|destruct rc1; try congruence; discriminate].
  destruct (bump_height_cursor a1) as [Hbx Hby].
  destruct (expand_cols (bump_height a1)) as [rc2 a2| |] eqn:Hc; try discriminate.
  - destruct (Z.eq_dec rc2 0) as [-> | Hrc2];
      [|destruct rc2; try congruence; discriminate].
    intros Hst. apply store_char_undef in Hst. subst a'.
    destruct (expand_cols_row _ _ _ Hc) as [ro Hro].
    rewrite bump_height_rows, Hby in Hro.
    apply nth_Z_Some in Hro as [Hyr _].
    assert (Hgb : grid_sound B (public (bump_height a1))).
    { apply bump_height_sound; [exact Hg1|]. destruct Hg1 as (Hl1 & _). lia. }
    destruct Hx0 as [Hx0r _].
    destruct (expand_cols_sound B (bump_height a1) 0 a2 Hgb HB)
      as (Hg2 & _); [lia | lia | lia | exact Hc |].
    apply (grid_sound_stopped _ _ Hg2).
  - intros [= <-]. apply expand_cols_undef in Hc as [-> Hnone].
    rewrite bump_height_rows, Hby in Hnone.
    apply (bump_height_stopped B); [exact Hg1 | lia | exact Hnone].
Qed.

Lemma write_byte_abort a c a' :
  ansr_write_byte a c = Abort a' -> public a' = public a.
Proof.
  unfold ansr_write_byte. destruct (state a).
  - destruct (is_text c) eqn:Ht.
    + rewrite input_byte_text by exact Ht.
      pose proof (add_char_never_aborts a c a') as Hn.
      destruct (_ansr_add_char a c); congruence.
    + intros Ho. pose proof (input_byte_control a c Ht) as Hp.
      rewrite Ho in Hp. exact Hp.
  - discriminate.
  - intros Ho. pose proof (escape_byte_public a c) as Hp.
    rewrite Ho in Hp. exact Hp.
  - intros Ho. pose proof (csi_byte_public a c) as Hp.
    rewrite Ho in Hp. exact Hp.
Qed.

Lemma write_byte_undef n a c a' :
  run_inv n a -> 0 <= n -> n + 1 <= 2 ^ 21 ->
  ansr_write_byte a c = Undef a' ->
  stopped_sound a'.
Proof.
  intros (Hg & Hx & Hy & Hp) Hn Hbig.
  assert (Hpub : forall o, o = Undef a' -> public (final_state o) = public a ->
                 stopped_sound a').
  { intros o -> Hpa. cbn in Hpa.
    apply (grid_sound_stopped (Z.max 80 (512 * n))). rewrite Hpa. exact Hg. }
  unfold ansr_write_byte. destruct (state a).
  - destruct (is_text c) eqn:Ht.
    + rewrite input_byte_text by exact Ht.
      destruct (_ansr_add_char a c) as [rc0 a0| |] eqn:Hadd; try discriminate.
      intros [= <-].
      apply (add_char_undef (Z.max 80 (512 * n)) (256 * n) a c a0);
        try assumption; lia.
    + intros Ho. apply (Hpub _ Ho). apply input_byte_control. exact Ht.
  - discriminate.
  - intros Ho. apply (Hpub _ Ho). apply escape_byte_public.
  - intros Ho. apply (Hpub _ Ho). apply csi_byte_public.
Qed.

Lemma write_stops input : forall n a,
  run_inv n a -> 0 <= n -> n + Z.of_nat (length input) <= 2 ^ 21 ->
  match ansr_write a input with
  | Ret _ a' => run_inv (n + Z.of_nat (length input)) a'
  | Abort a' => exists B, grid_sound B (public a')
  | Undef a' => stopped_sound a'
  end.
Proof.
  induction input as [|c rest IH]; intros n a Hinv Hn Hlen.
  - cbn [ansr_write length]. replace (n + Z.of_nat 0) with n by lia. exact Hinv.
  - cbn [ansr_write]. cbn [length] in *.
    destruct (ansr_write_byte a c) as [rc1 a1|a1|a1] eqn:Hb.
    + replace (n + Z.of_nat (S (length rest)))
        with (n + 1 + Z.of_nat (length rest)) by lia.
      apply IH; [|lia|lia].
      apply (write_byte_inv n a c rc1 a1); [exact Hinv | lia | lia | exact Hb].
    + apply write_byte_abort in Hb. destruct Hinv as (Hg & _).
      exists (Z.max 80 (512 * n)). rewrite Hb. exact Hg.
    + apply (write_byte_undef n a c a1); [exact Hinv | lia | lia | exact Hb].
Qed.

(** X25.  The grid is consistent up to the first access outside an
    array.  For a feed of at most 2^21 bytes to a fresh renderer, in the
    renderer the feed leaves when it returns, stops at an assertion, or
    reaches an access outside an array (where the model stops):
    the recorded allocation sizes are the sizes of the arrays and every
    row's width lies within its allocation; the height exceeds the
    allocated height only in the last case, as the cursor row plus one
    with the cursor row beyond the row array; and while the height is
    within the allocated height every row below the height and every
    cell below a row's width can be read. *)
Theorem grid_consistent_until_out_of_bounds conf0 input :
  Z.of_nat (length input) <= 2 ^ 21 ->
  let o := ansr_write (blank conf0) input in
  let a' := final_state o in
  let p := public a' in
  sizes_exact p
  /\ 0 <= height p
  /\ (allocated_height p < height p ->
        o = Undef a'
        /\ height p = cursor_y a' + 1 /\ allocated_height p <= cursor_y a')
  /\ (height p <= allocated_height p ->
        grid_consistent p
        /\ (forall r, 0 <= r < height p -> is_Some (nth_Z (rows p) r))
        /\ (forall r row k, row_at a' r = Some row -> 0 <= k < width row ->
              is_Some (cell_at a' r k))).
Proof.
  intros Hlen o a' p.
  assert (Hstop : stopped_sound a'
                  /\ (allocated_height p < height p -> o = Undef a')).
  { pose proof (write_stops input 0 (blank conf0) (blank_run_inv conf0)
                  ltac:(lia) ltac:(lia)) as Hs.
    fold o in Hs. subst p a'. destruct o as [rc a1|a1|a1]; cbn [final_state].
    - destruct Hs as (Hg & _). split; [apply (grid_sound_stopped _ _ Hg)|].
      destruct Hg as (_ & Hh & _). lia.
    - destruct Hs as [B Hg]. split; [apply (grid_sound_stopped _ _ Hg)|].
      destruct Hg as (_ & Hh & _). lia.
    - split; [exact Hs | reflexivity]. }
  destruct Hstop as (((Hl & Hrows) & Hh0 & Hdis) & Hund). fold p in Hl, Hrows, Hh0, Hdis.
  split; [split; [exact Hl | exact Hrows]|]. split; [exact Hh0|].
  split; [intros Hgt; split; [apply Hund; exact Hgt | lia]|].
  intros Hle. split; [|split].
  - unfold grid_consistent. split; [lia|]. split; [exact Hl | exact Hrows].
  - intros r Hr. unfold nth_Z.
    destruct (Z.leb_spec 0 r); [|lia].
    destruct (Z.ltb_spec r (Z.of_nat (length (rows p)))); [|lia].
    cbn [andb]. apply lookup_lt_is_Some. lia.
  - intros r row k Hrow Hk. unfold cell_at. rewrite Hrow.
    unfold row_at in Hrow. fold p in Hrow.
    destruct (nth_Z (rows p) r) as [[row'|]|] eqn:Hr; try discriminate.
    injection Hrow as ->.
    destruct (Hrows r row Hr) as (H1 & H2).
    unfold nth_Z.
    destruct (Z.leb_spec 0 k); [|lia].
    destruct (Z.ltb_spec k (Z.of_nat (length (cols row)))); [|lia].
    cbn [andb]. apply lookup_lt_is_Some. lia.
Qed.

(** ** What a cell holds *)

Lemma grid_sound_widths B a : grid_sound B (public a) -> grid_ok a.
Proof.
  intros (Hl & _ & _ & Hrows). split; [exact Hl|].
  intros r row Hr. destruct (Hrows r row Hr) as (H1 & _). exact H1.
Qed.

Lemma cell_at_row a r k v :
  cell_at a r k = Some v ->
  exists row, nth_Z (rows (public a)) r = Some (Some row)
              /\ nth_Z (cols row) k = Some v.
Proof.
  unfold cell_at, row_at.
  destruct (nth_Z (rows (public a)) r) as [[row|]|]; try discriminate.
  intros Hv. exists row. auto.
Qed.

Lemma cell_at_of_row a r k v row :
  nth_Z (rows (public a)) r = Some (Some row) ->
  nth_Z (cols row) k = Some v ->
  cell_at a r k = Some v.
Proof. intros Hr Hv. unfold cell_at, row_at. rewrite Hr. exact Hv. Qed.

Lemma expand_rows_keeps a r k v :
  grid_ok a ->
  cell_at a r k = Some v ->
  cell_at (final_state (expand_rows a)) r k = Some v.
Proof.
  intros (Hl & _) Hv. unfold expand_rows, request.
  destruct (_ >=? _); [|exact Hv].
  destruct (alloc_ok _); [|exact Hv].
  destruct (_ <? _); [exact Hv|].
  destruct (cell_at_row _ _ _ _ Hv) as (row & Hr & Hk).
  apply (cell_at_of_row _ _ _ _ row); [|exact Hk]. cbn.
  rewrite Hl, Nat2Z.id, firstn_all.
  rewrite nth_Z_app_l; [exact Hr|].
  apply nth_Z_Some in Hr. lia.
Qed.

Lemma bump_height_keeps a r k :
  cell_at (bump_height a) r k = cell_at a r k.
Proof. unfold cell_at, row_at. rewrite bump_height_rows. reflexivity. Qed.

Lemma expand_cols_keeps a r k v :
  grid_ok a -> 0 <= cursor_y a ->
  cell_at a r k = Some v ->
  cell_at (final_state (expand_cols a)) r k = Some v.
Proof.
  intros (Hl & Hw) Hy Hv. unfold expand_cols, request.
  destruct (nth_Z (rows (public a)) (cursor_y a)) as [ro|] eqn:Hrow; [|exact Hv].
  destruct (match ro with Some row => _ | None => true end); [|exact Hv].
  destruct (alloc_ok _); [|exact Hv].
  destruct (cell_at_row _ _ _ _ Hv) as (row & Hr & Hk).
  cbn [final_state].
  destruct (Z.eq_dec r (cursor_y a)) as [-> | Hne].
  - rewrite Hr in Hrow. injection Hrow as <-.
    eapply cell_at_of_row.
    + cbn. apply nth_Z_insert_eq. apply nth_Z_Some in Hr. lia.
    + cbn. rewrite (Hw _ _ Hr), Nat2Z.id, firstn_all.
      rewrite nth_Z_app_l; [exact Hk|]. apply nth_Z_Some in Hk. lia.
  - apply (cell_at_of_row _ _ _ _ row); [|exact Hk]. cbn.
    rewrite nth_Z_insert_ne by lia. exact Hr.
Qed.

Lemma store_char_keeps a c r k v :
  0 <= cursor_y a ->
  cell_at a r k = Some v ->
  (r, k) <> (cursor_y a, cursor_x a) ->
  cell_at (final_state (store_char a c)) r k = Some v.
Proof.
  intros Hy Hv Hne. unfold store_char.
  destruct (nth_Z (rows (public a)) (cursor_y a)) as [[row0|]|] eqn:Hrow;
    try exact Hv.
  destruct (Z.leb_spec 0 (cursor_x a)); [|exact Hv].
  destruct (Z.ltb_spec (cursor_x a) (Z.of_nat (length (cols row0)))); [|exact Hv].
  cbn [andb final_state].
  destruct (cell_at_row _ _ _ _ Hv) as (row & Hr & Hk).
  destruct (Z.eq_dec r (cursor_y a)) as [-> | Hner].
  - rewrite Hr in Hrow. injection Hrow as <-.
    eapply cell_at_of_row.
    + cbn. apply nth_Z_insert_eq. apply nth_Z_Some in Hr. lia.
    + cbn. rewrite nth_Z_insert_ne; [exact Hk | lia | congruence].
  - apply (cell_at_of_row _ _ _ _ row); [|exact Hk]. cbn.
    rewrite nth_Z_insert_ne by lia. exact Hr.
Qed.

Lemma store_char_stored a c rc a' :
  store_char a c = Ret rc a' ->
  rc = 0
  /\ cell_at a' (cursor_y a) (cursor_x a)
     = Some {| code := c; ch_disp_state := disp_state a |}.
Proof.
  unfold store_char.
  destruct (nth_Z (rows (public a)) (cursor_y a)) as [[row0|]|] eqn:Hrow;
    try discriminate.
  destruct (Z.leb_spec 0 (cursor_x a)); [|discriminate].
  destruct (Z.ltb_spec (cursor_x a) (Z.of_nat (length (cols row0)))); [|discriminate].
  cbn [andb]. intros [= <- <-]. split; [reflexivity|].
  apply nth_Z_Some in Hrow as [Hy _].
  eapply cell_at_of_row.
  - cbn. apply nth_Z_insert_eq. lia.
  - cbn. apply nth_Z_insert_eq. lia.
Qed.

Lemma store_char_final a c :
  (exists rc a', store_char a c = Ret rc a') \/ final_state (store_char a c) = a.
Proof.
  unfold store_char.
  destruct (nth_Z _ _) as [[row0|]|]; auto.
  destruct (_ && _); [left; eauto | auto].
Qed.

Lemma bump_height_widths a :
  grid_ok a -> grid_ok (bump_height a).
Proof. unfold bump_height. destruct (_ >=? _); auto. Qed.

Lemma soft_wrap_row a : 0 <= cursor_y a -> 0 <= cursor_y (soft_wrap a).
Proof.
  intros Hy. unfold soft_wrap. destruct (_ && _); [|exact Hy].
  cbn. apply u32_range.
Qed.

Lemma add_char_keeps B a c r k v :
  grid_sound B (public a) -> 0 <= cursor_y a ->
  cell_at a r k = Some v ->
  (forall a', _ansr_add_char a c = Ret 0 a' ->
     (r, k) <> (cursor_y (soft_wrap a), cursor_x (soft_wrap a))) ->
  cell_at (final_state (_ansr_add_char a c)) r k = Some v.
Proof.
  intros Hg Hy Hv. unfold _ansr_add_char.
  pose proof (soft_wrap_row a Hy) as Hy0.
  rewrite <- (soft_wrap_public a) in Hg.
  rewrite <- (cell_at_public a (soft_wrap a) r k (soft_wrap_public a)) in Hv.
  set (a0 := soft_wrap a) in *. clearbody a0.
  pose proof (expand_rows_keeps a0 r k v (grid_sound_widths B _ Hg) Hv) as Hk1.
  destruct (expand_rows a0) as [rc1 a1| |] eqn:He; cbn [final_state] in Hk1;
    try (intros _; exact Hk1).
  destruct (expand_rows_sound B a0 rc1 a1 Hg He) as (Hg1 & Hx1 & Hy1 & _).
  destruct (Z.eq_dec rc1 0) as [-> | Hrc1];
    [|destruct rc1; try congruence; intros _; exact Hk1].
  destruct (bump_height_cursor a1) as [Hbx Hby].
  pose proof (expand_cols_keeps (bump_height a1) r k v
                (bump_height_widths a1 (grid_sound_widths B _ Hg1))
                ltac:(lia)) as Hk2.
  rewrite bump_height_keeps in Hk2. specialize (Hk2 Hk1).
  destruct (expand_cols_cursor (bump_height a1)) as [Hcx Hcy].
  destruct (expand_cols (bump_height a1)) as [rc2 a2| |] eqn:Hc;
    cbn [final_state] in Hk2, Hcx, Hcy; try (intros _; exact Hk2).
  destruct (Z.eq_dec rc2 0) as [-> | Hrc2];
    [|destruct rc2; try congruence; intros _; exact Hk2].
  intros Hne.
  destruct (store_char_final a2 c) as [(rc3 & a3 & Hs) | Hs].
  - destruct (store_char_stored a2 c rc3 a3 Hs) as [-> _].
    apply store_char_keeps; [lia | exact Hk2|].
    rewrite Hcx, Hcy, Hbx, Hby, Hx1, Hy1. apply (Hne a3). exact Hs.
  - rewrite Hs. exact Hk2.
Qed.

Lemma add_char_stored a c a' :
  _ansr_add_char a c = Ret 0 a' ->
  cell_at a' (cursor_y (soft_wrap a)) (cursor_x (soft_wrap a))
  = Some {| code := c; ch_disp_state := disp_state a |}.
Proof.
  unfold _ansr_add_char.
  destruct (soft_wrap_parser a) as (_ & Hd0 & _).
  set (a0 := soft_wrap a) in *. clearbody a0.
  destruct (expand_rows_cursor a0) as [Hx1 Hy1].
  destruct (expand_rows_parser a0) as (_ & Hd1 & _).
  destruct (expand_rows a0) as [rc1 a1| |]; try discriminate.
  cbn [final_state] in *.
  destruct (Z.eq_dec rc1 0) as [-> | Hrc1];
    [|destruct rc1; try congruence; intros [= ? ?]; congruence].
  destruct (bump_height_cursor a1) as [Hbx Hby].
  destruct (bump_height_parser a1) as (_ & Hdb & _).
  destruct (expand_cols_cursor (bump_height a1)) as [Hcx Hcy].
  destruct (expand_cols_parser (bump_height a1)) as (_ & Hd2 & _).
  destruct (expand_cols (bump_height a1)) as [rc2 a2| |]; try discriminate.
  cbn [final_state] in *.
  destruct (Z.eq_dec rc2 0) as [-> | Hrc2];
    [|destruct rc2; try congruence; intros [= ? ?]; congruence].
  intros Hs. destruct (store_char_stored a2 c 0 a' Hs) as [_ Hcell].
  rewrite Hcx, Hcy, Hbx, Hby, Hx1, Hy1 in Hcell.
  rewrite Hcell, Hd2, Hdb, Hd1, Hd0. reflexivity.
Qed.

Lemma stored_by_add_char a c r k :
  In (r, k) (stored_by a c) ->
  state a = ANSR_STATE_INPUT /\ is_text c = true
  /\ (r, k) = (cursor_y (soft_wrap a), cursor_x (soft_wrap a))
  /\ exists a', _ansr_add_char a c = Ret 0 a'.
Proof.
  unfold stored_by.
  destruct (state a); [|intros []..].
  destruct (is_text c); [|intros []].
  destruct (_ansr_add_char a c) as [rc a'| |]; [|intros []..].
  destruct rc as [|p|p]; [|intros []..].
  intros [<- | []]. eauto 6.
Qed.

Lemma write_byte_keeps n a c r k v :
  run_inv n a ->
  cell_at a r k = Some v ->
  ~ In (r, k) (stored_by a c) ->
  cell_at (final_state (ansr_write_byte a c)) r k = Some v.
Proof.
  intros (Hg & _ & Hy & _) Hv Hnot.
  unfold ansr_write_byte. unfold stored_by in Hnot.
  destruct (state a).
  - destruct (is_text c) eqn:Ht.
    + rewrite input_byte_text by exact Ht.
      pose proof (add_char_keeps _ a c r k v Hg ltac:(lia) Hv) as Hk.
      destruct (_ansr_add_char a c) as [rc a1| |]; cbn [final_state] in *;
        apply Hk; try discriminate.
      intros a' [= -> ->] Heq. apply Hnot. left. symmetry. exact Heq.
    + rewrite (cell_at_public a); [exact Hv|].
      apply input_byte_control. exact Ht.
  - exact Hv.
  - rewrite (cell_at_public a); [exact Hv | apply escape_byte_public].
  - rewrite (cell_at_public a); [exact Hv | apply csi_byte_public].
Qed.

Lemma write_keeps r k v input : forall n a,
  run_inv n a -> 0 <= n -> n + Z.of_nat (length input) <= 2 ^ 21 ->
  cell_at a r k = Some v ->
  ~ In (r, k) (written a input) ->
  cell_at (final_state (ansr_write a input)) r k = Some v.
Proof.
  induction input as [|c rest IH]; intros n a Hinv Hn Hlen Hv Hnot.
  - exact Hv.
  - cbn [ansr_write written length] in *.
    rewrite in_app_iff in Hnot.
    pose proof (write_byte_keeps n a c r k v Hinv Hv
                  ltac:(intros Hin; apply Hnot; left; exact Hin)) as Hk.
    destruct (ansr_write_byte a c) as [rc1 a1|a1|a1] eqn:Hb;
      cbn [final_state] in *; try exact Hk.
    apply (IH (n + 1) a1); [|lia|lia|exact Hk|tauto].
    apply (write_byte_inv n a c rc1 a1); [exact Hinv | lia | lia | exact Hb].
Qed.

(** X9.  A cell holds its last write.  In a feed of at most 2^21 bytes
    to a fresh renderer, if byte [c] is stored at cell (r, k) and no
    later byte of the feed is stored there, then at the end of the feed,
    however it ends, the cell holds [c] together with the display state
    that was current when [c] arrived: later bytes, reallocations of the
    row array and of the row, and later changes of the display state
    leave it alone. *)
Theorem written_cell_keeps_last_write conf0 pre c post a0 r k :
  Z.of_nat (length (pre ++ c :: post)) <= 2 ^ 21 ->
  ansr_write (blank conf0) pre = Ret 0 a0 ->
  In (r, k) (stored_by a0 c) ->
  ~ In (r, k) (written (final_state (ansr_write_byte a0 c)) post) ->
  cell_at (final_state (ansr_write (blank conf0) (pre ++ c :: post))) r k
  = Some {| code := c; ch_disp_state := disp_state a0 |}.
Proof.
  intros Hlen Hpre Hin Hlater.
  rewrite length_app in Hlen. cbn [length] in Hlen.
  destruct (stored_by_add_char a0 c r k Hin) as (Hs & Ht & Heq & a1 & Hadd).
  injection Heq as -> ->.
  assert (Hb : ansr_write_byte a0 c = Ret 0 a1).
  { unfold ansr_write_byte. rewrite Hs, input_byte_text by exact Ht.
    rewrite Hadd. reflexivity. }
  rewrite Hb in Hlater. cbn [final_state] in Hlater.
  rewrite ansr_write_app, Hpre. cbn [ansr_write]. rewrite Hb.
  pose proof (write_inv pre 0 (blank conf0) 0 a0 (blank_run_inv conf0)
                ltac:(lia) ltac:(lia) Hpre) as Hinv0.
  pose proof (write_byte_inv _ a0 c 0 a1 Hinv0 ltac:(lia) ltac:(lia) Hb) as Hinv1.
  apply (write_keeps _ _ _ post _ a1 Hinv1); [lia | lia | | exact Hlater].
  apply add_char_stored. exact Hadd.
Qed.

End Coverage.

(** ** Instances of the further properties *)

(** Closed side conditions are settled by evaluation. *)
Ltac by_evaluation :=
  vm_compute; repeat split; first [ reflexivity | discriminate ].

(** X1 on a heap that refuses the first request. *)
Lemma new_null_only_when_calloc_fails_witness :
  @ansr_new (heap_of 0) None (Some [0x41]) = New_null
  /\ @ansr_new (heap_of 1) None (Some [0x41]) <> New_null.
Proof.
  split.
  - apply (proj2 (@new_null_only_when_calloc_fails (heap_of 0) None (Some [0x41]))).
    split; [discriminate | reflexivity].
  - intros Hn.
    apply (proj1 (@new_null_only_when_calloc_fails (heap_of 1) None (Some [0x41])))
      in Hn.
    destruct Hn as [_ Hn]. discriminate Hn.
Defined.

(** X2: ESC '[' in one call, "31mA" in the next. *)
Lemma write_split_across_calls_witness :
  let a := blank ansr_conf_defaults in
  @ansr_write gcc_x86_64 a [0x1b; 0x5b] = Ret 0 (csi_entered a)
  /\ @ansr_write gcc_x86_64 a ([0x1b; 0x5b] ++ [0x33; 0x31; 0x6d; 0x41])
     = @ansr_write gcc_x86_64 (csi_entered a) [0x33; 0x31; 0x6d; 0x41].
Proof.
  intros a. split; [reflexivity|].
  apply (@write_split_across_calls gcc_x86_64 a [0x1b; 0x5b]
           [0x33; 0x31; 0x6d; 0x41] (csi_entered a)).
  reflexivity.
Defined.

(** X3: the final byte 'H' in the CSI state. *)
Lemma display_state_changes_only_on_sgr_witness :
  let a := csi_entered (blank ansr_conf_defaults) in
  disp_state (final_state (@ansr_write_byte gcc_x86_64 a 0x48)) = disp_state a.
Proof.
  intros a. apply (@display_state_changes_only_on_sgr gcc_x86_64 a 0x48).
  intros _. discriminate.
Defined.

(** X5: 38 asserts, 31 returns. *)
Lemma sgr_fatal_parameters_witness :
  let a := blank ansr_conf_defaults in
  sgr_case 38 a = Abort a
  /\ exists d', sgr_case 31 a = Ret 0 (set_disp_state d' a).
Proof.
  intros a. split.
  - apply (proj1 (sgr_fatal_parameters 38 a)). reflexivity.
  - apply (proj2 (sgr_fatal_parameters 31 a)). reflexivity.
Defined.

(** X6: bold keeps both colours, red keeps the attributes. *)
Lemma sgr_colours_and_attributes_apart_witness :
  let a := blank ansr_conf_defaults in
  fg (disp_state (final_state (sgr_case 1 a))) = fg (disp_state a)
  /\ bg (disp_state (final_state (sgr_case 1 a))) = bg (disp_state a)
  /\ attrs (disp_state (final_state (sgr_case 31 a))) = attrs (disp_state a).
Proof.
  intros a.
  destruct (sgr_colours_and_attributes_apart 1 a) as (Hf & Hb & _).
  destruct (sgr_colours_and_attributes_apart 31 a) as (_ & _ & Ha).
  split; [apply Hf; [discriminate | reflexivity]|].
  split; [apply Hb; [discriminate | reflexivity]|].
  apply Ha. reflexivity.
Defined.

(** X7: bold on an italic display state keeps italic; "not bold" on a
    plain one does not make it italic. *)
Lemma sgr_set_adds_clear_removes_witness :
  let a := set_disp_state (attr_on italic sgr_baseline) (blank ansr_conf_defaults) in
  has_attr (disp_state (final_state (sgr_case 1 a))) italic = true
  /\ (has_attr (disp_state (final_state (sgr_case 22 a))) bold = true ->
      has_attr (disp_state a) bold = true).
Proof.
  intros a. split.
  - apply (proj1 (sgr_set_adds_clear_removes 1 a italic));
      reflexivity.
  - apply (proj2 (sgr_set_adds_clear_removes 22 a bold)).
    reflexivity.
Defined.

(** X8: 22 on a faint display state leaves it faint. *)
Lemma sgr_never_sets_proportional_nor_clears_faint_witness :
  let a := set_disp_state (attr_on faint sgr_baseline) (blank ansr_conf_defaults) in
  has_attr (disp_state (final_state (sgr_case 26 a))) proportional = false
  /\ has_attr (disp_state (final_state (sgr_case 22 a))) faint = true.
Proof.
  intros a. split.
  - apply (proj1 (sgr_never_sets_proportional_nor_clears_faint 26 a)).
    reflexivity.
  - apply (proj2 (sgr_never_sets_proportional_nor_clears_faint 22 a));
      [discriminate | reflexivity].
Defined.

(** X9: "A", a carriage return, ESC "[31m", then "B" over the "A" and
    "C" next to it: cell (0, 0) holds the "B" in red. *)
Lemma written_cell_keeps_last_write_witness :
  let pre := [0x41; 0x0d; 0x1b; 0x5b; 0x33; 0x31; 0x6d] in
  let a0 := final_state
              (@ansr_write gcc_x86_64 (blank ansr_conf_defaults) pre) in
  disp_state a0 = set_fg ANSR_COLOR_RED zero_disp_state
  /\ cell_at (final_state
                (@ansr_write gcc_x86_64 (blank ansr_conf_defaults)
                   (pre ++ 0x42 :: [0x43]))) 0 0
     = Some {| code := 0x42; ch_disp_state := disp_state a0 |}.
Proof.
  intros pre a0. split; [vm_compute; reflexivity|].
  apply (@written_cell_keeps_last_write gcc_x86_64 ansr_conf_defaults pre
           0x42 [0x43] a0 0 0).
  - by_evaluation.
  - vm_compute. reflexivity.
  - vm_compute. left. reflexivity.
  - vm_compute. intros [Hin | []]. discriminate Hin.
Defined.

(** X11: "42" in a sequence just opened. *)
Lemma digits_accumulate_modulo_2_32_witness :
  let a := csi_entered (blank ansr_conf_defaults) in
  @ansr_write gcc_x86_64 a [0x34; 0x32] = Ret 0 (set_accumulator 42 a).
Proof.
  intros a.
  apply (@digits_accumulate_modulo_2_32 gcc_x86_64 a [0x34; 0x32]).
  - reflexivity.
  - by_evaluation.
  - repeat constructor.
Defined.

(** X12: ESC "[3" then 'A', 'B' or 'C' with the cursor at (5, 7). *)
Lemma cursor_moves_by_first_parameter_witness :
  let a := set_accumulator 3
             (csi_entered
                (set_cursor_x 7 (set_cursor_y 5 (blank ansr_conf_defaults)))) in
  (exists a', @ansr_write_byte gcc_x86_64 a 0x41 = Ret 0 a'
              /\ cursor_y a' = 2 /\ cursor_x a' = 7)
  /\ (exists a', @ansr_write_byte gcc_x86_64 a 0x42 = Ret 0 a'
                 /\ cursor_y a' = 8 /\ cursor_x a' = 7)
  /\ (exists a', @ansr_write_byte gcc_x86_64 a 0x43 = Ret 0 a'
                 /\ cursor_x a' = 10 /\ cursor_y a' = 5).
Proof.
  intros a.
  destruct (@cursor_moves_by_first_parameter gcc_x86_64 a 3 [])
    as ((u & Hu & _ & Huy & Hux & _) & (d & Hd & _ & Hdy & Hdx & _)
        & (f & Hf & _ & Hfx & Hfy & _)).
  - reflexivity.
  - by_evaluation.
  - by_evaluation.
  - right. reflexivity.
  - reflexivity.
  - by_evaluation.
  - split; [exists u | split; [exists d | exists f]]; auto.
Defined.

(** X13: ESC "[A" with the cursor at (5, 7). *)
Lemma cursor_move_without_parameter_stays_witness :
  let a := csi_entered
             (set_cursor_x 7 (set_cursor_y 5 (blank ansr_conf_defaults))) in
  exists a', @ansr_write_byte gcc_x86_64 a 0x41 = Ret 0 a'
             /\ state a' = ANSR_STATE_INPUT
             /\ cursor_y a' = 5 /\ cursor_x a' = 7.
Proof.
  intros a.
  destruct (@cursor_move_without_parameter_stays gcc_x86_64 a 0x41)
    as (a' & Hw & Hs & Hy & Hx & _).
  - reflexivity.
  - by_evaluation.
  - reflexivity.
  - reflexivity.
  - right. reflexivity.
  - by_evaluation.
  - by_evaluation.
  - left. reflexivity.
  - exists a'. auto.
Defined.

(** X14: ESC "[@". *)
Lemma unhandled_final_byte_stays_in_csi_witness :
  let a := csi_entered (blank ansr_conf_defaults) in
  exists a', @ansr_write_byte gcc_x86_64 a 0x40 = Ret 0 a'
             /\ state a' = ANSR_STATE_CSI /\ pending a' = [0].
Proof.
  intros a.
  destruct (@unhandled_final_byte_stays_in_csi gcc_x86_64 a 0x40)
    as (a' & Hw & Hs & Hp & _).
  - reflexivity.
  - by_evaluation.
  - by_evaluation.
  - right. reflexivity.
  - reflexivity.
  - reflexivity.
  - exists a'. auto.
Defined.

(** X15: the first character of a fresh renderer. *)
Lemma add_char_stores_and_preserves_witness :
  let a := blank ansr_conf_defaults in
  exists a',
    @_ansr_add_char gcc_x86_64 a 0x41 = Ret 0 a'
    /\ cursor_y a' = 0 /\ cursor_x a' = 1
    /\ cell_at a' 0 0 = Some {| code := 0x41; ch_disp_state := disp_state a |}
    /\ height (public a') = 1
    /\ grid_ok a'.
Proof.
  intros a.
  destruct (@add_char_stores_and_preserves gcc_x86_64 a 0x41)
    as (a' & Hw & Hy & Hx & Hc & _ & _ & _ & _ & _ & Hh & Hg).
  - reflexivity.
  - reflexivity.
  - split; [reflexivity|]. intros r row Hr.
    apply nth_Z_Some in Hr as [Hr _]. simpl in Hr. lia.
  - by_evaluation.
  - by_evaluation.
  - by_evaluation.
  - by_evaluation.
  - exists a'. auto 10.
Defined.

(** X16: a character at row 64 of a fresh renderer. *)
Lemma add_char_overruns_row_array_witness :
  let a := set_cursor_y 64 (blank ansr_conf_defaults) in
  exists a',
    @_ansr_add_char gcc_x86_64 a 0x41 = Undef a'
    /\ allocated_height (public a') = 64
    /\ height (public a') = 65.
Proof.
  intros a.
  destruct (@add_char_overruns_row_array gcc_x86_64 a 0x41)
    as (a' & Hw & Hah & _ & _ & Hh & _).
  - reflexivity.
  - reflexivity.
  - by_evaluation.
  - by_evaluation.
  - exists a'. auto.
Defined.

(** X17: the first character when only the [calloc] was granted. *)
Lemma write_drops_char_when_rows_cannot_grow_witness :
  let a := blank ansr_conf_defaults in
  let a' := set_allocs 2 a in
  @_ansr_add_char (heap_of 1) a 0x41 = Ret (- ENOMEM) a'
  /\ @ansr_write_byte (heap_of 1) a 0x41 = Ret 0 a'
  /\ @ansr_write (heap_of 1) a [0x41; 0x0a] = @ansr_write (heap_of 1) a' [0x0a].
Proof.
  intros a a'.
  destruct (@write_drops_char_when_rows_cannot_grow (heap_of 1) a 0x41)
    as (Hadd & Hw & _ & Hrest).
  - reflexivity.
  - reflexivity.
  - reflexivity.
  - by_evaluation.
  - split; [exact Hadd|]. split; [exact Hw|]. apply Hrest.
Defined.

(** X18: ESC "[1;2;3H". *)
Lemma params_buffer_never_overrun_witness :
  let a' := final_state
              (@ansr_write gcc_x86_64 (blank ansr_conf_defaults)
                 [0x1b; 0x5b; 0x31; 0x3b; 0x32; 0x3b; 0x33; 0x48]) in
  0 <= n_params a' <= n_params_allocated a'
  /\ n_params_allocated a' = Z.of_nat (length (params a'))
  /\ forall i, 0 <= i < n_params a' -> is_Some (@param gcc_x86_64 a' i).
Proof.
  intros a'.
  destruct (@params_buffer_never_overrun gcc_x86_64 ansr_conf_defaults
              [0x1b; 0x5b; 0x31; 0x3b; 0x32; 0x3b; 0x33; 0x48])
    as (Hn & Hl & _ & Hr).
  - by_evaluation.
  - split; [exact Hn|]. split; [exact Hl | exact Hr].
Defined.

(** X19: five backspaces from column 2. *)
Lemma backspaces_stop_at_column_zero_witness :
  let a := set_cursor_x 2 (blank ansr_conf_defaults) in
  @ansr_write gcc_x86_64 a (replicate 5 0x8) = Ret 0 (set_cursor_x 0 a).
Proof.
  intros a.
  apply (@backspaces_stop_at_column_zero gcc_x86_64 a 5).
  - reflexivity.
  - by_evaluation.
Defined.

(** X20: a tab on a fresh renderer. *)
Lemma fatal_bytes_outside_csi_witness :
  let a := blank ansr_conf_defaults in
  (exists a', @ansr_write_byte gcc_x86_64 a 0x9 = Abort a')
  /\ ~ (exists a', @ansr_write_byte gcc_x86_64 a 0x41 = Abort a').
Proof.
  intros a.
  destruct (@fatal_bytes_outside_csi gcc_x86_64 a 0x9) as (Htab & _ & _).
  destruct (@fatal_bytes_outside_csi gcc_x86_64 a 0x41) as (Hch & _ & _).
  split.
  - apply Htab; [reflexivity | left; reflexivity].
  - intros Hab. apply Hch in Hab; [|reflexivity].
    destruct Hab as [Hab | Hab]; discriminate Hab.
Defined.

(** X21: ':' and 'K' in a sequence just opened. *)
Lemma csi_rejected_bytes_witness :
  let a := csi_entered (blank ansr_conf_defaults) in
  @ansr_write_byte gcc_x86_64 a 0x3a = Abort a
  /\ forall rc a', @ansr_write_byte gcc_x86_64 a 0x4b <> Ret rc a'.
Proof.
  intros a.
  destruct (@csi_rejected_bytes gcc_x86_64 a 0x3a) as (Hrej & _);
    [reflexivity|].
  destruct (@csi_rejected_bytes gcc_x86_64 a 0x4b) as (_ & Hun);
    [reflexivity|].
  split; [apply Hrej; reflexivity | apply Hun; reflexivity].
Defined.

(** X22: ESC "[42;" on a fresh renderer. *)
Lemma csi_parameter_is_parsed_witness :
  let a := blank ansr_conf_defaults in
  exists a',
    @ansr_write gcc_x86_64 a [0x1b; 0x5b; 0x34; 0x32; 0x3b] = Ret 0 a'
    /\ state a' = ANSR_STATE_CSI /\ pending a' = [42] /\ accumulator a' = 0.
Proof.
  intros a.
  destruct (@csi_parameter_is_parsed gcc_x86_64 a [0x34; 0x32])
    as (a' & Hw & Hs & Hp & Hacc & _).
  - reflexivity.
  - split; [reflexivity|]. split; [by_evaluation | right; reflexivity].
  - repeat constructor.
  - by_evaluation.
  - exists a'. auto.
Defined.

(** X23: ESC "[5;10H" on a fresh renderer. *)
Lemma cup_sequence_positions_cursor_witness :
  let a := blank ansr_conf_defaults in
  exists a',
    @ansr_write gcc_x86_64 a [0x1b; 0x5b; 0x35; 0x3b; 0x31; 0x30; 0x48] = Ret 0 a'
    /\ state a' = ANSR_STATE_INPUT
    /\ cursor_y a' = 4 /\ cursor_x a' = 9.
Proof.
  intros a.
  destruct (@cup_sequence_positions_cursor gcc_x86_64 a [0x35] [0x31; 0x30])
    as (a' & Hw & Hs & _ & _ & Hy & Hx & _).
  - reflexivity.
  - split; [reflexivity|]. split; [by_evaluation | right; reflexivity].
  - repeat constructor.
  - repeat constructor.
  - by_evaluation.
  - by_evaluation.
  - exists a'. split; [exact Hw|]. split; [exact Hs|].
    split; [apply Hy; by_evaluation | apply Hx; by_evaluation].
Defined.

(** X24: ESC "[31m" on a fresh renderer. *)
Lemma sgr_sequence_sets_display_state_witness :
  let a := blank ansr_conf_defaults in
  exists a',
    @ansr_write gcc_x86_64 a [0x1b; 0x5b; 0x33; 0x31; 0x6d] = Ret 0 a'
    /\ state a' = ANSR_STATE_INPUT
    /\ disp_state a' = set_fg ANSR_COLOR_RED (disp_state a).
Proof.
  intros a.
  destruct (@sgr_sequence_sets_display_state gcc_x86_64 a [0x33; 0x31])
    as (a' & Hw & Hs & _ & _ & Hfg & _).
  - reflexivity.
  - split; [reflexivity|]. split; [by_evaluation | right; reflexivity].
  - repeat constructor.
  - by_evaluation.
  - reflexivity.
  - exists a'. split; [exact Hw|]. split; [exact Hs|]. apply Hfg. reflexivity.
Defined.

(** X25: a feed that returns, and 64 line feeds then "A", which ends at
    rows[64] of a row array of 64. *)
Lemma grid_consistent_until_out_of_bounds_witness :
  let good := final_state
                (@ansr_write gcc_x86_64 (blank ansr_conf_defaults)
                   [0x41; 0x42; 0x0a; 0x43]) in
  let o := @ansr_write gcc_x86_64 (blank ansr_conf_defaults)
             (replicate 64 0x0a ++ [0x41]) in
  grid_consistent (public good)
  /\ sizes_exact (public (final_state o))
  /\ o = Undef (final_state o)
  /\ height (public (final_state o)) = cursor_y (final_state o) + 1
  /\ allocated_height (public (final_state o)) <= cursor_y (final_state o).
Proof.
  intros good o.
  destruct (@grid_consistent_until_out_of_bounds gcc_x86_64 ansr_conf_defaults
              [0x41; 0x42; 0x0a; 0x43]) as (_ & _ & _ & Hgood);
    [by_evaluation|].
  destruct (@grid_consistent_until_out_of_bounds gcc_x86_64 ansr_conf_defaults
              (replicate 64 0x0a ++ [0x41])) as (Hsz & _ & Hbad & _);
    [by_evaluation|].
  split; [apply Hgood; by_evaluation|].
  split; [exact Hsz|].
  apply Hbad. vm_compute. reflexivity.
Defined.
